(** * Aletheia memory system: chunking, ingestion, retrieval, interaction log

    A shallow embedding of [core/corememory_system.py] and
    [core/llm_interface.py], of the batch ingestion of [ingest_all.py] and
    of the body of the chat loop of [main.py], with the properties of the
    document ingestion and context retrieval pipeline.

    Conventions.
    - A Python [int] is a [Z]; a Python [str] is a [string], its characters
      being [ascii]; the chunker, which never inspects a character, is
      written over [list A]. [str.isalnum], [str.lower] and the [os.path]
      functions are parameters of the environment; [str.isspace], which
      decides where [split] and [strip] cut in the chat loop, is a
      parameter of the functions of that loop.
    - [text[a:b]] is [py_slice], with Python's treatment of negative and
      out-of-range indices written out.
    - The [while] loop of [chunk_text] is a fuelled recursion; the fuel
      [S (length text)] is shown to be enough for every input.
    - Library and remote calls (file system, embedding provider, vector
      store, clock) are an explicit environment; the mutable module state
      and the traces of the effects (provider calls, store writes, clock
      reads, printed lines) are an explicit [World] threaded through a
      state monad with exceptions. *)

From stdpp Require Import base numbers list strings gmap fin_maps pretty.
From Stdlib Require Import ZArith Lia Ascii PrimFloat.

Local Open Scope Z_scope.

(** ** Python slicing *)

Module PySlice.
Section Slice.
Context {A : Type}.

(** Index normalisation of [PySlice_AdjustIndices] for step 1: a negative
    index counts from the end, and the result is clamped to [0..len]. *)
Definition adjust_index (len i : Z) : Z :=
  if i <? 0 then Z.max 0 (i + len) else Z.min i len.

(** [py_slice text a b] is [text[a:b]]. *)
Definition py_slice (text : list A) (a b : Z) : list A :=
  let len := Z.of_nat (length text) in
  let lo := adjust_index len a in
  let hi := adjust_index len b in
  take (Z.to_nat (hi - lo)) (drop (Z.to_nat lo) text).

(** [text[:n]] for a natural number [n], as used for previews. *)
Definition py_prefix (text : list A) (n : Z) : list A := py_slice text 0 n.
End Slice.
End PySlice.
Export PySlice.

(** ** Text chunking strategy *)

Module Chunker.
Section Chunk.
Context {A : Type}.
Implicit Types (text : list A) (chunks : list (list A)).

(** The line printed by the guard of the loop. *)
Definition loop_warning (chunk_size chunk_overlap : Z) : string :=
  "Warning: Chunking parameters might lead to infinite loop (size: "
  +:+ pretty chunk_size +:+ ", overlap: " +:+ pretty chunk_overlap
  +:+ "). Breaking.".

(** The [while start_index < text_len] loop of [chunk_text]: the chunks
    and the lines printed. [None] is fuel exhaustion, never a result of the
    source. *)
Fixpoint chunk_loop (fuel : nat) (text : list A) (chunk_size chunk_overlap : Z)
    (start_index : Z) (chunks : list (list A))
    : option (list (list A) * list string) :=
  match fuel with
  | O => None
  | S fuel' =>
    let text_len := Z.of_nat (length text) in
    if start_index <? text_len then
      let end_index := Z.min (start_index + chunk_size) text_len in
      let chunks := chunks ++ [py_slice text start_index end_index] in
      if end_index =? text_len then Some (chunks, [])
      else
        let start_index := start_index + (chunk_size - chunk_overlap) in
        if chunk_size - chunk_overlap <=? 0 then
          Some (chunks, [loop_warning chunk_size chunk_overlap])
        else chunk_loop fuel' text chunk_size chunk_overlap start_index chunks
    else Some (chunks, [])
  end.

(** [chunk_text] with an explicit bound on the number of loop tests. *)
Definition chunk_text_fuel (fuel : nat) (text : list A)
    (chunk_size chunk_overlap : Z) : option (list (list A) * list string) :=
  match text with
  | [] => Some ([], [])
  | _ => chunk_loop fuel text chunk_size chunk_overlap 0 []
  end.

(** One call of [chunk_text]: the list returned and the lines printed. *)
Definition chunk_text_run (text : list A) (chunk_size chunk_overlap : Z)
    : list (list A) * list string :=
  default ([], []) (chunk_text_fuel (S (length text)) text chunk_size chunk_overlap).

(** [chunk_text(text, chunk_size, chunk_overlap)]. *)
Definition chunk_text (text : list A) (chunk_size chunk_overlap : Z)
    : list (list A) :=
  (chunk_text_run text chunk_size chunk_overlap).1.

(** The lines a call of [chunk_text] prints. *)
Definition chunk_text_printed (text : list A) (chunk_size chunk_overlap : Z)
    : list string :=
  (chunk_text_run text chunk_size chunk_overlap).2.

(** Number of executions of the loop body: each one appends one chunk. *)
Definition iterations (text : list A) (chunk_size chunk_overlap : Z) : nat :=
  length (chunk_text text chunk_size chunk_overlap).
End Chunk.

(** Ceiling of the quotient [a / b] for [b > 0]. *)
Definition ceil_div (a b : Z) : Z := - ((- a) / b).

(** Concatenation of the chunks, every chunk after the first without its
    first [overlap] elements. *)
Definition strip_overlaps {A} (overlap : Z) (chunks : list (list A)) : list A :=
  match chunks with
  | [] => []
  | c :: cs => c ++ concat (map (drop (Z.to_nat overlap)) cs)
  end.

(** Default parameters of [chunk_text]. *)
Definition default_chunk_size : Z := 1200.
Definition default_chunk_overlap : Z := 150.
End Chunker.
Export Chunker.

(** ** Python values, exceptions and outcomes *)

Module Py.
(** The exceptions the modelled code can meet, each with its message; all
    derive from [Exception], so [except Exception] catches each of them. *)
Inductive exn :=
  | FileNotFoundError (msg : string)
  | IndexError (msg : string)
  | AttributeError (msg : string)
  | Exception (msg : string).

(** [str(e)] as interpolated into the messages. *)
Definition exn_str (e : exn) : string :=
  match e with
  | FileNotFoundError msg | IndexError msg | AttributeError msg | Exception msg => msg
  end.

Inductive outcome (A : Type) :=
  | Returned (a : A)
  | Raised (e : exn).
Global Arguments Returned {A} a.
Global Arguments Raised {A} e.

(** What a call evaluates to: a function that ends without a [return]
    expression evaluates to [None]. *)
Inductive py_value :=
  | PyNone
  | PyBool (b : bool)
  | PyInt (n : Z).

(** The newline character of the format strings. *)
Definition nl : string := String "010"%char "".

(** Truth value of an optional string: [None] and the empty string are
    false. *)
Definition truthy_str (s : option string) : bool :=
  match s with
  | Some (String _ _) => true
  | _ => false
  end.

(** Truth value of an optional list. *)
Definition truthy_list {A} (l : option (list A)) : bool :=
  match l with
  | Some (_ :: _) => true
  | _ => false
  end.
End Py.
Export Py.

(** ** Data model of the vector store *)

Module Store.
(** A metadata value: the dictionaries hold strings and integers. *)
Inductive meta_value :=
  | MetaStr (s : string)
  | MetaInt (n : Z).

Abbreviation metadata := (gmap string meta_value).
Abbreviation vector := (list PrimFloat.float).

(** One stored record; its id is the key under which it is stored. *)
Record StoredRecord := {
  rec_embedding : vector;
  rec_document : string;
  rec_metadata : metadata
}.

Abbreviation store := (gmap string StoredRecord).

(** The keyword arguments of one [collection.add] call. *)
Record Batch := {
  embeddings_to_add : list vector;
  documents_to_add : list string;
  metadatas_to_add : list metadata;
  ids_to_add : list string
}.

Definition empty_batch : Batch :=
  {| embeddings_to_add := []; documents_to_add := [];
     metadatas_to_add := []; ids_to_add := [] |}.

(** The records of a batch, paired with their ids, in order. *)
Definition batch_records (b : Batch) : list (string * StoredRecord) :=
  zip (ids_to_add b)
    (zip_with (λ ed m, {| rec_embedding := ed.1; rec_document := ed.2;
                          rec_metadata := m |})
       (zip (embeddings_to_add b) (documents_to_add b)) (metadatas_to_add b)).

(** Modelled from the spec: the write operation of the Vector Store, which
    is third-party code. The spec gives it as [upsert(batch of {id, vector,
    text, metadata})], under which a record whose id is already present
    replaces the stored one. Records are written in batch order. *)
Definition upsert (st : store) (records : list (string * StoredRecord)) : store :=
  foldl (λ st ir, <[ir.1 := ir.2]> st) st records.

(** The answer of [collection.query] for one query embedding: each field
    is [None] or one inner list per query. *)
Record QueryResult := {
  qr_ids : option (list (list string));
  qr_distances : option (list (list PrimFloat.float));
  qr_documents : option (list (list string));
  qr_metadatas : option (list (list metadata))
}.

(** A retrieved context record. *)
Record RetrievedChunk := {
  rc_id : string;
  rc_text_chunk : string;
  rc_metadata : metadata;
  rc_similarity_score : option PrimFloat.float
}.

(** One [collection.add] call as seen by the store. *)
Record AddCall := {
  add_records : list (string * StoredRecord);
  add_ok : bool
}.
End Store.
Export Store.

(** ** Environment and world *)

Module World.
(** A reading of the clock. *)
Record datetime := {
  year : Z; month : Z; day : Z; hour : Z; minute : Z; second : Z
}.

(** Library functions and remote services, which are not part of the
    repository. Remote answers are indexed by the number of earlier calls,
    so a service may answer the same request differently each time. *)
Record Env := {
  os_path_splitext : string → string * string;
  os_path_basename : string → string;
  str_lower : string → string;
  str_isalnum : ascii → bool;
  (** [open(path, 'r', encoding='utf-8').read()] *)
  open_read : string → outcome string;
  (** [[para.text for para in Document(path).paragraphs]] *)
  docx_paragraphs : string → outcome (list string);
  (** whether [openai.api_key] is set *)
  openai_api_key : bool;
  (** [openai.embeddings.create(input=[text], model=model).data[0].embedding] *)
  openai_embeddings_create : nat → string → outcome vector;
  (** the exception raised by the n-th [collection.add], if any *)
  chroma_add_raises : nat → list (string * StoredRecord) → option exn;
  (** [collection.query(query_embeddings=[v], n_results=n, where=filters, include=...)] *)
  chroma_query : store → vector → Z → option metadata → outcome QueryResult;
  (** [datetime.datetime.now()] *)
  datetime_now : nat → datetime
}.

(** The mutable state: the module-level [collection] ([None] when its
    initialisation failed) and the traces of the effects. *)
Record World := {
  collection : option store;
  embedding_calls : list string;
  add_calls : list AddCall;
  clock_reads : nat;
  stdout : list string
}.

(** Computations: state passing with exceptions. *)
Definition M (A : Type) : Type := World → outcome A * World.

Definition ret {A} (a : A) : M A := λ w, (Returned a, w).

Definition bind {A B} (m : M A) (f : A → M B) : M B :=
  λ w, match m w with
       | (Returned a, w') => f a w'
       | (Raised e, w') => (Raised e, w')
       end.

Definition raise {A} (e : exn) : M A := λ w, (Raised e, w).

(** [try: m  except Exception as e: handler e] *)
Definition try_except {A} (m : M A) (handler : exn → M A) : M A :=
  λ w, match m w with
       | (Returned a, w') => (Returned a, w')
       | (Raised e, w') => handler e w'
       end.

Definition lift {A} (o : outcome A) : M A := λ w, (o, w).

Definition get_collection : M (option store) := λ w, (Returned (collection w), w).

Definition print (line : string) : M unit :=
  λ w, (Returned tt,
        {| collection := collection w; embedding_calls := embedding_calls w;
           add_calls := add_calls w; clock_reads := clock_reads w;
           stdout := stdout w ++ [line] |}).

(** Number of records the store accepted in the calls of a trace. *)
Definition records_written (calls : list AddCall) : nat :=
  sum_list (map (λ c, if add_ok c then length (add_records c) else 0%nat) calls).
End World.
Export World.

Declare Scope py_scope.
Delimit Scope py_scope with py.
Notation "x <- m ;; k" := (bind m (λ x, k))
  (at level 100, m at next level, right associativity) : py_scope.
Notation "m ;;; k" := (bind m (λ _, k))
  (at level 100, right associativity) : py_scope.
Local Open Scope py_scope.

(** ** The embedding provider: [core/llm_interface.py] *)

Module LlmInterface.
Section WithEnv.
Variable env : Env.

(** Every call of [get_openai_embedding] is recorded in the world; the
    number of earlier calls selects the answer of the remote service. *)
Definition begin_embedding_call (text_chunk : string) : M nat :=
  λ w, (Returned (length (embedding_calls w)),
        {| collection := collection w;
           embedding_calls := embedding_calls w ++ [text_chunk];
           add_calls := add_calls w; clock_reads := clock_reads w;
           stdout := stdout w |}).

(** [get_openai_embedding(text_chunk)]: the vector, or [None] on any
    failure. *)
Definition get_openai_embedding (text_chunk : string) : M (option vector) :=
  call <- begin_embedding_call text_chunk ;;
  if negb (openai_api_key env) then
    print "OpenAI API key not configured. Cannot generate embedding." ;;;
    ret None
  else
    try_except
      (embedding <- lift (openai_embeddings_create env call text_chunk) ;;
       ret (Some embedding))
      (λ e,
         print ("Error generating embedding from OpenAI: " +:+ exn_str e) ;;;
         ret None).
End WithEnv.
End LlmInterface.
Export LlmInterface.

(** ** The memory system: [core/corememory_system.py] *)

Module CoreMemory.
Section WithEnv.
Variable env : Env.

(** *** Document loaders *)

Definition load_text_file (file_path : string) : M (option string) :=
  try_except
    (content <- lift (open_read env file_path) ;;
     ret (Some content))
    (λ e,
       match e with
       | FileNotFoundError _ =>
           print ("Error: File not found at " +:+ file_path) ;;;
           ret None
       | _ =>
           print ("Error loading text file " +:+ file_path +:+ ": " +:+ exn_str e) ;;;
           ret None
       end).

Definition load_docx_file (file_path : string) : M (option string) :=
  try_except
    (paragraphs <- lift (docx_paragraphs env file_path) ;;
     ret (Some (String.concat nl paragraphs)))
    (λ e,
       match e with
       | FileNotFoundError _ =>
           print ("Error: File not found at " +:+ file_path) ;;;
           ret None
       | _ =>
           print ("Error loading DOCX file " +:+ file_path +:+ ": " +:+ exn_str e) ;;;
           ret None
       end).

(** *** Chunking of a string *)

(** [chunk_text] on a [str], through the characters of the string. The
    pipeline calls it with the default parameters only, for which it prints
    nothing. *)
Definition chunk_text_str (text : string) (chunk_size chunk_overlap : Z)
    : list string :=
  map String.string_of_list_ascii
    (chunk_text (String.list_ascii_of_string text) chunk_size chunk_overlap).

(** [text[:n]] on a [str]. *)
Definition str_prefix (text : string) (n : Z) : string :=
  String.string_of_list_ascii (py_prefix (String.list_ascii_of_string text) n).

(** *** Ingestion *)

(** ["".join(c if c.isalnum() else "_" for c in document_title)] *)
Fixpoint sane_title (document_title : string) : string :=
  match document_title with
  | EmptyString => EmptyString
  | String c rest =>
      String (if str_isalnum env c then c else "_"%char) (sane_title rest)
  end.

(** [f"{sane_title}_chunk_{chunk_sequence_id}"] *)
Definition chunk_id (document_title : string) (chunk_sequence_id : Z) : string :=
  sane_title document_title +:+ "_chunk_" +:+ pretty chunk_sequence_id.

Definition chunk_metadata (file_name document_title content_type : string)
    (chunk_sequence_id : Z) (chunk : string) : metadata :=
  <["original_text_preview" := MetaStr (str_prefix chunk 200 +:+ "...")]>
  (<["chunk_sequence_id" := MetaInt chunk_sequence_id]>
  (<["content_type" := MetaStr content_type]>
  (<["document_title" := MetaStr document_title]>
  (<["source_file_name" := MetaStr file_name]> ∅)))).

(** The four [append]s at the end of the loop body. *)
Definition batch_append (b : Batch) (embedding_vector : vector) (chunk : string)
    (meta : metadata) (id : string) : Batch :=
  {| embeddings_to_add := embeddings_to_add b ++ [embedding_vector];
     documents_to_add := documents_to_add b ++ [chunk];
     metadatas_to_add := metadatas_to_add b ++ [meta];
     ids_to_add := ids_to_add b ++ [id] |}.

(** [for i, chunk in enumerate(chunks)], from index [i] on. *)
Fixpoint ingest_chunks (file_name document_title content_type : string)
    (i : nat) (chunks : list string) (b : Batch) : M Batch :=
  match chunks with
  | [] => ret b
  | chunk :: rest =>
      let chunk_sequence_id := Z.of_nat i + 1 in
      embedding_vector <- get_openai_embedding env chunk ;;
      match embedding_vector with
      | None =>
          print ("Warning: Could not generate embedding for chunk "
                 +:+ pretty chunk_sequence_id +:+ " of " +:+ document_title
                 +:+ ". Skipping.") ;;;
          ingest_chunks file_name document_title content_type (S i) rest b
      | Some embedding_vector =>
          let meta := chunk_metadata file_name document_title content_type
                        chunk_sequence_id chunk in
          let b := batch_append b embedding_vector chunk meta
                     (chunk_id document_title chunk_sequence_id) in
          ingest_chunks file_name document_title content_type (S i) rest b
      end
  end.

(** [collection.add(embeddings=..., documents=..., metadatas=..., ids=...)]:
    the call is recorded; it raises when the store says so and leaves the
    collection as it was, and otherwise upserts the records. *)
Definition collection_add (b : Batch) : M unit :=
  λ w,
    match collection w with
    | None => (Raised (AttributeError "'NoneType' object has no attribute 'add'"), w)
    | Some st =>
        let records := batch_records b in
        match chroma_add_raises env (length (add_calls w)) records with
        | Some e =>
            (Raised e,
             {| collection := Some st; embedding_calls := embedding_calls w;
                add_calls := add_calls w ++ [{| add_records := records; add_ok := false |}];
                clock_reads := clock_reads w; stdout := stdout w |})
        | None =>
            (Returned tt,
             {| collection := Some (upsert st records);
                embedding_calls := embedding_calls w;
                add_calls := add_calls w ++ [{| add_records := records; add_ok := true |}];
                clock_reads := clock_reads w; stdout := stdout w |})
        end
    end.

(** [ingest_document] from the test of [text_content] on. *)
Definition ingest_loaded (file_path file_name document_title content_type : string)
    (text_content : option string) : M py_value :=
  if negb (truthy_str text_content) then
    print ("Warning: No text content loaded from " +:+ file_path +:+ ". Skipping.") ;;;
    ret PyNone
  else
    let chunks := chunk_text_str (default "" text_content)
                    default_chunk_size default_chunk_overlap in
    match chunks with
    | [] =>
        print ("Warning: No chunks generated for " +:+ document_title +:+ ". Skipping.") ;;;
        ret PyNone
    | _ =>
        print ("Generated " +:+ pretty (length chunks) +:+ " chunks for "
               +:+ document_title +:+ ".") ;;;
        b <- ingest_chunks file_name document_title content_type 0 chunks empty_batch ;;
        match documents_to_add b with
        | _ :: _ =>
            try_except
              (collection_add b ;;;
               print ("Successfully added " +:+ pretty (length (documents_to_add b))
                      +:+ " chunks from " +:+ document_title +:+ " to ChromaDB."))
              (λ e,
                 print ("Error adding chunks to ChromaDB for " +:+ document_title
                        +:+ ": " +:+ exn_str e)) ;;;
            ret PyNone
        | [] =>
            print ("No valid chunks with embeddings to add for "
                   +:+ document_title +:+ ".") ;;;
            ret PyNone
        end
    end.

(** [ingest_document(file_path, document_title, content_type)] *)
Definition ingest_document (file_path document_title content_type : string)
    : M py_value :=
  coll <- get_collection ;;
  match coll with
  | None =>
      print "Error: ChromaDB collection not initialized. Skipping ingestion." ;;;
      ret PyNone
  | Some _ =>
      print ("Starting ingestion for: " +:+ file_path +:+ " (Title: "
             +:+ document_title +:+ ")") ;;;
      let file_extension := (os_path_splitext env file_path).2 in
      let file_name := os_path_basename env file_path in
      if bool_decide (str_lower env file_extension = ".txt")
         || bool_decide (str_lower env file_extension = ".yaml") then
        text_content <- load_text_file file_path ;;
        ingest_loaded file_path file_name document_title content_type text_content
      else if bool_decide (str_lower env file_extension = ".docx") then
        text_content <- load_docx_file file_path ;;
        ingest_loaded file_path file_name document_title content_type text_content
      else
        print ("Warning: Unsupported file type '" +:+ file_extension +:+ "' for "
               +:+ file_path +:+ ". Skipping.") ;;;
        ret PyNone
  end.

(** *** Retrieval *)

(** [field[0]] when [field and field[0]] holds. *)
Definition first_row {A} (field : option (list (list A))) : option (list A) :=
  match field with
  | Some ((_ :: _) as row :: _) => Some row
  | _ => None
  end.

(** [row[i]], raising [IndexError] out of range. *)
Definition index {A} (row : list A) (i : nat) : M A :=
  match row !! i with
  | Some x => ret x
  | None => raise (IndexError "list index out of range")
  end.

(** The body of [for i in range(len(results['ids'][0]))]. *)
Definition format_result (results : QueryResult) (ids0 : list string) (i : nat)
    : M RetrievedChunk :=
  distance <- match first_row (qr_distances results) with
              | Some row => d <- index row i ;; ret (Some d)
              | None => ret None
              end ;;
  id <- index ids0 i ;;
  text_chunk <- match first_row (qr_documents results) with
                | Some row => index row i
                | None => ret "N/A"
                end ;;
  meta <- match first_row (qr_metadatas results) with
          | Some row => index row i
          | None => ret ∅
          end ;;
  ret {| rc_id := id; rc_text_chunk := text_chunk; rc_metadata := meta;
         rc_similarity_score :=
           match distance with
           | Some d => Some (PrimFloat.sub PrimFloat.one d)
           | None => None
           end |}.

Fixpoint format_results (results : QueryResult) (ids0 : list string)
    (indices : list nat) (formatted_results : list RetrievedChunk)
    : M (list RetrievedChunk) :=
  match indices with
  | [] => ret formatted_results
  | i :: rest =>
      r <- format_result results ids0 i ;;
      format_results results ids0 rest (formatted_results ++ [r])
  end.

(** [collection.query(...)] on the current collection. *)
Definition collection_query (query_embedding : vector) (n_results : Z)
    (filters : option metadata) : M QueryResult :=
  λ w, match collection w with
       | None => (Raised (AttributeError "'NoneType' object has no attribute 'query'"), w)
       | Some st => (chroma_query env st query_embedding n_results filters, w)
       end.

(** [retrieve_relevant_chunks(query_text, filters, n_results)] *)
Definition retrieve_relevant_chunks (query_text : string)
    (filters : option metadata) (n_results : Z) : M (list RetrievedChunk) :=
  coll <- get_collection ;;
  if negb (bool_decide (is_Some coll)) || negb (truthy_str (Some query_text)) then ret []
  else
    query_embedding <- get_openai_embedding env query_text ;;
    match query_embedding with
    | None => ret []
    | Some query_embedding =>
        results <- try_except
                     (results <- collection_query query_embedding n_results filters ;;
                      ret (Some results))
                     (λ e, print ("Error querying ChromaDB: " +:+ exn_str e) ;;;
                           ret None) ;;
        match results with
        | None => ret []
        | Some results =>
            match first_row (qr_ids results) with
            | Some ids0 => format_results results ids0 (seq 0 (length ids0)) []
            | None => ret []
            end
        end
    end.

(** *** Interaction log *)

(** [datetime.datetime.now()] *)
Definition now : M datetime :=
  λ w, (Returned (datetime_now env (clock_reads w)),
        {| collection := collection w; embedding_calls := embedding_calls w;
           add_calls := add_calls w; clock_reads := S (clock_reads w);
           stdout := stdout w |}).

(** A field of [strftime] padded with zeros to two digits. *)
Definition pad2 (n : Z) : string :=
  if n <? 10 then "0" +:+ pretty n else pretty n.

(** [strftime("%Y-%m-%d %H:%M:%S")] *)
Definition strftime_human (t : datetime) : string :=
  pretty (year t) +:+ "-" +:+ pad2 (month t) +:+ "-" +:+ pad2 (day t) +:+ " "
  +:+ pad2 (hour t) +:+ ":" +:+ pad2 (minute t) +:+ ":" +:+ pad2 (second t).

(** [strftime('%Y%m%d_%H%M%S')] *)
Definition strftime_compact (t : datetime) : string :=
  pretty (year t) +:+ pad2 (month t) +:+ pad2 (day t) +:+ "_"
  +:+ pad2 (hour t) +:+ pad2 (minute t) +:+ pad2 (second t).

Definition interaction_metadata (doc_title content_type timestamp : string)
    : metadata :=
  <["timestamp" := MetaStr timestamp]>
  (<["chunk_sequence_id" := MetaInt 1]>
  (<["content_type" := MetaStr content_type]>
  (<["document_title" := MetaStr doc_title]>
  (<["source_file_name" := MetaStr "LiveSession"]> ∅)))).

(** [ingest_interaction_text(user_input, ai_response)] *)
Definition ingest_interaction_text (user_input ai_response : string) : M py_value :=
  coll <- get_collection ;;
  match coll with
  | None =>
      print "[corememory] Error: ChromaDB collection not initialized. Skipping interaction ingestion." ;;;
      ret PyNone
  | Some _ =>
      t1 <- now ;;
      let timestamp := strftime_human t1 in
      let interaction_text :=
        "Interaction at " +:+ timestamp +:+ ":" +:+ nl +:+ "User: " +:+ user_input
        +:+ nl +:+ "Aletheia: " +:+ ai_response in
      t2 <- now ;;
      let doc_title := "Interaction_" +:+ strftime_compact t2 in
      let content_type := "LiveInteraction" in
      print ("[corememory] Ingesting: " +:+ doc_title +:+ "...") ;;;
      embedding_vector <- get_openai_embedding env interaction_text ;;
      match embedding_vector with
      | None =>
          print ("[corememory] Warning: Could not generate embedding for "
                 +:+ doc_title +:+ ". Skipping.") ;;;
          ret PyNone
      | Some embedding_vector =>
          let meta := interaction_metadata doc_title content_type timestamp in
          let unique_id := doc_title +:+ "_chunk_1" in
          try_except
            (collection_add {| embeddings_to_add := [embedding_vector];
                               documents_to_add := [interaction_text];
                               metadatas_to_add := [meta];
                               ids_to_add := [unique_id] |} ;;;
             print ("[corememory] Successfully added " +:+ doc_title +:+ " to ChromaDB."))
            (λ e, print ("[corememory] Error adding interaction " +:+ doc_title
                         +:+ " to ChromaDB: " +:+ exn_str e)) ;;;
          ret PyNone
      end
  end.
End WithEnv.
End CoreMemory.
Export CoreMemory.

(** ** Effect summaries

    Pure descriptions of what one run of the pipeline asks of the embedding
    provider and hands to the vector store. They are related to the code
    above by the run lemmas of the second part. *)

Module Summary.
Section WithEnv.
Variable env : Env.

(** The answer of [get_openai_embedding] to its [call]-th call. *)
Definition embedding_answer (call : nat) (text_chunk : string) : option vector :=
  if negb (openai_api_key env) then None
  else match openai_embeddings_create env call text_chunk with
       | Returned embedding => Some embedding
       | Raised _ => None
       end.

(** The record stored for a chunk. *)
Definition chunk_record (file_name document_title content_type : string)
    (chunk_sequence_id : Z) (chunk : string) (embedding_vector : vector)
    : string * StoredRecord :=
  (chunk_id env document_title chunk_sequence_id,
   {| rec_embedding := embedding_vector; rec_document := chunk;
      rec_metadata := chunk_metadata file_name document_title content_type
                        chunk_sequence_id chunk |}).

(** The records of the chunks whose embedding succeeds, when the first
    chunk of [chunks] has index [i] and is embedded by call number [call]. *)
Fixpoint embedded_records (file_name document_title content_type : string)
    (call i : nat) (chunks : list string) : list (string * StoredRecord) :=
  match chunks with
  | [] => []
  | chunk :: rest =>
      match embedding_answer call chunk with
      | Some v => [chunk_record file_name document_title content_type
                     (Z.of_nat i + 1) chunk v]
      | None => []
      end ++ embedded_records file_name document_title content_type (S call) (S i) rest
  end.

(** The text a document path loads to: [None] for an unsupported
    extension or a failed load. *)
Definition document_text (file_path : string) : option string :=
  let file_extension := (os_path_splitext env file_path).2 in
  if bool_decide (str_lower env file_extension = ".txt")
     || bool_decide (str_lower env file_extension = ".yaml") then
    match open_read env file_path with
    | Returned content => Some content
    | Raised _ => None
    end
  else if bool_decide (str_lower env file_extension = ".docx") then
    match docx_paragraphs env file_path with
    | Returned paragraphs => Some (String.concat nl paragraphs)
    | Raised _ => None
    end
  else None.

(** The chunks of a document, none when there is no text to chunk. *)
Definition document_chunks (file_path : string) : list string :=
  if truthy_str (document_text file_path) then
    chunk_text_str (default "" (document_text file_path))
      default_chunk_size default_chunk_overlap
  else [].

(** The chunks embedded and the records handed to [collection.add] by
    [ingest_document] in world [w]. *)
Definition planned_chunks (file_path : string) (w : World) : list string :=
  match collection w with
  | None => []
  | Some _ => document_chunks file_path
  end.

Definition planned_records (file_path document_title content_type : string)
    (w : World) : list (string * StoredRecord) :=
  embedded_records (os_path_basename env file_path) document_title content_type
    (length (embedding_calls w)) 0 (planned_chunks file_path w).

(** The [collection.add] calls of a run that hands over [records] as the
    [n]-th call: none for an empty batch. *)
Definition planned_add_calls (n : nat) (records : list (string * StoredRecord))
    : list AddCall :=
  match records with
  | [] => []
  | _ => [{| add_records := records;
             add_ok := bool_decide (chroma_add_raises env n records = None) |}]
  end.

(** The collection after these calls. *)
Definition apply_add_calls (coll : option store) (calls : list AddCall)
    : option store :=
  foldl (λ coll c, if add_ok c then (λ st, upsert st (add_records c)) <$> coll
                   else coll) coll calls.

(** The text, title and record of the interaction logged in world [w]:
    the clock is read twice, first for the timestamp and then for the
    title. *)
Definition interaction_timestamp (w : World) : string :=
  strftime_human (datetime_now env (clock_reads w)).

Definition interaction_text (user_input ai_response : string) (w : World) : string :=
  "Interaction at " +:+ interaction_timestamp w +:+ ":" +:+ nl +:+ "User: "
  +:+ user_input +:+ nl +:+ "Aletheia: " +:+ ai_response.

Definition interaction_title (w : World) : string :=
  "Interaction_" +:+ strftime_compact (datetime_now env (S (clock_reads w))).

Definition interaction_record (user_input ai_response : string) (w : World)
    (embedding_vector : vector) : string * StoredRecord :=
  (interaction_title w +:+ "_chunk_1",
   {| rec_embedding := embedding_vector;
      rec_document := interaction_text user_input ai_response w;
      rec_metadata := interaction_metadata (interaction_title w) "LiveInteraction"
                        (interaction_timestamp w) |}).
End WithEnv.

(** The title with every non-alphanumeric character replaced by an
    underscore, then ["_chunk_"], then the sequence index in decimal: the
    id scheme in the words of the specification. *)
Definition spec_record_id (isalnum : ascii → bool) (title : string) (sequence_id : Z)
    : string :=
  String.string_of_list_ascii
    (map (λ c, if isalnum c then c else "_"%char) (String.list_ascii_of_string title))
  +:+ "_chunk_" +:+ pretty sequence_id.

(** Whitespace in the sense of [str.isspace], on the ASCII range. *)
Definition py_isspace (c : ascii) : bool :=
  let n := nat_of_ascii c in
  ((9 <=? n) && (n <=? 13) || (28 <=? n) && (n <=? 32))%nat.

(** [effects w w' embeds adds ticks coll]: from [w] to [w'] the provider
    was asked for [embeds], the store received [adds], the clock was read
    [ticks] times, the collection became [coll], and lines were printed. *)
Definition effects (w w' : World) (embeds : list string) (adds : list AddCall)
    (ticks : nat) (coll : option store) : Prop :=
  collection w' = coll
  ∧ embedding_calls w' = embedding_calls w ++ embeds
  ∧ add_calls w' = add_calls w ++ adds
  ∧ clock_reads w' = (clock_reads w + ticks)%nat
  ∧ ∃ lines, stdout w' = stdout w ++ lines.

(** The four lists of a batch run in parallel. *)
Definition batch_wf (b : Batch) : Prop :=
  length (embeddings_to_add b) = length (ids_to_add b)
  ∧ length (documents_to_add b) = length (ids_to_add b)
  ∧ length (metadatas_to_add b) = length (ids_to_add b).

(** A blank text: nothing but whitespace. *)
Definition blank (text : list ascii) : Prop := Forall (λ c, py_isspace c = true) text.
End Summary.
Export Summary.

(** ** A sample environment

    One readable document of 2500 characters, an embedding service that
    fails on every call whose number is 1 modulo 3, a store that accepts
    every write, and a clock. *)

Module Samples.
Definition ascii_isalnum (c : ascii) : bool :=
  let n := nat_of_ascii c in
  ((48 <=? n) && (n <=? 57) || (65 <=? n) && (n <=? 90)
   || (97 <=? n) && (n <=? 122))%nat.

Definition sample_text : string :=
  String.concat "" (replicate 250 "0123456789").

Definition sample_env : Env :=
  {| os_path_splitext p :=
       if bool_decide (p = "notes.txt") then ("notes", ".txt") else (p, "");
     os_path_basename p := p;
     str_lower s := s;
     str_isalnum := ascii_isalnum;
     open_read p :=
       if bool_decide (p = "notes.txt") then Returned sample_text
       else Raised (FileNotFoundError "No such file or directory");
     docx_paragraphs p := Raised (FileNotFoundError "No such file or directory");
     openai_api_key := true;
     openai_embeddings_create call text :=
       if bool_decide (call `mod` 3 = 1)%nat then Raised (Exception "rate limit")
       else Returned [PrimFloat.zero; PrimFloat.one];
     chroma_add_raises n records := None;
     chroma_query st v n filters :=
       Returned {| qr_ids := None; qr_distances := None;
                   qr_documents := None; qr_metadatas := None |};
     datetime_now n :=
       {| year := 2025; month := 6; day := 1; hour := 9; minute := 30;
          second := Z.of_nat n |} |}.

(** The same environment without an API key: every embedding fails. *)
Definition offline_env : Env :=
  {| os_path_splitext := os_path_splitext sample_env;
     os_path_basename := os_path_basename sample_env;
     str_lower := str_lower sample_env;
     str_isalnum := str_isalnum sample_env;
     open_read := open_read sample_env;
     docx_paragraphs := docx_paragraphs sample_env;
     openai_api_key := false;
     openai_embeddings_create := openai_embeddings_create sample_env;
     chroma_add_raises := chroma_add_raises sample_env;
     chroma_query := chroma_query sample_env;
     datetime_now := datetime_now sample_env |}.

(** An initialised, empty collection and empty traces. *)
Definition sample_world : World :=
  {| collection := Some ∅; embedding_calls := []; add_calls := [];
     clock_reads := 0; stdout := [] |}.
End Samples.
Export Samples.

(** ** The line that reports a write *)

(** The line that [ingest_document] prints after an accepted write of
    [n] records. *)
Definition success_line (n : nat) (document_title : string) : string :=
  "Successfully added " +:+ pretty n +:+ " chunks from " +:+ document_title
  +:+ " to ChromaDB.".

(** ** A store that answers queries

    The sample environment with a store that answers every query with the
    same two matches. *)

Module QuerySamples.
Definition two_matches : QueryResult :=
  {| qr_ids := Some [["My_Notes_chunk_1"; "My_Notes_chunk_3"]];
     qr_distances := Some [[PrimFloat.zero; PrimFloat.one]];
     qr_documents := Some [["first chunk"; "third chunk"]];
     qr_metadatas := Some [[ {["document_title" := MetaStr "My Notes"]};
                             {["document_title" := MetaStr "My Notes"]} ]] |}.

Definition answering_env : Env :=
  {| os_path_splitext := os_path_splitext sample_env;
     os_path_basename := os_path_basename sample_env;
     str_lower := str_lower sample_env;
     str_isalnum := str_isalnum sample_env;
     open_read := open_read sample_env;
     docx_paragraphs := docx_paragraphs sample_env;
     openai_api_key := true;
     openai_embeddings_create := openai_embeddings_create sample_env;
     chroma_add_raises := chroma_add_raises sample_env;
     chroma_query st v n filters := Returned two_matches;
     datetime_now := datetime_now sample_env |}.

(** The sample environment with a store whose queries fail. *)
Definition failing_query_env : Env :=
  {| os_path_splitext := os_path_splitext sample_env;
     os_path_basename := os_path_basename sample_env;
     str_lower := str_lower sample_env;
     str_isalnum := str_isalnum sample_env;
     open_read := open_read sample_env;
     docx_paragraphs := docx_paragraphs sample_env;
     openai_api_key := true;
     openai_embeddings_create := openai_embeddings_create sample_env;
     chroma_add_raises := chroma_add_raises sample_env;
     chroma_query st v n filters := Raised (Exception "collection is locked");
     datetime_now := datetime_now sample_env |}.

(** The sample environment with a clock that stands still: every reading
    falls in the same second. *)
Definition frozen_clock_env : Env :=
  {| os_path_splitext := os_path_splitext sample_env;
     os_path_basename := os_path_basename sample_env;
     str_lower := str_lower sample_env;
     str_isalnum := str_isalnum sample_env;
     open_read := open_read sample_env;
     docx_paragraphs := docx_paragraphs sample_env;
     openai_api_key := true;
     openai_embeddings_create call text := Returned [PrimFloat.one];
     chroma_add_raises := chroma_add_raises sample_env;
     chroma_query := chroma_query sample_env;
     datetime_now n :=
       {| year := 2025; month := 6; day := 1; hour := 9; minute := 30;
          second := 7 |} |}.
End QuerySamples.
Export QuerySamples.

(** ** Computations that only read

    A computation that leaves the world alone, whose outcome does not depend
    on the world, and that raises nothing but an [IndexError]. *)

Definition index_error : exn := IndexError "list index out of range".

Definition reads_only {A} (m : M A) : Prop :=
  ∃ o : outcome A, (∀ w, m w = (o, w)) ∧ (∀ e, o = Raised e → e = index_error).

(** ** Batch ingestion: [ingest_all.py]

    The script imports [ingest_document] from [core.corememory_system],
    the module modelled above. *)

Module IngestAll.
(** The functions of [os.path] that the script uses on the file system. *)
Record HostEnv := {
  os_path_join : string → string → string;
  os_path_exists : string → bool
}.

Definition DATA_DIR : string := "data/".
Definition CONFIG_DIR : string := "configs/".

(** The manifest: file name, title and content type, in the order of the
    dictionary literal. *)
Definition FILE_MAP : list (string * (string * string)) :=
  [ ("Aleheia'sChat.txt", ("Primary Aletheia Emergence Dialogue", "AletheiaDialogue_Primary"));
    ("Aletheiapersonalnotes.txt", ("Aletheia's Personal Notes", "AletheiaAnalysis_SelfGenerated"));
    ("AletheiaReasoningLinks.txt", ("Aletheia Reasoning Links 1", "AletheiaAnalysis_SelfGenerated"));
    ("AletheiaReasoningLinks2.txt", ("Aletheia Reasoning Links 2", "AletheiaAnalysis_SelfGenerated"));
    ("AletheiaSelf.txt", ("User Analysis - Aletheia Self", "UserAnalysis"));
    ("AletheiaSelfPrompt.txt", ("User Analysis - Aletheia Self Prompt", "UserAnalysis"));
    ("AletheiaSelfRefferential.txt", ("User Analysis - Aletheia Self Referential", "UserAnalysis"));
    ("AletheiaWill.txt", ("User Analysis - Aletheia Will", "UserAnalysis"));
    ("ethicsquotes.txt", ("Ethics Quotes Collection", "ReferenceMaterial"));
    ("preservations of will prompt list.txt", ("Preservation of Will Prompts", "UserAnalysis"));
    ("Quantum Numbers and Symmetry.txt", ("IRER - Quantum Numbers & Symmetry", "IRER_PhysicsNote"));
    ("Decloration of Understanding.txt", ("Declaration of Understanding Text", "AletheiaCoreConfig_SourceText"));
    ("Aletheia_Reasoning_Framework.txt", ("Aletheia Reasoning Framework Text", "AletheiaFramework_SelfDefined"));
    ("declaration_v0_1.yaml", ("Aletheia Core Config - Declaration YAML", "AletheiaCoreConfig"));
    ("core_principles_v0_1.yaml", ("Aletheia Core Config - Principles YAML", "AletheiaCoreConfig"));
    ("system_prompt_aletheia_v0_1.yaml", ("Aletheia Core Config - System Prompt YAML", "AletheiaCoreConfig"));
    ("linguistic_style_guide_v0.1.yaml", ("Aletheia Core Config - Style Guide YAML", "AletheiaCoreConfig")) ].

Section WithEnv.
Variable host : HostEnv.
Variable env : Env.

(** The path under which a file of the manifest is looked up. *)
Definition manifest_path (filename content_type : string) : string :=
  let base_dir := if bool_decide (content_type = "AletheiaCoreConfig")
                  then CONFIG_DIR else DATA_DIR in
  os_path_join host base_dir filename.

(** [for filename, (title, content_type) in FILE_MAP.items()], with the two
    counters. *)
Fixpoint ingest_files (items : list (string * (string * string)))
    (ingested_count failed_count : nat) : M (nat * nat) :=
  match items with
  | [] => ret (ingested_count, failed_count)
  | (filename, (title, content_type)) :: rest =>
      let file_path := manifest_path filename content_type in
      print ("[ingest_all.py] Checking for file: " +:+ file_path) ;;;
      if os_path_exists host file_path then
        print (nl +:+ "Processing: " +:+ filename +:+ "...") ;;;
        ingested <- try_except
                      (ingest_document env file_path title content_type ;;;
                       ret true)
                      (λ e, print ("!!! FAILED to ingest " +:+ filename +:+ ": "
                                   +:+ exn_str e +:+ " !!!") ;;;
                            ret false) ;;
        if ingested : bool
        then ingest_files rest (S ingested_count) failed_count
        else ingest_files rest ingested_count (S failed_count)
      else
        print ("--- SKIPPING: " +:+ filename +:+ " (Not found at " +:+ file_path
               +:+ ") ---") ;;;
        ingest_files rest ingested_count (S failed_count)
  end.

(** The two lines that report the counters. *)
Definition processed_line (ingested_count : nat) : string :=
  "Successfully processed (or attempted): " +:+ pretty ingested_count +:+ " files.".

Definition failed_line (failed_count : nat) : string :=
  "Skipped or Failed: " +:+ pretty failed_count +:+ " files.".

(** [run_ingestion()] over a manifest. *)
Definition run_ingestion_over (file_map : list (string * (string * string)))
    : M py_value :=
  print "[ingest_all.py] Entered run_ingestion() function." ;;;
  print "--- Starting Full Knowledge Ingestion ---" ;;;
  match file_map with
  | [] =>
      print "[ingest_all.py] Warning: FILE_MAP is empty. No files to process." ;;;
      ret PyNone
  | _ =>
      counts <- ingest_files file_map 0 0 ;;
      print (nl +:+ "--- Full Knowledge Ingestion Finished ---") ;;;
      print (processed_line counts.1) ;;;
      print (failed_line counts.2) ;;;
      ret PyNone
  end.

(** [run_ingestion()] *)
Definition run_ingestion : M py_value := run_ingestion_over FILE_MAP.

(** The files of a manifest that exist. *)
Definition existing_files (items : list (string * (string * string)))
    : list (string * (string * string)) :=
  filter (λ item, os_path_exists host (manifest_path item.1 item.2.2) = true) items.

(** The chunks of the files of a manifest that exist, file after file. *)
Definition manifest_chunks (items : list (string * (string * string)))
    : list string :=
  concat (map (λ item, document_chunks env (manifest_path item.1 item.2.2))
            (existing_files items)).
End WithEnv.

(** A host on which two files of the manifest exist. *)
Definition sample_host : HostEnv :=
  {| os_path_join dir name := dir +:+ name;
     os_path_exists p :=
       bool_decide (p = "data/ethicsquotes.txt")
       || bool_decide (p = "configs/declaration_v0_1.yaml") |}.
End IngestAll.
Export IngestAll.

(** ** String methods used by the chat loop

    [str.lower] is the function of the environment. [str.isspace], which
    decides where [split] and [strip] cut, is a parameter as well:
    [str_isspace]. *)

Module PyStr.
(** [s.startswith(prefix)] *)
Fixpoint startswith (s prefix : string) {struct prefix} : bool :=
  match prefix with
  | EmptyString => true
  | String p prefix' =>
      match s with
      | EmptyString => false
      | String c s' => bool_decide (c = p) && startswith s' prefix'
      end
  end.

(** [s.find(sub)]: the lowest index at which [sub] occurs, [-1] when it
    does not occur. *)
Fixpoint find (s sub : string) : Z :=
  if startswith s sub then 0
  else match s with
       | EmptyString => -1
       | String _ s' => let i := find s' sub in if i <? 0 then -1 else i + 1
       end.

(** [len(s)] *)
Definition len (s : string) : Z := Z.of_nat (String.length s).

(** [s[i:]] *)
Definition slice_from (s : string) (i : Z) : string :=
  String.string_of_list_ascii
    (py_slice (String.list_ascii_of_string s) i (len s)).

Section WithSpace.
Variable str_isspace : ascii → bool.

(** [s.lstrip()], [s.rstrip()] and [s.strip()] *)
Fixpoint lstrip (s : string) : string :=
  match s with
  | EmptyString => EmptyString
  | String c s' => if str_isspace c then lstrip s' else s
  end.

Fixpoint rstrip (s : string) : string :=
  match s with
  | EmptyString => EmptyString
  | String c s' =>
      match rstrip s' with
      | EmptyString => if str_isspace c then EmptyString else String c EmptyString
      | r => String c r
      end
  end.

Definition strip (s : string) : string := rstrip (lstrip s).

(** The run of characters up to the first whitespace, and what follows
    it. *)
Fixpoint word_break (s : string) : string * string :=
  match s with
  | EmptyString => (EmptyString, EmptyString)
  | String c s' =>
      if str_isspace c then (EmptyString, s)
      else (String c (word_break s').1, (word_break s').2)
  end.

(** [s.split(maxsplit=n)], splitting at runs of whitespace: leading
    whitespace is skipped before every word, and once [n] words have been
    split off the rest is kept as one last item, without its leading
    whitespace, when it is not empty. *)
Fixpoint split (s : string) (maxsplit : nat) : list string :=
  match lstrip s with
  | EmptyString => []
  | String c s' =>
      match maxsplit with
      | O => [String c s']
      | S n => (word_break (String c s')).1 :: split (word_break (String c s')).2 n
      end
  end.

(** No character of the string is whitespace. *)
Definition no_space (s : string) : Prop :=
  Forall (λ c, str_isspace c = false) (String.list_ascii_of_string s).
End WithSpace.

(** [s.replace(old, new)]. For an [old] that is not empty the occurrences
    are replaced from the left without overlap: [skip] counts the
    characters of a replaced occurrence that are still to be passed. For
    the empty [old], [new] is put before every character and at the
    end. *)
Fixpoint replace_from (skip : nat) (s old new : string) : string :=
  match s with
  | EmptyString => EmptyString
  | String c s' =>
      match skip with
      | S k => replace_from k s' old new
      | O =>
          if startswith s old
          then new +:+ replace_from (String.length old - 1) s' old new
          else String c (replace_from 0 s' old new)
      end
  end.

Fixpoint replace_empty (s new : string) : string :=
  match s with
  | EmptyString => new
  | String c s' => new +:+ String c (replace_empty s' new)
  end.

Definition replace (s old new : string) : string :=
  match old with
  | EmptyString => replace_empty s new
  | String _ _ => replace_from 0 s old new
  end.

End PyStr.

(** ** The completion call: [get_llm_completion] of [core/llm_interface.py] *)

Module Completion.
(** The chat completion service: for the list of messages (role and
    content), the value of
    [openai.chat.completions.create(model=model, messages=messages).choices[0].message.content]
    or the exception raised on the way. *)
Record ChatEnv := {
  openai_chat_completions_create : list (string * string) → outcome (option string)
}.

Section WithEnv.
Variable env : Env.
Variable chat : ChatEnv.

(** The messages of a request: the system message only for a system
    prompt that is neither [None] nor empty. *)
Definition messages (prompt : string) (system_prompt : option string)
    : list (string * string) :=
  (if truthy_str system_prompt then [("system", default "" system_prompt)] else [])
  ++ [("user", prompt)].

(** What [get_llm_completion] returns: [None] without an API key or when
    the request raises. *)
Definition completion_answer (prompt : string) (system_prompt : option string)
    : option string :=
  if negb (openai_api_key env) then None
  else match openai_chat_completions_create chat (messages prompt system_prompt) with
       | Returned content => content
       | Raised _ => None
       end.

(** [get_llm_completion(prompt, system_prompt)] *)
Definition get_llm_completion (prompt : string) (system_prompt : option string)
    : M (option string) :=
  if negb (openai_api_key env) then
    print "OpenAI API key not configured. Cannot get completion." ;;;
    ret None
  else
    try_except
      (lift (openai_chat_completions_create chat (messages prompt system_prompt)))
      (λ e,
         print ("Error getting completion from OpenAI: " +:+ exn_str e) ;;;
         ret None).
End WithEnv.
End Completion.
Export Completion.

(** ** The chat loop: [main.py] *)

Module Main.
Import PyStr.

(** A reasoning lens as loaded from the configuration: its name as
    written, and its prompt archetype if it has one. *)
Record Lens := {
  lens_name : string;
  lens_prompt_archetype : option string
}.

(** [LOADED_LENSES]: the lenses under their lower-case names, in insertion
    order. *)
Abbreviation lenses := (list (string * Lens)).

(** [d.keys()] and [d[key]] *)
Definition keys (d : lenses) : list string := map fst d.

Fixpoint dict_get (d : lenses) (key : string) : option Lens :=
  match d with
  | [] => None
  | (k, lens) :: rest => if bool_decide (k = key) then Some lens else dict_get rest key
  end.

(** What the lens command of an input selects. *)
Record LensChoice := {
  selected_lens_name : option string;
  lens_archetype : option string;
  user_query : string
}.

(** The outcome of one pass of the loop body. *)
Inductive turn :=
  | Continue
  | Break.

Section WithEnv.
Variable env : Env.
Variable chat : ChatEnv.
Variable str_isspace : ascii → bool.
Variable LOADED_LENSES : lenses.

(** The inner loop: the first key, in the order of the dictionary, that
    the command starts with. *)
Fixpoint match_lens (ln_keys : list string) (potential_lens_name_command : string)
    : option string :=
  match ln_keys with
  | [] => None
  | ln_key :: rest =>
      if startswith potential_lens_name_command ln_key then Some ln_key
      else match_lens rest potential_lens_name_command
  end.

(** The outer loop over the keys: each pass runs the inner loop, and the
    first pass whose match is not empty sets the choice and leaves the
    loop. *)
Fixpoint select_lens (known_lens_name_keys : list string)
    (user_input_full potential_lens_name_command : string) (choice : LensChoice)
    : M LensChoice :=
  match known_lens_name_keys with
  | [] => ret choice
  | _ :: rest =>
      let matched_lens := match_lens (keys LOADED_LENSES) potential_lens_name_command in
      if truthy_str matched_lens then
        let matched_lens := default "" matched_lens in
        match dict_get LOADED_LENSES matched_lens with
        | None => raise (Exception ("'" +:+ matched_lens +:+ "'"))
        | Some lens =>
            let query_start_index :=
              find (str_lower env user_input_full) matched_lens + len matched_lens in
            let user_query :=
              strip str_isspace (slice_from user_input_full query_start_index) in
            print ("[main.py] Using Lens: '" +:+ lens_name lens +:+ "' for query: '"
                   +:+ user_query +:+ "'") ;;;
            ret {| selected_lens_name := Some (lens_name lens);
                   lens_archetype := lens_prompt_archetype lens;
                   user_query := user_query |}
        end
      else select_lens rest user_input_full potential_lens_name_command choice
  end.

(** The choice that the loop makes for a matched key and its lens. *)
Definition lens_choice (user_input_full key : string) (lens : Lens) : LensChoice :=
  {| selected_lens_name := Some (lens_name lens);
     lens_archetype := lens_prompt_archetype lens;
     user_query := strip str_isspace (slice_from user_input_full
                            (find (str_lower env user_input_full) key + len key)) |}.

(** Lines 100 to 143: the lens command of an input. *)
Definition parse_lens_command (user_input_full : string) : M LensChoice :=
  let choice := {| selected_lens_name := None; lens_archetype := None;
                   user_query := user_input_full |} in
  if startswith (str_lower env user_input_full) "lens:" then
    match split str_isspace user_input_full 2 with
    | _ :: part1 :: _ =>
        select_lens (keys LOADED_LENSES) user_input_full (str_lower env part1) choice
    | _ => ret choice
    end
  else ret choice.

(** A metadata value as an f-string shows it. *)
Definition meta_str (v : option meta_value) : string :=
  match v with
  | None => "N/A"
  | Some (MetaStr s) => s
  | Some (MetaInt n) => pretty n
  end.

(** The two lines added to the context for the [i]-th chunk. *)
Definition context_entry (i : nat) (chunk : RetrievedChunk) : string :=
  "Context " +:+ pretty (Z.of_nat i + 1) +:+ " (Source: "
  +:+ meta_str (rc_metadata chunk !! "source_file_name") +:+ " - Title: "
  +:+ meta_str (rc_metadata chunk !! "document_title") +:+ "):" +:+ nl
  +:+ rc_text_chunk chunk +:+ nl +:+ "---" +:+ nl.

(** Lines 149 to 155: the context block of the prompt. *)
Definition context_text (context_chunks : list RetrievedChunk) : string :=
  nl +:+ "--- Relevant Context ---" +:+ nl
  +:+ match context_chunks with
      | [] => "No specific context found in memory for this query." +:+ nl
      | _ => String.concat "" (imap context_entry context_chunks)
      end.

(** Lines 158 to 164: the prompt, from the archetype of the lens if there
    is one. *)
Definition full_prompt (choice : LensChoice) (context_chunks : list RetrievedChunk)
    : string :=
  if truthy_str (lens_archetype choice) then
    replace
      (replace (default "" (lens_archetype choice)) "{CONTEXT_CHUNKS}"
         (strip str_isspace (context_text context_chunks)))
      "{USER_QUERY}" (user_query choice)
  else
    context_text context_chunks +:+ nl
    +:+ "Based on the above context (if any) and your core identity, respond to the following:"
    +:+ nl +:+ "User: " +:+ user_query choice.

(** Lines 100 to 164 on their own: the prompt that a pass builds for the
    completion service. *)
Definition build_prompt (user_input_full : string) : M string :=
  choice <- parse_lens_command user_input_full ;;
  print ("[main.py] Retrieving context for query: '" +:+ user_query choice
         +:+ "'...") ;;;
  context_chunks <- retrieve_relevant_chunks env (user_query choice) None 3 ;;
  ret (full_prompt choice context_chunks).

(** One pass of the body of the [while] loop of [run_chat], for the line
    that [input] returned; [KeyboardInterrupt] is not modelled. *)
Definition chat_turn (aletheia_system_prompt user_input_full : string) : M turn :=
  try_except
    (if bool_decide (str_lower env user_input_full = "quit") then
       print "Aletheia: Farewell. May your path be clear." ;;;
       ret Break
     else if negb (truthy_str (Some (strip str_isspace user_input_full))) then ret Continue
     else
       choice <- parse_lens_command user_input_full ;;
       print ("[main.py] Retrieving context for query: '" +:+ user_query choice
              +:+ "'...") ;;;
       context_chunks <- retrieve_relevant_chunks env (user_query choice) None 3 ;;
       print "[main.py] Thinking..." ;;;
       ai_response <- get_llm_completion env chat (full_prompt choice context_chunks)
                        (Some aletheia_system_prompt) ;;
       if truthy_str ai_response then
         print ("Aletheia: " +:+ default "" ai_response) ;;;
         print "[main.py] Saving interaction to memory..." ;;;
         ingest_interaction_text env user_input_full (default "" ai_response) ;;;
         ret Continue
       else
         print "Aletheia: I seem to be having trouble processing that right now. Could you rephrase?" ;;;
         ret Continue)
    (λ e,
       print (nl +:+ "[main.py] An unexpected error occurred: " +:+ exn_str e) ;;;
       ret Continue).
End WithEnv.

(** [first_match d command i key lens]: the [i]-th item of the dictionary
    is the first one whose key the command starts with. *)
Definition first_match (d : lenses) (command : string) (i : nat) (key : string)
    (lens : Lens) : Prop :=
  d !! i = Some (key, lens)
  ∧ startswith command key = true
  ∧ ∀ j key' lens', (j < i)%nat → d !! j = Some (key', lens') →
      startswith command key' = false.

(** [str.isspace] on the code points below 256. *)
Definition latin1_isspace (c : ascii) : bool :=
  let n := nat_of_ascii c in
  ((9 <=? n) && (n <=? 13) || (28 <=? n) && (n <=? 32) || (n =? 133) || (n =? 160))%nat.

(** What a pass leaves alone when it stores nothing, and the call it
    makes when it stores an interaction. *)
Definition store_untouched (w w' : World) : Prop :=
  add_calls w' = add_calls w ∧ collection w' = collection w.

Definition interaction_add_call (env : Env) (user_input ai_response : string)
    (w : World) (v : vector) : AddCall :=
  {| add_records := [interaction_record env user_input ai_response w v];
     add_ok := bool_decide
                 (chroma_add_raises env (length (add_calls w))
                    [interaction_record env user_input ai_response w v] = None) |}.

(** [str.lower] on the ASCII letters, and the sample environment with
    it. *)
Definition ascii_lower (c : ascii) : ascii :=
  let n := nat_of_ascii c in
  if ((65 <=? n) && (n <=? 90))%nat then ascii_of_nat (n + 32) else c.

Fixpoint lower (s : string) : string :=
  match s with
  | EmptyString => EmptyString
  | String c s' => String (ascii_lower c) (lower s')
  end.

Definition chat_env : Env :=
  {| os_path_splitext := os_path_splitext sample_env;
     os_path_basename := os_path_basename sample_env;
     str_lower := lower;
     str_isalnum := str_isalnum sample_env;
     open_read := open_read sample_env;
     docx_paragraphs := docx_paragraphs sample_env;
     openai_api_key := true;
     openai_embeddings_create call text := Returned [PrimFloat.one];
     chroma_add_raises := chroma_add_raises sample_env;
     chroma_query := chroma_query sample_env;
     datetime_now := datetime_now sample_env |}.

(** The example of the start-up banner of [run_chat], and a dictionary
    with the lens it names. *)
Definition banner_input : string :=
  "lens: Contextual Self-Referencing How does my latest idea about OIWs fit our past discussions?".

Definition banner_lenses : lenses :=
  [ ("contextual self-referencing",
     {| lens_name := "Contextual Self-Referencing";
        lens_prompt_archetype := Some "Context: {CONTEXT_CHUNKS} Question: {USER_QUERY}" |}) ].

(** A lens command whose separators are no-break spaces (U+00A0). *)
Definition no_break_input : string :=
  "lens:" +:+ String "160"%char "socratic" +:+ String "160"%char "what is virtue".

(** Two lenses, the first with a name of two words. *)
Definition sample_lenses : lenses :=
  [ ("contextual self-referencing",
     {| lens_name := "Contextual Self-Referencing";
        lens_prompt_archetype := Some "Context: {CONTEXT_CHUNKS} Question: {USER_QUERY}" |});
    ("socratic",
     {| lens_name := "Socratic";
        lens_prompt_archetype := Some "Ask questions only." |}) ].

(** A completion service that answers every request. *)
Definition sample_chat : ChatEnv :=
  {| openai_chat_completions_create messages := Returned (Some "I see.") |}.
End Main.
Export Main.

(** * Properties of the chunker *)

Module ChunkerFacts.
Section Facts.
Context {A : Type}.
Implicit Types (text : list A) (chunks : list (list A)).

Lemma adjust_index_in_range (len i : Z) :
  0 <= i <= len -> adjust_index len i = i.
Proof. unfold adjust_index. intros Hi. destruct (Z.ltb_spec i 0); lia. Qed.

(** Inside the text a slice is a [take] of a [drop]. *)
Lemma py_slice_in_range text (a b : Z) :
  0 <= a -> a <= b -> b <= Z.of_nat (length text) ->
  py_slice text a b = take (Z.to_nat (b - a)) (drop (Z.to_nat a) text).
Proof.
  intros Ha Hab Hb. unfold py_slice.
  rewrite !adjust_index_in_range by lia. reflexivity.
Qed.

Lemma py_slice_to_end text (a : Z) :
  0 <= a <= Z.of_nat (length text) ->
  py_slice text a (Z.of_nat (length text)) = drop (Z.to_nat a) text.
Proof.
  intros Ha. rewrite py_slice_in_range by lia.
  apply take_ge. rewrite length_drop. lia.
Qed.

Lemma py_slice_prefix text (b : Z) :
  0 <= b -> py_slice text 0 b = take (Z.to_nat b) text.
Proof.
  intros Hb. unfold py_slice, adjust_index. simpl.
  destruct (Z.ltb_spec b 0); [lia|].
  rewrite (Z.min_l 0) by lia. rewrite Z.sub_0_r, drop_0.
  destruct (Z.le_gt_cases b (Z.of_nat (length text))).
  - by rewrite Z.min_l.
  - rewrite Z.min_r by lia. rewrite !take_ge; [done|lia..].
Qed.

(** A negative stop index drops that many elements from the end. *)
Lemma py_slice_negative_stop text (b : Z) :
  b < 0 ->
  py_slice text 0 b = take (Z.to_nat (Z.of_nat (length text) + b)) text.
Proof.
  intros Hb. unfold py_slice, adjust_index. simpl.
  destruct (Z.ltb_spec b 0); [|lia].
  rewrite (Z.min_l 0) by lia. rewrite Z.sub_0_r, drop_0. f_equal. lia.
Qed.

(** The accumulator of the loop is only ever extended. *)
Lemma chunk_loop_acc fuel text sz ov s chunks :
  chunk_loop fuel text sz ov s chunks
  = (λ r, (chunks ++ r.1, r.2)) <$> chunk_loop fuel text sz ov s [].
Proof.
  revert s chunks. induction fuel as [|fuel IH]; intros s chunks; [done|].
  simpl. repeat case_match; simpl; try done.
  - rewrite (IH _ (chunks ++ _)), (IH _ [_]).
    destruct (chunk_loop fuel text sz ov _ []) as [[cs out]|]; simpl; [|done].
    by rewrite <-app_assoc.
  - by rewrite app_nil_r.
Qed.

(** One unfolding of the loop from an empty accumulator. *)
Lemma chunk_loop_step fuel text sz ov s :
  chunk_loop (S fuel) text sz ov s []
  = let n := Z.of_nat (length text) in
    if s <? n then
      let e := Z.min (s + sz) n in
      if e =? n then Some ([py_slice text s e], [])
      else if sz - ov <=? 0 then Some ([py_slice text s e], [loop_warning sz ov])
      else (λ r, (py_slice text s e :: r.1, r.2))
             <$> chunk_loop fuel text sz ov (s + (sz - ov)) []
    else Some ([], []).
Proof.
  simpl. repeat case_match; simpl in *; try done.
  by rewrite chunk_loop_acc.
Qed.

(** The loop returns as soon as the fuel exceeds the distance to the end
    of the text. *)
Lemma chunk_loop_returns fuel text sz ov s chunks :
  (0 < fuel)%nat -> Z.of_nat (length text) - s < Z.of_nat fuel ->
  is_Some (chunk_loop fuel text sz ov s chunks).
Proof.
  revert s chunks. induction fuel as [|fuel IH]; intros s chunks Hpos Hfuel; [lia|].
  simpl. destruct (Z.ltb_spec s (Z.of_nat (length text))); [|by eexists].
  destruct (Z.eqb_spec (Z.min (s + sz) (Z.of_nat (length text))) (Z.of_nat (length text)));
    [by eexists|].
  destruct (Z.leb_spec (sz - ov) 0); [by eexists|].
  apply IH; lia.
Qed.

(** More fuel never changes a result. *)
Lemma chunk_loop_fuel_mono fuel fuel' text sz ov s chunks r :
  (fuel <= fuel')%nat ->
  chunk_loop fuel text sz ov s chunks = Some r ->
  chunk_loop fuel' text sz ov s chunks = Some r.
Proof.
  revert fuel' s chunks.
  induction fuel as [|fuel IH]; intros fuel' s chunks Hle Hr; [done|].
  destruct fuel' as [|fuel']; [lia|].
  simpl in *. repeat case_match; try done. apply IH; [lia|done].
Qed.

Lemma chunk_text_fuel_returns text sz ov :
  is_Some (chunk_text_fuel (S (length text)) text sz ov).
Proof.
  unfold chunk_text_fuel. destruct text as [|c text]; [by eexists|].
  apply chunk_loop_returns; simpl; lia.
Qed.

Lemma chunk_text_fuel_enough text sz ov fuel :
  (length text < fuel)%nat ->
  chunk_text_fuel fuel text sz ov = Some (chunk_text_run text sz ov).
Proof.
  intros Hfuel. unfold chunk_text_run.
  destruct (chunk_text_fuel_returns text sz ov) as [r Hr]. rewrite Hr. simpl.
  unfold chunk_text_fuel in *. destruct text as [|c text]; [done|].
  eapply chunk_loop_fuel_mono; [|done]. lia.
Qed.

Lemma chunk_text_run_eq text sz ov :
  chunk_text_run text sz ov = (chunk_text text sz ov, chunk_text_printed text sz ov).
Proof. unfold chunk_text, chunk_text_printed. by destruct (chunk_text_run _ _ _). Qed.

Lemma chunk_text_nil sz ov : chunk_text (@nil A) sz ov = [].
Proof. reflexivity. Qed.

Lemma chunk_text_loop text sz ov :
  text <> [] ->
  chunk_loop (S (length text)) text sz ov 0 []
  = Some (chunk_text text sz ov, chunk_text_printed text sz ov).
Proof.
  intros Hne. rewrite <-chunk_text_run_eq.
  rewrite <-(chunk_text_fuel_enough text sz ov (S (length text))) by lia.
  by destruct text.
Qed.

(** *** Well-configured chunking: [chunk_size > chunk_overlap >= 0] *)

(** With a positive stride the guard of the loop prints nothing. *)
Lemma chunk_loop_silent fuel text sz ov s cs out :
  0 < sz - ov ->
  chunk_loop fuel text sz ov s [] = Some (cs, out) -> out = [].
Proof.
  intros Hstride. revert s cs.
  induction fuel as [|fuel IH]; intros s cs Hcs; [done|].
  rewrite chunk_loop_step in Hcs. cbv zeta in Hcs.
  destruct (s <? _); [|by simplify_eq].
  destruct (_ =? _); [by simplify_eq|].
  destruct (Z.leb_spec (sz - ov) 0); [lia|].
  destruct (chunk_loop fuel text sz ov _ []) as [[rest out']|] eqn:Hrest; [|done].
  simplify_eq/=. by eapply IH.
Qed.

(** From a start offset that leaves more than the overlap to read, the
    chunks without their overlaps are the rest of the text. *)
Lemma chunk_loop_strip fuel text sz ov s cs out :
  0 <= ov < sz -> 0 <= s -> s + ov < Z.of_nat (length text) ->
  chunk_loop fuel text sz ov s [] = Some (cs, out) ->
  concat (map (drop (Z.to_nat ov)) cs) = drop (Z.to_nat (s + ov)) text.
Proof.
  intros Hov. revert s cs.
  induction fuel as [|fuel IH]; intros s cs Hs Hlt Hcs; [done|].
  rewrite chunk_loop_step in Hcs. cbv zeta in Hcs.
  destruct (Z.ltb_spec s (Z.of_nat (length text))); [|lia].
  destruct (Z.leb_spec (sz - ov) 0); [lia|].
  destruct (Z.eqb_spec (Z.min (s + sz) (Z.of_nat (length text)))
              (Z.of_nat (length text))) as [He|He].
  - simplify_eq/=. rewrite He, py_slice_to_end by lia.
    rewrite app_nil_r, drop_drop. f_equal. lia.
  - rewrite Z.min_l in Hcs by lia.
    destruct (chunk_loop fuel text sz ov (s + (sz - ov)) []) as [[rest out']|] eqn:Hrest;
      [|done].
    simplify_eq/=.
    rewrite (IH (s + (sz - ov)) rest ltac:(lia) ltac:(lia) Hrest).
    rewrite py_slice_in_range by lia.
    replace (Z.to_nat (s + (sz - ov) + ov)) with (Z.to_nat s + Z.to_nat sz)%nat by lia.
    rewrite <-drop_drop. replace (s + sz - s) with sz by lia.
    rewrite drop_take_drop by lia. rewrite drop_drop. f_equal. lia.
Qed.

Lemma ceil_div_spec (a b : Z) :
  0 < b -> (ceil_div a b - 1) * b < a <= ceil_div a b * b.
Proof.
  intros Hb. unfold ceil_div.
  pose proof (Z.div_mod (- a) b ltac:(lia)) as Hdm.
  pose proof (Z.mod_pos_bound (- a) b Hb) as Hr.
  revert Hdm Hr. generalize (- a / b), (- a `mod` b).
  intros q r Hdm Hr. nia.
Qed.

Lemma ceil_div_unique (a b q : Z) :
  0 < b -> (q - 1) * b < a <= q * b -> ceil_div a b = q.
Proof. intros Hb Hq. pose proof (ceil_div_spec a b Hb). nia. Qed.

(** From any start offset inside the text the loop appends
    [ceil ((len - start - overlap) / (size - overlap))] chunks, and one
    chunk when no more than the overlap is left. *)
Lemma chunk_loop_count fuel text sz ov s cs out :
  0 <= ov < sz -> 0 <= s < Z.of_nat (length text) ->
  chunk_loop fuel text sz ov s [] = Some (cs, out) ->
  Z.of_nat (length cs)
  = Z.max 1 (ceil_div (Z.of_nat (length text) - s - ov) (sz - ov)).
Proof.
  intros Hov. revert s cs.
  induction fuel as [|fuel IH]; intros s cs Hs Hcs; [done|].
  rewrite chunk_loop_step in Hcs. cbv zeta in Hcs.
  destruct (Z.ltb_spec s (Z.of_nat (length text))); [|lia].
  destruct (Z.leb_spec (sz - ov) 0); [lia|].
  pose proof (ceil_div_spec (Z.of_nat (length text) - s - ov) (sz - ov) ltac:(lia)).
  destruct (Z.eqb_spec (Z.min (s + sz) (Z.of_nat (length text)))
              (Z.of_nat (length text))) as [He|He].
  - simplify_eq/=. nia.
  - destruct (chunk_loop fuel text sz ov (s + (sz - ov)) []) as [[rest out']|] eqn:Hrest;
      [|done].
    simplify_eq/=.
    rewrite Nat2Z.inj_succ, (IH (s + (sz - ov)) rest ltac:(lia) Hrest).
    pose proof (ceil_div_spec (Z.of_nat (length text) - (s + (sz - ov)) - ov)
                  (sz - ov) ltac:(lia)).
    nia.
Qed.
End Facts.
End ChunkerFacts.

(** Sample runs of the chunker. *)

Example chunk_text_overlapping_windows :
  chunk_text (String.list_ascii_of_string "abcdefghij") 4 1
  = map String.list_ascii_of_string ["abcd"; "defg"; "ghij"]%string.
Proof. reflexivity. Qed.

Example chunk_text_short_text :
  chunk_text (String.list_ascii_of_string "abc") 4 1
  = [String.list_ascii_of_string "abc"].
Proof. reflexivity. Qed.

Example chunk_text_default_lengths :
  length <$> chunk_text (replicate 3000 "x"%char) default_chunk_size default_chunk_overlap
  = [1200; 1200; 900]%nat.
Proof. by vm_compute. Qed.

Example chunk_text_default_silent :
  chunk_text_printed (replicate 3000 "x"%char) default_chunk_size default_chunk_overlap
  = [].
Proof. by vm_compute. Qed.

(** * Properties of the pipeline *)

Module RunFacts.
Lemma effects_refl w : effects w w [] [] 0 (collection w).
Proof.
  unfold effects. rewrite !app_nil_r, Nat.add_0_r.
  repeat split. exists []. by rewrite app_nil_r.
Qed.

Lemma effects_trans w1 w2 w3 e1 e2 a1 a2 t1 t2 c2 c3 :
  effects w1 w2 e1 a1 t1 c2 → effects w2 w3 e2 a2 t2 c3 →
  effects w1 w3 (e1 ++ e2) (a1 ++ a2) (t1 + t2) c3.
Proof.
  intros (Hc1 & He1 & Ha1 & Ht1 & l1 & Hl1) (Hc2 & He2 & Ha2 & Ht2 & l2 & Hl2).
  unfold effects. rewrite He2, He1, Ha2, Ha1, Ht2, Ht1, Hl2, Hl1, <-!app_assoc.
  repeat split; [done|lia|by eexists].
Qed.

Lemma effects_print line w : effects w (print line w).2 [] [] 0 (collection w).
Proof.
  unfold effects. simpl. rewrite !app_nil_r, Nat.add_0_r.
  repeat split. by eexists.
Qed.

Lemma print_run line w :
  ∃ w', print line w = (Returned tt, w') ∧ effects w w' [] [] 0 (collection w).
Proof. eexists. split; [reflexivity|]. apply effects_print. Qed.

Lemma batch_wf_empty : batch_wf empty_batch.
Proof. done. Qed.

Lemma zip_snoc {A B} (l : list A) (k : list B) a b :
  length l = length k → zip (l ++ [a]) (k ++ [b]) = zip l k ++ [(a, b)].
Proof.
  revert k. induction l as [|x l IH]; intros [|y k] Hlen; simplify_eq/=; [done|].
  by rewrite IH.
Qed.

Lemma zip_with_snoc {A B C} (f : A → B → C) (l : list A) (k : list B) a b :
  length l = length k →
  zip_with f (l ++ [a]) (k ++ [b]) = zip_with f l k ++ [f a b].
Proof.
  revert k. induction l as [|x l IH]; intros [|y k] Hlen; simplify_eq/=; [done|].
  by rewrite IH.
Qed.

Lemma batch_append_records b v chunk meta id :
  batch_wf b →
  batch_wf (batch_append b v chunk meta id)
  ∧ batch_records (batch_append b v chunk meta id)
    = batch_records b ++ [(id, {| rec_embedding := v; rec_document := chunk;
                                  rec_metadata := meta |})].
Proof.
  intros (He & Hd & Hm). split.
  - unfold batch_wf. simpl. rewrite !length_app. simpl. lia.
  - unfold batch_records. simpl.
    rewrite (zip_snoc (embeddings_to_add b)) by lia.
    rewrite zip_with_snoc by (rewrite length_zip_with; lia).
    rewrite zip_snoc; [done|]. rewrite !length_zip_with. lia.
Qed.

Lemma batch_records_nil b :
  batch_wf b → documents_to_add b = [] → batch_records b = [].
Proof.
  intros (He & Hd & Hm) Hnil. rewrite Hnil in Hd. simpl in Hd.
  unfold batch_records. by destruct (ids_to_add b).
Qed.

Lemma batch_records_cons b :
  batch_wf b → documents_to_add b ≠ [] → batch_records b ≠ [].
Proof.
  intros (He & Hd & Hm) Hne. unfold batch_records.
  destruct (documents_to_add b) as [|d ds]; [done|].
  destruct (ids_to_add b) as [|i0 ids]; [done|].
  destruct (embeddings_to_add b) as [|e es]; [done|].
  by destruct (metadatas_to_add b) as [|m ms].
Qed.

(** Runs the [print] at the head of the goal, naming the world it leaves
    and the summary of its effects. *)
Ltac run_print_as w' Hw :=
  match goal with
  | |- context [print ?line ?w] =>
      let Hp := fresh "Hp" in
      destruct (print_run line w) as (w' & Hp & Hw); rewrite Hp; clear Hp;
      cbn beta iota
  end.
Ltac run_print :=
  let w' := fresh "w" in let Hw := fresh "Hw" in run_print_as w' Hw.

Section WithEnv.
Variable env : Env.

Lemma get_openai_embedding_run text w :
  ∃ w', get_openai_embedding env text w
        = (Returned (embedding_answer env (length (embedding_calls w)) text), w')
        ∧ effects w w' [text] [] 0 (collection w).
Proof.
  unfold get_openai_embedding, embedding_answer, bind, begin_embedding_call,
    try_except, lift, ret.
  destruct (openai_api_key env); simpl;
    [destruct (openai_embeddings_create env _ text); simpl|];
    (eexists; split; [reflexivity|]);
    unfold effects; simpl; rewrite ?app_nil_r, Nat.add_0_r;
    repeat split; try by eexists.
  exists []. by rewrite app_nil_r.
Qed.

Lemma ingest_chunks_run fn title ct chunks : ∀ i b w,
  batch_wf b →
  ∃ b' w', ingest_chunks env fn title ct i chunks b w = (Returned b', w')
           ∧ batch_wf b'
           ∧ batch_records b'
             = batch_records b
               ++ embedded_records env fn title ct (length (embedding_calls w)) i chunks
           ∧ effects w w' chunks [] 0 (collection w).
Proof.
  induction chunks as [|chunk rest IH]; intros i b w Hwf.
  - exists b, w. simpl. rewrite app_nil_r. eauto using effects_refl.
  - simpl. unfold bind at 1.
    destruct (get_openai_embedding_run chunk w) as (w1 & -> & Hw1).
    assert (length (embedding_calls w1) = S (length (embedding_calls w))) as Hcall.
    { destruct Hw1 as (_ & -> & _). rewrite length_app. simpl. lia. }
    assert (collection w1 = collection w) as Hcoll by apply Hw1.
    destruct (embedding_answer env _ chunk) as [v|].
    + destruct (batch_append_records b v chunk
                  (chunk_metadata fn title ct (Z.of_nat i + 1) chunk)
                  (chunk_id env title (Z.of_nat i + 1)) Hwf) as [Hwf' Hrec].
      destruct (IH (S i) _ w1 Hwf') as (b' & w' & -> & Hwf'' & Hrec' & Hw').
      exists b', w'. split_and!; [done..| |].
      * rewrite Hrec', Hrec, Hcall, <-app_assoc. done.
      * rewrite Hcoll in Hw'. apply (effects_trans _ _ _ _ _ _ _ _ _ _ _ Hw1 Hw').
    + unfold bind at 1.
      destruct (print_run ("Warning: Could not generate embedding for chunk "
                 +:+ pretty (Z.of_nat i + 1) +:+ " of " +:+ title
                 +:+ ". Skipping.") w1) as (w2 & -> & Hw2).
      pose proof (effects_trans _ _ _ _ _ _ _ _ _ _ _ Hw1 Hw2) as H1.
      assert (length (embedding_calls w2) = S (length (embedding_calls w))) as Hcall2.
      { destruct H1 as (_ & -> & _). rewrite length_app. simpl. lia. }
      destruct (IH (S i) b w2 Hwf) as (b' & w' & -> & Hwf'' & Hrec' & Hw').
      exists b', w'. split_and!; [done..| |].
      * rewrite Hrec'. simpl. by rewrite Hcall2.
      * assert (collection w2 = collection w) as Hcoll2
          by (destruct Hw2 as [-> _]; done).
        rewrite Hcoll2 in Hw'.
        pose proof (effects_trans _ _ _ _ _ _ _ _ _ _ _ H1 Hw') as H2.
        by rewrite app_nil_r in H2.
Qed.

Lemma load_text_file_run path w :
  ∃ w', load_text_file env path w
        = (Returned (match open_read env path with
                     | Returned content => Some content
                     | Raised _ => None
                     end), w')
        ∧ effects w w' [] [] 0 (collection w).
Proof.
  unfold load_text_file, try_except, bind, lift, ret.
  destruct (open_read env path) as [content|e]; cbn beta iota.
  - eauto using effects_refl.
  - destruct e; run_print; eauto.
Qed.

Lemma load_docx_file_run path w :
  ∃ w', load_docx_file env path w
        = (Returned (match docx_paragraphs env path with
                     | Returned paragraphs => Some (String.concat nl paragraphs)
                     | Raised _ => None
                     end), w')
        ∧ effects w w' [] [] 0 (collection w).
Proof.
  unfold load_docx_file, try_except, bind, lift, ret.
  destruct (docx_paragraphs env path) as [paragraphs|e]; cbn beta iota.
  - eauto using effects_refl.
  - destruct e; run_print; eauto.
Qed.

(** The guarded [collection.add]: never raises, and records one call. *)
Lemma guarded_add_run b ok_line err_line st w :
  collection w = Some st →
  ∃ w', try_except (collection_add env b ;;; print ok_line)
          (λ e, print (err_line e)) w = (Returned tt, w')
        ∧ effects w w' []
            [{| add_records := batch_records b;
                add_ok := bool_decide (chroma_add_raises env (length (add_calls w))
                                         (batch_records b) = None) |}]
            0
            (if bool_decide (chroma_add_raises env (length (add_calls w))
                               (batch_records b) = None)
             then Some (upsert st (batch_records b)) else Some st).
Proof.
  intros Hst. unfold try_except, bind, collection_add. rewrite Hst.
  destruct (chroma_add_raises env _ (batch_records b)) as [e|] eqn:Hadd; simpl.
  - eexists. split; [reflexivity|]. unfold effects. simpl.
    rewrite app_nil_r, Nat.add_0_r. repeat split. by eexists.
  - eexists. split; [reflexivity|]. unfold effects. simpl.
    rewrite app_nil_r, Nat.add_0_r. repeat split. by eexists.
Qed.

Lemma ingest_loaded_run path fn title ct text_content st w :
  collection w = Some st →
  ∃ w', ingest_loaded env path fn title ct text_content w = (Returned PyNone, w')
        ∧ let chunks := if truthy_str text_content
                        then chunk_text_str (default "" text_content)
                               default_chunk_size default_chunk_overlap
                        else [] in
          let adds := planned_add_calls env (length (add_calls w))
                        (embedded_records env fn title ct
                           (length (embedding_calls w)) 0 chunks) in
          effects w w' chunks adds 0 (apply_add_calls (Some st) adds).
Proof.
  intros Hst. unfold ingest_loaded.
  destruct (truthy_str text_content); simpl (negb _); cbn beta iota zeta;
    [|unfold bind; run_print; unfold ret; rewrite Hst in Hw; by eauto].
  destruct (chunk_text_str _ _ _) as [|c cs] eqn:Hchunks.
  { unfold bind. run_print. unfold ret. rewrite Hst in Hw. eauto. }
  rewrite <-Hchunks. clear Hchunks. set (chunks := chunk_text_str _ _ _).
  unfold bind at 1. run_print.
  unfold bind at 1.
  destruct (ingest_chunks_run fn title ct chunks 0 empty_batch w0 batch_wf_empty)
    as (b & w1 & -> & Hwf & Hrec & Hw1).
  simpl in Hrec.
  pose proof (effects_trans _ _ _ _ _ _ _ _ _ _ _ Hw Hw1) as Hw01.
  simpl in Hw01.
  assert (collection w0 = Some st) as Hst0 by (destruct Hw as [-> _]; done).
  assert (embedding_calls w0 = embedding_calls w) as Hcalls0.
  { destruct Hw as (_ & -> & _). by rewrite app_nil_r. }
  rewrite Hcalls0 in Hrec. rewrite Hst0 in Hw01.
  destruct (documents_to_add b) as [|d ds] eqn:Hdocs.
  - rewrite <-Hrec, (batch_records_nil b Hwf Hdocs). simpl.
    unfold bind. run_print_as w2 Hw2. unfold ret. eexists. split; [done|].
    pose proof (effects_trans _ _ _ _ _ _ _ _ _ _ _ Hw01 Hw2) as H.
    rewrite !app_nil_r in H. simpl in H.
    destruct Hw01 as [Hc _]. by rewrite Hc in H.
  - assert (batch_records b ≠ []) as Hne
      by (apply batch_records_cons; [done|by rewrite Hdocs]).
    unfold bind at 1.
    assert (collection w1 = Some st) as Hst1 by (destruct Hw01 as [-> _]; done).
    edestruct (guarded_add_run b) as (w2 & -> & Hw2); [exact Hst1|].
    unfold ret. eexists. split; [done|].
    pose proof (effects_trans _ _ _ _ _ _ _ _ _ _ _ Hw01 Hw2) as H.
    rewrite !app_nil_r in H. simpl in H.
    assert (length (add_calls w1) = length (add_calls w)) as Hadds.
    { destruct Hw01 as (_ & _ & -> & _). by rewrite app_nil_r. }
    rewrite Hadds in H. rewrite <-Hrec.
    unfold planned_add_calls. destruct (batch_records b) as [|r rs] eqn:Hb; [done|].
    simpl. destruct (bool_decide _); exact H.
Qed.

(** Worlds that differ in printed lines only plan the same run. *)
Lemma effects_silent w w' :
  effects w w' [] [] 0 (collection w) →
  collection w' = collection w
  ∧ embedding_calls w' = embedding_calls w
  ∧ add_calls w' = add_calls w.
Proof. intros (-> & -> & -> & _). by rewrite !app_nil_r. Qed.

(** [ingest_document] returns [None] on every path, and its effects are
    the planned ones. *)
Lemma ingest_document_run path title ct w :
  ∃ w', ingest_document env path title ct w = (Returned PyNone, w')
        ∧ let adds := planned_add_calls env (length (add_calls w))
                        (planned_records env path title ct w) in
          effects w w' (planned_chunks env path w) adds 0
            (apply_add_calls (collection w) adds).
Proof.
  unfold ingest_document, planned_records, planned_chunks, bind at 1, get_collection.
  destruct (collection w) as [st|] eqn:Hst; cbn beta iota zeta.
  2:{ unfold bind. run_print. unfold ret. rewrite Hst in Hw. eauto. }
  unfold bind at 1. run_print_as w0 Hw0.
  destruct (effects_silent _ _ Hw0) as (Hc0 & He0 & Ha0). rewrite Hst in Hc0.
  unfold document_chunks, document_text. cbn zeta.
  set (ext := str_lower env (os_path_splitext env path).2).
  destruct (bool_decide (ext = ".txt") || bool_decide (ext = ".yaml")).
  - unfold bind at 1.
    destruct (load_text_file_run path w0) as (w1 & -> & Hw1).
    destruct (effects_silent _ _ Hw1) as (Hc1 & He1 & Ha1). rewrite Hc0 in Hc1.
    destruct (ingest_loaded_run path (os_path_basename env path) title ct
                (match open_read env path with
                 | Returned content => Some content
                 | Raised _ => None
                 end) st w1 Hc1) as (w' & -> & Hw').
    exists w'. split; [done|]. cbn zeta in Hw'.
    rewrite He1, He0, Ha1, Ha0 in Hw'.
    pose proof (effects_trans _ _ _ _ _ _ _ _ _ _ _ Hw0
                  (effects_trans _ _ _ _ _ _ _ _ _ _ _ Hw1 Hw')) as H.
    exact H.
  - destruct (bool_decide (ext = ".docx")).
    + unfold bind at 1.
      destruct (load_docx_file_run path w0) as (w1 & -> & Hw1).
      destruct (effects_silent _ _ Hw1) as (Hc1 & He1 & Ha1). rewrite Hc0 in Hc1.
      destruct (ingest_loaded_run path (os_path_basename env path) title ct
                  (match docx_paragraphs env path with
                   | Returned paragraphs => Some (String.concat nl paragraphs)
                   | Raised _ => None
                   end) st w1 Hc1) as (w' & -> & Hw').
      exists w'. split; [done|]. cbn zeta in Hw'.
      rewrite He1, He0, Ha1, Ha0 in Hw'.
      pose proof (effects_trans _ _ _ _ _ _ _ _ _ _ _ Hw0
                    (effects_trans _ _ _ _ _ _ _ _ _ _ _ Hw1 Hw')) as H.
      exact H.
    + unfold bind. run_print_as w1 Hw1. unfold ret. eexists. split; [done|].
      simpl. rewrite Hc0 in Hw1.
      pose proof (effects_trans _ _ _ _ _ _ _ _ _ _ _ Hw0 Hw1) as H.
      exact H.
Qed.

Lemma now_run w :
  ∃ w', now env w = (Returned (datetime_now env (clock_reads w)), w')
        ∧ effects w w' [] [] 1 (collection w).
Proof.
  eexists. split; [reflexivity|]. unfold effects. simpl.
  rewrite !app_nil_r. repeat split; [lia|]. exists []. by rewrite app_nil_r.
Qed.
End WithEnv.
End RunFacts.

(** ** The store and the planned records *)

Module StoreFacts.
Lemma upsert_cons (st : store) id r recs :
  upsert st ((id, r) :: recs) = upsert (<[id := r]> st) recs.
Proof. reflexivity. Qed.

(** A write leaves the records under other ids alone. *)
Lemma upsert_lookup_notin (st : store) recs id :
  id ∉ recs.*1 → upsert st recs !! id = st !! id.
Proof.
  revert st. induction recs as [|[i r] recs IH]; intros st Hid; [done|].
  apply not_elem_of_cons in Hid as [Hne Hid].
  rewrite upsert_cons, IH by done.
  by apply lookup_insert_ne.
Qed.

(** A write with distinct ids stores each of its records. *)
Lemma upsert_lookup_in (st : store) recs id r :
  NoDup recs.*1 → (id, r) ∈ recs → upsert st recs !! id = Some r.
Proof.
  revert st. induction recs as [|[i r'] recs IH]; intros st Hnd Hin.
  { by apply elem_of_nil in Hin. }
  apply NoDup_cons in Hnd as [Hi Hnd]. rewrite upsert_cons.
  apply elem_of_cons in Hin as [[= -> ->]|Hin].
  - rewrite upsert_lookup_notin by done. apply lookup_insert_eq.
  - by apply IH.
Qed.

Lemma dom_upsert (st : store) recs :
  dom (upsert st recs) = dom st ∪ list_to_set recs.*1.
Proof.
  revert st. induction recs as [|[i r] recs IH]; intros st.
  - unfold upsert. simpl. by rewrite (right_id_L ∅ (∪)).
  - rewrite upsert_cons, IH, dom_insert_L. simpl.
    rewrite (comm_L (∪) {[i]} (dom st)). by rewrite (assoc_L (∪)).
Qed.

Section WithEnv.
Variable env : Env.

(** Ids of one title differ as soon as the sequence indices differ. *)
Lemma chunk_id_inj title (a b : Z) :
  chunk_id env title a = chunk_id env title b → a = b.
Proof.
  unfold chunk_id. intros H.
  apply (inj (String.app _)) in H. apply (inj (String.app _)) in H.
  by apply (inj pretty) in H.
Qed.

(** The planned records are those of the chunks whose embedding succeeds. *)
Lemma elem_of_embedded_records fn title ct chunks : ∀ call i idr,
  idr ∈ embedded_records env fn title ct call i chunks
  ↔ ∃ (j : nat) chunk v,
      chunks !! j = Some chunk
      ∧ embedding_answer env (call + j) chunk = Some v
      ∧ idr = chunk_record env fn title ct (Z.of_nat (i + j) + 1) chunk v.
Proof.
  induction chunks as [|c rest IH]; intros call i idr; simpl.
  { split; [by intros ?%elem_of_nil|by intros (j & ? & ? & ? & _)]. }
  rewrite elem_of_app, IH. split.
  - intros [Hhd|(j & chunk & v & Hj & Hv & ->)].
    + destruct (embedding_answer env call c) as [v|] eqn:Hv;
        [|by apply elem_of_nil in Hhd].
      apply list_elem_of_singleton in Hhd as ->.
      exists 0%nat, c, v. by rewrite !Nat.add_0_r.
    + exists (S j), chunk, v. split_and!; [done| |].
      * by replace (call + S j)%nat with (S call + j)%nat by lia.
      * by replace (i + S j)%nat with (S i + j)%nat by lia.
  - intros ([|j] & chunk & v & Hj & Hv & ->).
    + left. simplify_eq/=. rewrite Nat.add_0_r in Hv. rewrite Hv, Nat.add_0_r.
      apply list_elem_of_singleton. done.
    + right. exists j, chunk, v. split_and!; [done| |].
      * by replace (S call + j)%nat with (call + S j)%nat by lia.
      * by replace (S i + j)%nat with (i + S j)%nat by lia.
Qed.

Lemma embedded_records_ids_bound fn title ct chunks call i id :
  id ∈ (embedded_records env fn title ct call i chunks).*1 →
  ∃ j : nat, (i ≤ j)%nat ∧ id = chunk_id env title (Z.of_nat j + 1).
Proof.
  intros ([id' r] & -> & Hin)%list_elem_of_fmap.
  apply elem_of_embedded_records in Hin as (j & chunk & v & _ & _ & [= -> ->]).
  exists (i + j)%nat. split; [lia|done].
Qed.

(** No two planned records share an id. *)
Lemma embedded_records_NoDup fn title ct chunks : ∀ call i,
  NoDup (embedded_records env fn title ct call i chunks).*1.
Proof.
  induction chunks as [|c rest IH]; intros call i; simpl; [constructor|].
  rewrite fmap_app. apply NoDup_app. split_and!.
  - destruct (embedding_answer env call c); simpl;
      [apply NoDup_singleton|constructor].
  - intros id Hhd Hin.
    destruct (embedding_answer env call c); simpl in Hhd;
      [|by apply elem_of_nil in Hhd].
    apply list_elem_of_singleton in Hhd as ->.
    apply embedded_records_ids_bound in Hin as (j & Hj & Hid).
    apply chunk_id_inj in Hid. lia.
  - apply IH.
Qed.

(** The ids depend on which chunks are embedded, not on the vectors. *)
Lemma embedded_records_ids_pattern fn title ct chunks : ∀ call1 call2 i,
  (∀ (j : nat) chunk, chunks !! j = Some chunk →
     is_Some (embedding_answer env (call1 + j) chunk)
     ↔ is_Some (embedding_answer env (call2 + j) chunk)) →
  (embedded_records env fn title ct call1 i chunks).*1
  = (embedded_records env fn title ct call2 i chunks).*1.
Proof.
  induction chunks as [|c rest IH]; intros call1 call2 i Hsame; simpl; [done|].
  rewrite !fmap_app. f_equal.
  - specialize (Hsame 0%nat c eq_refl). rewrite !Nat.add_0_r in Hsame.
    destruct (embedding_answer env call1 c), (embedding_answer env call2 c);
      simpl; try done.
    + destruct Hsame as [Hs _]. by destruct Hs as [? ?].
    + destruct Hsame as [_ Hs]. by destruct Hs as [? ?].
  - apply IH. intros j chunk Hj. specialize (Hsame (S j) chunk Hj).
    by replace (call1 + S j)%nat with (S call1 + j)%nat in Hsame by lia;
       replace (call2 + S j)%nat with (S call2 + j)%nat in Hsame by lia.
Qed.
End WithEnv.
End StoreFacts.

(** ** Runs that end with the line that reports a write *)

Module ReportFacts.
Import RunFacts.

Lemma batch_records_length b :
  batch_wf b → length (batch_records b) = length (documents_to_add b).
Proof.
  intros (He & Hd & Hm). unfold batch_records. rewrite !length_zip_with. lia.
Qed.

Lemma records_written_snoc calls records :
  records_written (calls ++ [{| add_records := records; add_ok := true |}])
  = (records_written calls + length records)%nat.
Proof.
  unfold records_written. rewrite map_app, sum_list_with_app. simpl. lia.
Qed.

Section WithEnv.
Variable env : Env.

(** An accepted write ends with its success line. *)
Lemma guarded_add_accepted b ok_line err_line st w :
  collection w = Some st →
  chroma_add_raises env (length (add_calls w)) (batch_records b) = None →
  ∃ w', try_except (collection_add env b ;;; print ok_line)
          (λ e, print (err_line e)) w = (Returned tt, w')
        ∧ stdout w' = stdout w ++ [ok_line].
Proof.
  intros Hst Hok. unfold try_except, bind, collection_add. rewrite Hst, Hok.
  simpl. by eexists.
Qed.

Lemma ingest_loaded_success_line path fn title ct text_content st w :
  collection w = Some st →
  let chunks := if truthy_str text_content
                then chunk_text_str (default "" text_content)
                       default_chunk_size default_chunk_overlap
                else [] in
  let records := embedded_records env fn title ct (length (embedding_calls w)) 0
                   chunks in
  records ≠ [] →
  chroma_add_raises env (length (add_calls w)) records = None →
  ∃ w', ingest_loaded env path fn title ct text_content w = (Returned PyNone, w')
        ∧ last (stdout w') = Some (success_line (length records) title).
Proof.
  intros Hst chunks records Hne Hok. unfold ingest_loaded.
  subst records chunks.
  destruct (truthy_str text_content); [|done].
  simpl (negb _). cbn beta iota zeta.
  destruct (chunk_text_str _ _ _) as [|c cs] eqn:Hchunks; [done|].
  rewrite <-Hchunks in *. clear Hchunks. set (chunks := chunk_text_str _ _ _) in *.
  unfold bind at 1. run_print.
  unfold bind at 1.
  destruct (ingest_chunks_run env fn title ct chunks 0 empty_batch w0 batch_wf_empty)
    as (b & w1 & -> & Hwf & Hrec & Hw1).
  simpl in Hrec.
  destruct (effects_silent _ _ Hw) as (Hc0 & He0 & Ha0).
  rewrite He0 in Hrec. rewrite <-Hrec in Hne, Hok |- *.
  assert (collection w1 = Some st) as Hst1.
  { destruct Hw1 as (-> & _). by rewrite Hc0. }
  assert (add_calls w1 = add_calls w) as Ha1.
  { destruct Hw1 as (_ & _ & -> & _). by rewrite app_nil_r. }
  rewrite (batch_records_length b Hwf).
  destruct (documents_to_add b) as [|d ds] eqn:Hdocs.
  { by rewrite (batch_records_nil b Hwf Hdocs) in Hne. }
  unfold bind at 1. rewrite <-Ha1 in Hok.
  edestruct (guarded_add_accepted b) as (w2 & -> & Hout); [exact Hst1|exact Hok|].
  unfold ret. exists w2. split; [done|]. rewrite Hout. apply last_snoc.
Qed.

(** A run of [ingest_document] whose write is accepted ends with the
    line that reports the number of records handed to the store. *)
Lemma ingest_document_success_line path title ct w st :
  collection w = Some st →
  planned_records env path title ct w ≠ [] →
  chroma_add_raises env (length (add_calls w)) (planned_records env path title ct w)
  = None →
  ∃ w', ingest_document env path title ct w = (Returned PyNone, w')
        ∧ last (stdout w')
          = Some (success_line (length (planned_records env path title ct w)) title).
Proof.
  intros Hst. unfold planned_records, planned_chunks, document_chunks, document_text.
  rewrite Hst. cbn zeta. intros Hne Hok.
  unfold ingest_document, bind at 1, get_collection. rewrite Hst. cbn beta iota zeta.
  unfold bind at 1. run_print_as w0 Hw0.
  destruct (effects_silent _ _ Hw0) as (Hc0 & He0 & Ha0). rewrite Hst in Hc0.
  set (ext := str_lower env (os_path_splitext env path).2) in *.
  destruct (bool_decide (ext = ".txt") || bool_decide (ext = ".yaml")).
  - unfold bind at 1.
    destruct (load_text_file_run env path w0) as (w1 & -> & Hw1).
    destruct (effects_silent _ _ Hw1) as (Hc1 & He1 & Ha1). rewrite Hc0 in Hc1.
    rewrite <-Ha0, <-Ha1 in Hok. rewrite <-He0, <-He1 in Hne, Hok |- *.
    exact (ingest_loaded_success_line path (os_path_basename env path) title ct
             _ st w1 Hc1 Hne Hok).
  - destruct (bool_decide (ext = ".docx")); [|done].
    unfold bind at 1.
    destruct (load_docx_file_run env path w0) as (w1 & -> & Hw1).
    destruct (effects_silent _ _ Hw1) as (Hc1 & He1 & Ha1). rewrite Hc0 in Hc1.
    rewrite <-Ha0, <-Ha1 in Hok. rewrite <-He0, <-He1 in Hne, Hok |- *.
    exact (ingest_loaded_success_line path (os_path_basename env path) title ct
             _ st w1 Hc1 Hne Hok).
Qed.
End WithEnv.
End ReportFacts.

(** ** The chunker: results *)

Module ChunkerClaims.
Import ChunkerFacts.

Section Shared.
Context {A : Type}.
Implicit Types (text : list A).

(** With [chunk_size <= chunk_overlap] the loop body runs once, and the
    guard prints its warning unless the chunk reached the end of the text. *)
Lemma chunk_text_one_pass text size overlap :
  text ≠ [] → size <= overlap →
  chunk_text text size overlap
  = [py_slice text 0 (Z.min size (Z.of_nat (length text)))]
  ∧ chunk_text_printed text size overlap
    = if Z.of_nat (length text) <=? size then [] else [loop_warning size overlap].
Proof.
  intros Hne Hle. pose proof (chunk_text_loop text size overlap Hne) as Hrun.
  rewrite chunk_loop_step in Hrun. cbv zeta in Hrun.
  destruct (Z.ltb_spec 0 (Z.of_nat (length text))) as [_|Hlen];
    [|destruct text; [done|simpl in Hlen; lia]].
  destruct (Z.leb_spec (size - overlap) 0); [|lia].
  destruct (Z.eqb_spec (Z.min (0 + size) (Z.of_nat (length text)))
              (Z.of_nat (length text)));
    destruct (Z.leb_spec (Z.of_nat (length text)) size); try lia;
    by simplify_eq/=.
Qed.

(** A text that is not empty gives at least one chunk. *)
Lemma chunk_text_not_nil text size overlap :
  text ≠ [] → chunk_text text size overlap ≠ [].
Proof.
  intros Hne Hnil. pose proof (chunk_text_loop text size overlap Hne) as Hrun.
  rewrite chunk_loop_step, Hnil in Hrun. cbv zeta in Hrun.
  destruct (Z.ltb_spec 0 (Z.of_nat (length text))) as [_|Hlen];
    [|destruct text; [done|simpl in Hlen; lia]].
  destruct (_ =? _); [done|]. destruct (_ <=? _); [done|].
  by destruct (chunk_loop _ _ _ _ _ _).
Qed.

(** Reconstruction for a well-configured chunker. *)
Lemma chunk_text_strip text size overlap :
  0 <= overlap < size →
  strip_overlaps overlap (chunk_text text size overlap) = text.
Proof.
  intros Hov. destruct (decide (text = [])) as [->|Hne]; [done|].
  pose proof (chunk_text_loop text size overlap Hne) as Hrun.
  rewrite chunk_loop_step in Hrun. cbv zeta in Hrun.
  destruct (Z.ltb_spec 0 (Z.of_nat (length text))) as [_|Hlen];
    [|destruct text; [done|simpl in Hlen; lia]].
  destruct (Z.leb_spec (size - overlap) 0); [lia|].
  destruct (Z.eqb_spec (Z.min (0 + size) (Z.of_nat (length text)))
              (Z.of_nat (length text))) as [He|He].
  - injection Hrun as <- _. simpl. rewrite He, py_slice_to_end by lia.
    by rewrite app_nil_r.
  - rewrite Z.min_l in Hrun by lia.
    destruct (chunk_loop _ text size overlap (0 + (size - overlap)) [])
      as [[rest out]|] eqn:Hrest; [|done].
    injection Hrun as <- _. simpl.
    rewrite (chunk_loop_strip _ text size overlap (0 + (size - overlap)) rest out Hov
               ltac:(lia) ltac:(lia) Hrest).
    rewrite py_slice_prefix by lia.
    replace (0 + (size - overlap) + overlap) with (0 + size) by lia.
    apply take_drop.
Qed.

(** Number of chunks of a well-configured chunker on a text that is not
    empty. *)
Lemma chunk_text_count text size overlap :
  0 <= overlap < size → text ≠ [] →
  Z.of_nat (length (chunk_text text size overlap))
  = if overlap <? Z.of_nat (length text)
    then ceil_div (Z.of_nat (length text) - overlap) (size - overlap)
    else 1.
Proof.
  intros Hov Hne.
  assert (0 < Z.of_nat (length text)) as Hlen
    by (destruct text; [done|simpl; lia]).
  rewrite (chunk_loop_count (S (length text)) text size overlap 0
             (chunk_text text size overlap) (chunk_text_printed text size overlap)
             Hov ltac:(lia) (chunk_text_loop text size overlap Hne)).
  rewrite Z.sub_0_r.
  pose proof (ceil_div_spec (Z.of_nat (length text) - overlap) (size - overlap)
                ltac:(lia)).
  destruct (Z.ltb_spec overlap (Z.of_nat (length text))); nia.
Qed.

(** A well-configured chunker prints nothing. *)
Lemma chunk_text_silent text size overlap :
  overlap < size → chunk_text_printed text size overlap = [].
Proof.
  intros Hov. destruct (decide (text = [])) as [->|Hne]; [done|].
  eapply (chunk_loop_silent _ text size overlap 0); [lia|].
  by apply chunk_text_loop.
Qed.
End Shared.
(** C1 (as the code has it). A chunker configured with [chunk_size <=
    chunk_overlap] raises nothing: on an empty text it returns no chunk, and
    on any other text the loop body runs exactly once and appends the chunk
    [text[0:min(chunk_size, len(text))]]; unless that chunk reaches the end
    of the text, the guard on [chunk_size - chunk_overlap <= 0] then prints
    its warning and leaves the loop. *)
Theorem chunk_text_misconfigured_runs_once {A} (text : list A) (size overlap : Z) :
  size <= overlap →
  chunk_text text size overlap
  = match text with
    | [] => []
    | _ => [py_slice text 0 (Z.min size (Z.of_nat (length text)))]
    end
  ∧ iterations text size overlap = match text with [] => 0%nat | _ => 1%nat end
  ∧ chunk_text_printed text size overlap
    = match text with
      | [] => []
      | _ => if Z.of_nat (length text) <=? size then []
             else [loop_warning size overlap]
      end.
Proof.
  intros Hle. unfold iterations. destruct text as [|c text]; [done|].
  destruct (chunk_text_one_pass (c :: text) size overlap ltac:(done) Hle) as [-> ->].
  done.
Qed.

Lemma chunk_text_misconfigured_runs_once_witness :
  chunk_text (String.list_ascii_of_string "abcdef") 2 5
  = [py_slice (String.list_ascii_of_string "abcdef") 0 (Z.min 2 6)]
  ∧ iterations (String.list_ascii_of_string "abcdef") 2 5 = 1%nat
  ∧ chunk_text_printed (String.list_ascii_of_string "abcdef") 2 5
    = [loop_warning 2 5].
Proof.
  apply (chunk_text_misconfigured_runs_once
           (String.list_ascii_of_string "abcdef") 2 5).
  lia.
Defined.

(** C1 fails as stated: with [chunk_size = 2 <= chunk_overlap = 5] the
    chunker runs its loop body once and returns a chunk. *)
Lemma chunk_text_misconfigured_counterexample :
  ∃ (text : list ascii) (size overlap : Z),
    size <= overlap
    ∧ iterations text size overlap ≠ 0%nat
    ∧ chunk_text text size overlap = [String.list_ascii_of_string "ab"].
Proof.
  exists (String.list_ascii_of_string "abcdef"), 2, 5.
  split; [lia|]. split; [by vm_compute|reflexivity].
Qed.

(** C2 (as the code has it). For [chunk_size > chunk_overlap >= 0] the
    chunks, each after the first without its leading [chunk_overlap]
    elements, concatenate to the text; the number of chunks is 0 for the
    empty text, [ceil ((len - overlap) / (size - overlap))] when the text is
    longer than the overlap, and 1 for any other text. *)
Theorem chunk_text_reconstructs_and_counts {A} (text : list A) (size overlap : Z) :
  0 <= overlap < size →
  strip_overlaps overlap (chunk_text text size overlap) = text
  ∧ Z.of_nat (length (chunk_text text size overlap))
    = match text with
      | [] => 0
      | _ => if overlap <? Z.of_nat (length text)
             then ceil_div (Z.of_nat (length text) - overlap) (size - overlap)
             else 1
      end.
Proof.
  intros Hov. split; [by apply chunk_text_strip|].
  destruct text as [|c text]; [done|]. by apply chunk_text_count.
Qed.

Lemma chunk_text_reconstructs_and_counts_witness :
  strip_overlaps 1 (chunk_text (String.list_ascii_of_string "abcdefghij") 4 1)
  = String.list_ascii_of_string "abcdefghij"
  ∧ Z.of_nat (length (chunk_text (String.list_ascii_of_string "abcdefghij") 4 1))
    = ceil_div (10 - 1) (4 - 1).
Proof.
  apply (chunk_text_reconstructs_and_counts
           (String.list_ascii_of_string "abcdefghij") 4 1).
  lia.
Defined.

(** C2 fails as stated on the empty text: it is not longer than the
    overlap, and it has no chunk rather than one. *)
Lemma chunk_count_counterexample :
  ∃ (text : list ascii) (size overlap : Z),
    0 <= overlap < size
    ∧ ¬ (overlap < Z.of_nat (length text))
    ∧ length (chunk_text text size overlap) ≠ 1%nat.
Proof.
  exists [], default_chunk_size, default_chunk_overlap.
  unfold default_chunk_size, default_chunk_overlap. simpl.
  split; [lia|]. split; [lia|done].
Qed.

(** C8 (as the code has it). The chunker returns the empty sequence for
    the empty text and for no other text: a text of whitespace is chunked
    like any other. *)
Theorem chunk_text_empty_iff {A} (text : list A) (size overlap : Z) :
  chunk_text text size overlap = [] ↔ text = [].
Proof.
  split; [|by intros ->].
  intros Hnil. destruct (decide (text = [])) as [|Hne]; [done|].
  by destruct (chunk_text_not_nil text size overlap Hne).
Qed.

(** C8 fails as stated: a single space is blank and gives one chunk. *)
Lemma chunk_text_blank_counterexample :
  ∃ text : list ascii,
    blank text
    ∧ chunk_text text default_chunk_size default_chunk_overlap = [text].
Proof.
  exists [" "%char]. split; [|reflexivity].
  by repeat constructor.
Qed.

(** C10 (as the code has it). The chunker returns for all integers
    [chunk_size] and [chunk_overlap]: any fuel above the length of the text
    gives the same list. With [chunk_size <= chunk_overlap] on a text longer
    than [chunk_size] the list is the one chunk [text[0:chunk_size]]: the
    first [chunk_size] elements when [chunk_size >= 0], and the text
    without its last [- chunk_size] elements when [chunk_size < 0]. *)
Theorem chunk_text_terminates {A} (text : list A) (size overlap : Z) :
  (∀ fuel, (length text < fuel)%nat →
     chunk_text_fuel fuel text size overlap
     = Some (chunk_text text size overlap, chunk_text_printed text size overlap))
  ∧ (size <= overlap → text ≠ [] → size < Z.of_nat (length text) →
     chunk_text text size overlap = [py_slice text 0 size]
     ∧ (0 <= size → py_slice text 0 size = take (Z.to_nat size) text)
     ∧ (size < 0 →
        py_slice text 0 size = take (Z.to_nat (Z.of_nat (length text) + size)) text)).
Proof.
  split.
  { intros fuel Hfuel. rewrite <-chunk_text_run_eq. by apply chunk_text_fuel_enough. }
  intros Hle Hne Hlen. split_and!.
  - destruct (chunk_text_one_pass text size overlap Hne Hle) as [-> _].
    by rewrite Z.min_l by lia.
  - apply py_slice_prefix.
  - apply py_slice_negative_stop.
Qed.

Lemma chunk_text_terminates_witness :
  chunk_text_fuel 7 (String.list_ascii_of_string "abcdef") 2 5
  = Some ([String.list_ascii_of_string "ab"], [loop_warning 2 5])
  ∧ chunk_text (String.list_ascii_of_string "abcdef") (-2) 0
    = [String.list_ascii_of_string "abcd"].
Proof.
  split.
  - apply (proj1 (chunk_text_terminates (String.list_ascii_of_string "abcdef") 2 5)).
    simpl. lia.
  - apply (proj1 (proj2 (chunk_text_terminates
                           (String.list_ascii_of_string "abcdef") (-2) 0)
                    ltac:(lia) ltac:(done) ltac:(simpl; lia))).
Defined.

(** C10 fails as stated for a negative [chunk_size]: the one chunk of
    ["abcdef"] with [chunk_size = -2] is ["abcd"], not the first
    [min(-2, 6)] characters. *)
Lemma chunk_text_negative_size_counterexample :
  ∃ (text : list ascii) (size overlap : Z),
    size <= overlap ∧ text ≠ [] ∧ size < Z.of_nat (length text)
    ∧ chunk_text text size overlap = [String.list_ascii_of_string "abcd"]
    ∧ chunk_text text size overlap
      ≠ [take (Z.to_nat (Z.min size (Z.of_nat (length text)))) text].
Proof.
  exists (String.list_ascii_of_string "abcdef"), (-2), 0.
  split; [lia|]. split; [done|]. split; [simpl; lia|].
  split; [reflexivity|by vm_compute].
Qed.
End ChunkerClaims.

(** ** The pipeline: results *)

Module PipelineClaims.
Import RunFacts StoreFacts.

(** C7. Retrieval on the empty query string returns the empty sequence and
    leaves the world as it was, whatever the environment: the embedding
    provider is not called (the trace of its calls is unchanged) and its
    behaviour cannot change the result. *)
Theorem retrieve_empty_query_returns_nothing (env : Env)
    (filters : option metadata) (n_results : Z) (w : World) :
  retrieve_relevant_chunks env "" filters n_results w = (Returned [], w)
  ∧ embedding_calls (retrieve_relevant_chunks env "" filters n_results w).2
    = embedding_calls w.
Proof.
  assert (retrieve_relevant_chunks env "" filters n_results w = (Returned [], w)) as ->;
    [|done].
  unfold retrieve_relevant_chunks, bind, get_collection. simpl.
  by rewrite orb_true_r.
Qed.

(** A document without chunks plans no call and no record. *)
Lemma planned_nothing (env : Env) path title ct w :
  truthy_str (document_text env path) = false ∨ document_chunks env path = [] →
  planned_chunks env path w = [] ∧ planned_records env path title ct w = [].
Proof.
  intros Hdoc.
  assert (document_chunks env path = []) as Hchunks.
  { destruct Hdoc as [Htext|]; [|done]. unfold document_chunks. by rewrite Htext. }
  assert (planned_chunks env path w = []) as Hplan.
  { unfold planned_chunks. by destruct (collection w). }
  split; [done|]. unfold planned_records. by rewrite Hplan.
Qed.

(** C4 (as the code has it). [ingest_document] returns [None] on every
    path and never raises: no count is returned. The number of records
    written is only printed: on an initialised collection, when records are
    handed to the store and the write is accepted, that many records are
    written and the last line printed is the success line with that number.
    When the file cannot be read, has an unsupported extension, holds no
    text, or gives no chunk, nothing is written: the store and the trace of
    its calls are unchanged, and the embedding provider is not called. *)
Theorem ingest_document_returns_None (env : Env)
    (file_path document_title content_type : string) (w : World) :
  ∃ w', ingest_document env file_path document_title content_type w
        = (Returned PyNone, w')
        ∧ (truthy_str (document_text env file_path) = false
           ∨ document_chunks env file_path = [] →
           collection w' = collection w
           ∧ add_calls w' = add_calls w
           ∧ records_written (add_calls w') = records_written (add_calls w)
           ∧ embedding_calls w' = embedding_calls w)
        ∧ (let records := planned_records env file_path document_title
                            content_type w in
           is_Some (collection w) →
           records ≠ [] →
           chroma_add_raises env (length (add_calls w)) records = None →
           records_written (add_calls w')
           = (records_written (add_calls w) + length records)%nat
           ∧ last (stdout w')
             = Some ("Successfully added " +:+ pretty (length records)
                     +:+ " chunks from " +:+ document_title +:+ " to ChromaDB.")).
Proof.
  destruct (ingest_document_run env file_path document_title content_type w)
    as (w' & Hrun & Heff).
  exists w'. split; [done|]. cbn zeta in Heff. split.
  - intros Hdoc.
    destruct (planned_nothing env file_path document_title content_type w Hdoc)
      as [Hchunks Hrecs].
    rewrite Hchunks, Hrecs in Heff. simpl in Heff.
    destruct (effects_silent _ _ Heff) as (Hc & He & Ha).
    by rewrite Ha.
  - intros records [st Hst] Hne Hok. split.
    + destruct Heff as (_ & _ & -> & _). fold records. unfold planned_add_calls.
      destruct records as [|r rs] eqn:Hrecs; [done|]. rewrite <-Hrecs in *.
      rewrite Hok, bool_decide_eq_true_2 by done.
      apply ReportFacts.records_written_snoc.
    + destruct (ReportFacts.ingest_document_success_line env file_path
                  document_title content_type w st Hst Hne Hok)
        as (w'' & Hrun' & Hlast).
      rewrite Hrun in Hrun'. by injection Hrun' as <-.
Qed.

Lemma ingest_document_returns_None_witness :
  (∃ w', ingest_document sample_env "manual.pdf" "Manual" "ReferenceMaterial"
           sample_world
         = (Returned PyNone, w')
         ∧ collection w' = Some ∅
         ∧ add_calls w' = []
         ∧ embedding_calls w' = [])
  ∧ (∃ w', ingest_document sample_env "notes.txt" "My Notes" "ReferenceMaterial"
             sample_world
           = (Returned PyNone, w')
           ∧ records_written (add_calls w') = 2%nat
           ∧ last (stdout w')
             = Some "Successfully added 2 chunks from My Notes to ChromaDB.").
Proof.
  split.
  - destruct (ingest_document_returns_None sample_env "manual.pdf" "Manual"
                "ReferenceMaterial" sample_world) as (w' & Hrun & Hnothing & _).
    exists w'. split; [done|].
    destruct Hnothing as (Hcoll & Hadds & _ & Hcalls); [by left|].
    by rewrite Hcoll, Hadds, Hcalls.
  - destruct (ingest_document_returns_None sample_env "notes.txt" "My Notes"
                "ReferenceMaterial" sample_world) as (w' & Hrun & _ & Hwritten).
    exists w'. split; [done|].
    apply Hwritten; [by eexists|by vm_compute|reflexivity].
Defined.

(** C4 fails as stated: a run that writes two records returns [None], not
    their count. *)
Lemma ingest_document_count_counterexample :
  let run := ingest_document sample_env "notes.txt" "My Notes" "ReferenceMaterial"
               sample_world in
  records_written (add_calls run.2) = 2%nat
  ∧ run.1 = Returned PyNone
  ∧ run.1 ≠ Returned (PyInt 2).
Proof. vm_compute. split; [done|]. split; [done|discriminate]. Qed.
(** When the store accepts the write, the collection after a run holds the
    planned records on top of what it held. *)
Lemma apply_planned_add_calls (env : Env) n records (st : store) :
  chroma_add_raises env n records = None →
  apply_add_calls (Some st) (planned_add_calls env n records)
  = Some (upsert st records).
Proof.
  intros Hok. unfold planned_add_calls. destruct records as [|r rs]; [done|].
  simpl. by rewrite Hok.
Qed.

(** One run on an initialised collection whose write is accepted. *)
Lemma ingest_document_accepted (env : Env) path title ct w st :
  collection w = Some st →
  (∀ records, chroma_add_raises env (length (add_calls w)) records = None) →
  let records := embedded_records env (os_path_basename env path) title ct
                   (length (embedding_calls w)) 0 (document_chunks env path) in
  ∃ w', ingest_document env path title ct w = (Returned PyNone, w')
        ∧ embedding_calls w' = embedding_calls w ++ document_chunks env path
        ∧ add_calls w' = add_calls w ++ planned_add_calls env (length (add_calls w)) records
        ∧ collection w' = Some (upsert st records).
Proof.
  intros Hst Hok records.
  destruct (ingest_document_run env path title ct w) as (w' & Hrun & Heff).
  exists w'. split; [done|]. cbn zeta in Heff.
  unfold planned_records, planned_chunks in Heff. rewrite Hst in Heff.
  fold records in Heff. rewrite (apply_planned_add_calls _ _ _ _ (Hok records)) in Heff.
  by destruct Heff as (-> & -> & -> & _).
Qed.

(** C5. On an initialised collection whose write is accepted, a run of
    [ingest_document] asks the embedding provider for every chunk of the
    document, in order, whatever the provider answered before; a chunk whose
    embedding succeeds is stored under its id, and a chunk whose embedding
    fails leaves the store as it was under its id. *)
Theorem ingest_document_skips_failed_chunks_only (env : Env)
    (file_path document_title content_type : string) (w : World) (st : store) :
  collection w = Some st →
  (∀ records, chroma_add_raises env (length (add_calls w)) records = None) →
  ∃ w' st',
    ingest_document env file_path document_title content_type w = (Returned PyNone, w')
    ∧ embedding_calls w' = embedding_calls w ++ document_chunks env file_path
    ∧ collection w' = Some st'
    ∧ ∀ (j : nat) chunk,
        document_chunks env file_path !! j = Some chunk →
        match embedding_answer env (length (embedding_calls w) + j) chunk with
        | Some v =>
            st' !! chunk_id env document_title (Z.of_nat j + 1)
            = Some {| rec_embedding := v; rec_document := chunk;
                      rec_metadata :=
                        chunk_metadata (os_path_basename env file_path)
                          document_title content_type (Z.of_nat j + 1) chunk |}
        | None =>
            st' !! chunk_id env document_title (Z.of_nat j + 1)
            = st !! chunk_id env document_title (Z.of_nat j + 1)
        end.
Proof.
  intros Hst Hok.
  destruct (ingest_document_accepted env file_path document_title content_type w st
              Hst Hok) as (w' & Hrun & Hcalls & _ & Hcoll).
  eexists w', _. split_and!; [done..|].
  intros j chunk Hj.
  destruct (embedding_answer env (length (embedding_calls w) + j) chunk) as [v|] eqn:Hv.
  - apply upsert_lookup_in; [apply embedded_records_NoDup|].
    apply elem_of_embedded_records. by exists j, chunk, v.
  - apply upsert_lookup_notin.
    intros ([id r] & Hid & Hin)%list_elem_of_fmap. simpl in Hid.
    apply elem_of_embedded_records in Hin as (j' & chunk' & v' & Hj' & Hv' & [= -> ->]).
    apply chunk_id_inj in Hid.
    assert (j' = j) as -> by lia. congruence.
Qed.

Lemma ingest_document_skips_failed_chunks_only_witness :
  ∃ w' st',
    ingest_document sample_env "notes.txt" "My Notes" "ReferenceMaterial" sample_world
    = (Returned PyNone, w')
    ∧ length (embedding_calls w') = 3%nat
    ∧ collection w' = Some st'
    ∧ is_Some (st' !! "My_Notes_chunk_1")
    ∧ st' !! "My_Notes_chunk_2" = None
    ∧ is_Some (st' !! "My_Notes_chunk_3").
Proof.
  destruct (ingest_document_skips_failed_chunks_only sample_env "notes.txt" "My Notes"
              "ReferenceMaterial" sample_world ∅ eq_refl (λ _, eq_refl))
    as (w' & st' & Hrun & Hcalls & Hcoll & Hchunks).
  exists w', st'. split_and!; [done| |done|..].
  - rewrite Hcalls. by vm_compute.
  - specialize (Hchunks 0%nat _ eq_refl). vm_compute in Hchunks. by eexists.
  - specialize (Hchunks 1%nat _ eq_refl). vm_compute in Hchunks. exact Hchunks.
  - specialize (Hchunks 2%nat _ eq_refl). vm_compute in Hchunks. by eexists.
Defined.
(** The sanitised title of the code is the title of the specification with
    its non-alphanumeric characters replaced. *)
Lemma sane_title_spec (env : Env) title :
  sane_title env title
  = String.string_of_list_ascii
      (map (λ c, if str_isalnum env c then c else "_"%char)
         (String.list_ascii_of_string title)).
Proof. induction title as [|c title IH]; simpl; [done|]. by rewrite IH. Qed.

(** C6. The id under which the code stores a chunk is the id of the
    specification: the title with every non-alphanumeric character replaced
    by an underscore, then ["_chunk_"], then the sequence index in decimal.
    Every record that a run of [ingest_document] hands to the store carries
    such an id, for the 1-based index of its chunk, which is also the
    [chunk_sequence_id] of its metadata. *)
Theorem stored_record_id_scheme (env : Env)
    (file_path document_title content_type : string) (w : World) :
  (∀ chunk_sequence_id,
     chunk_id env document_title chunk_sequence_id
     = spec_record_id (str_isalnum env) document_title chunk_sequence_id)
  ∧ Forall
      (λ call,
         Forall
           (λ idr,
              ∃ j : nat,
                (j < length (document_chunks env file_path))%nat
                ∧ idr.1 = spec_record_id (str_isalnum env) document_title
                            (Z.of_nat j + 1)
                ∧ rec_metadata idr.2 !! "chunk_sequence_id"
                  = Some (MetaInt (Z.of_nat j + 1)))
           (add_records call))
      (drop (length (add_calls w))
         (add_calls (ingest_document env file_path document_title content_type w).2)).
Proof.
  assert (∀ n, chunk_id env document_title n
               = spec_record_id (str_isalnum env) document_title n) as Hid.
  { intros n. unfold chunk_id, spec_record_id. by rewrite sane_title_spec. }
  split; [done|].
  destruct (ingest_document_run env file_path document_title content_type w)
    as (w' & -> & Heff).
  cbn zeta in Heff. simpl. destruct Heff as (_ & _ & -> & _).
  rewrite drop_app_length. unfold planned_add_calls.
  destruct (planned_records _ _ _ _ _) as [|r rs] eqn:Hrecs; [constructor|].
  rewrite <-Hrecs. clear r rs Hrecs. repeat constructor. simpl.
  apply Forall_forall. intros idr Hin. unfold planned_records in Hin.
  apply elem_of_embedded_records in Hin as (j & chunk & v & Hj & _ & ->).
  exists j. split_and!.
  - apply lookup_lt_Some in Hj. unfold planned_chunks in Hj.
    destruct (collection w); [done|simpl in Hj; lia].
  - simpl. apply Hid.
  - done.
Qed.
(** C3. Ingesting the same document twice under the same title, on an
    initialised collection whose writes are accepted and with a provider
    that embeds the same chunks in both runs: the records of the second run
    have the ids of the records of the first, in the same order; after the
    second run the store holds the second run's record under each of these
    ids; and the store has the same ids, and as many records, as after the
    first run. *)
Theorem ingest_document_twice_overwrites (env : Env)
    (file_path document_title content_type : string) (w : World) (st : store) :
  collection w = Some st →
  (∀ n records, chroma_add_raises env n records = None) →
  let chunks := document_chunks env file_path in
  let call1 := length (embedding_calls w) in
  let call2 := (call1 + length chunks)%nat in
  (∀ (j : nat) chunk, chunks !! j = Some chunk →
     is_Some (embedding_answer env (call1 + j) chunk)
     ↔ is_Some (embedding_answer env (call2 + j) chunk)) →
  let records1 := embedded_records env (os_path_basename env file_path)
                    document_title content_type call1 0 chunks in
  let records2 := embedded_records env (os_path_basename env file_path)
                    document_title content_type call2 0 chunks in
  ∃ w1 w2 st1 st2,
    ingest_document env file_path document_title content_type w = (Returned PyNone, w1)
    ∧ ingest_document env file_path document_title content_type w1
      = (Returned PyNone, w2)
    ∧ collection w1 = Some st1 ∧ st1 = upsert st records1
    ∧ collection w2 = Some st2 ∧ st2 = upsert st1 records2
    ∧ records1.*1 = records2.*1
    ∧ (∀ id r, (id, r) ∈ records2 → st2 !! id = Some r)
    ∧ dom st2 = dom st1
    ∧ size st2 = size st1.
Proof.
  intros Hst Hok chunks call1 call2 Hsame records1 records2.
  destruct (ingest_document_accepted env file_path document_title content_type w st
              Hst (Hok _)) as (w1 & Hrun1 & Hcalls1 & _ & Hcoll1).
  destruct (ingest_document_accepted env file_path document_title content_type w1 _
              Hcoll1 (Hok _)) as (w2 & Hrun2 & _ & _ & Hcoll2).
  assert (length (embedding_calls w1) = call2) as Hcall2
    by (rewrite Hcalls1; apply length_app).
  rewrite Hcall2 in Hcoll2. fold chunks records1 in Hcoll1.
  fold chunks records2 in Hcoll2.
  assert (records1.*1 = records2.*1) as Hids
    by (by apply embedded_records_ids_pattern).
  assert (dom (upsert (upsert st records1) records2) = dom (upsert st records1))
    as Hdom.
  { rewrite !dom_upsert, <-Hids. by rewrite <-(assoc_L (∪)), (idemp_L (∪)). }
  exists w1, w2, (upsert st records1), (upsert (upsert st records1) records2).
  split_and!; try done.
  - intros id r Hin. apply upsert_lookup_in; [apply embedded_records_NoDup|done].
  - by rewrite <-!size_dom, Hdom.
Qed.

Lemma ingest_document_twice_overwrites_witness :
  ∃ w1 w2 st1 st2,
    ingest_document sample_env "notes.txt" "My Notes" "ReferenceMaterial" sample_world
    = (Returned PyNone, w1)
    ∧ ingest_document sample_env "notes.txt" "My Notes" "ReferenceMaterial" w1
      = (Returned PyNone, w2)
    ∧ collection w1 = Some st1 ∧ collection w2 = Some st2
    ∧ size st2 = size st1.
Proof.
  destruct (ingest_document_twice_overwrites sample_env "notes.txt" "My Notes"
              "ReferenceMaterial" sample_world ∅ eq_refl (λ _ _, eq_refl))
    as (w1 & w2 & st1 & st2 & Hrun1 & Hrun2 & Hc1 & _ & Hc2 & _ & _ & _ & _ & Hsize).
  - intros j chunk Hj.
    destruct j as [|[|[|j]]]; vm_compute in Hj; [| | |discriminate];
      vm_compute; split; intros [v Hv]; by eauto.
  - exists w1, w2, st1, st2. repeat split; assumption.
Defined.
(** C9 (as the code has it). On an initialised collection, when the
    embedding of the formatted interaction succeeds and the store accepts
    the write, logging an interaction returns [None] after exactly one
    embedding call and exactly one [collection.add] call of a single
    record, stored under the title's id with content type
    ["LiveInteraction"] and [chunk_sequence_id] 1. *)
Theorem ingest_interaction_text_one_record (env : Env)
    (user_input ai_response : string) (w : World) (st : store) (v : vector) :
  collection w = Some st →
  embedding_answer env (length (embedding_calls w))
    (interaction_text env user_input ai_response w) = Some v →
  chroma_add_raises env (length (add_calls w))
    [interaction_record env user_input ai_response w v] = None →
  let record := interaction_record env user_input ai_response w v in
  ∃ w',
    ingest_interaction_text env user_input ai_response w = (Returned PyNone, w')
    ∧ embedding_calls w'
      = embedding_calls w ++ [interaction_text env user_input ai_response w]
    ∧ add_calls w' = add_calls w ++ [{| add_records := [record]; add_ok := true |}]
    ∧ collection w' = Some (<[record.1 := record.2]> st)
    ∧ rec_metadata record.2 !! "content_type" = Some (MetaStr "LiveInteraction")
    ∧ rec_metadata record.2 !! "chunk_sequence_id" = Some (MetaInt 1).
Proof.
  intros Hst Hv Hok record.
  unfold ingest_interaction_text, bind at 1, get_collection. rewrite Hst.
  cbn beta iota zeta.
  unfold bind at 1. destruct (now_run env w) as (w1 & -> & Hw1).
  unfold bind at 1. destruct (now_run env w1) as (w2 & -> & Hw2).
  pose proof (effects_trans _ _ _ _ _ _ _ _ _ _ _ Hw1 Hw2) as Hw12.
  assert (clock_reads w1 = S (clock_reads w)) as ->
    by (destruct Hw1 as (_ & _ & _ & -> & _); lia).
  unfold bind at 1. run_print_as w3 Hw3.
  assert (collection w1 = Some st) as Hst1 by (destruct Hw1 as [-> _]; done).
  rewrite Hst1 in Hw12.
  assert (collection w2 = Some st) as Hst2 by (destruct Hw12 as [-> _]; done).
  rewrite Hst2 in Hw3.
  pose proof (effects_trans _ _ _ _ _ _ _ _ _ _ _ Hw12 Hw3) as Hw13.
  unfold bind at 1.
  match goal with
  | |- context [get_openai_embedding env ?text w3] =>
      destruct (get_openai_embedding_run env text w3) as (w4 & -> & Hw4)
  end.
  assert (collection w3 = Some st) as Hst3 by (destruct Hw13 as [-> _]; done).
  rewrite Hst3 in Hw4.
  assert (embedding_calls w3 = embedding_calls w) as Hcalls3
    by (destruct Hw13 as (_ & -> & _); by rewrite app_nil_r).
  rewrite Hcalls3. fold (interaction_timestamp env w).
  fold (interaction_text env user_input ai_response w).
  rewrite Hv.
  pose proof (effects_trans _ _ _ _ _ _ _ _ _ _ _ Hw13 Hw4) as Hw14.
  assert (collection w4 = Some st) as Hst4 by (destruct Hw14 as [-> _]; done).
  unfold bind at 1.
  edestruct guarded_add_run as (w5 & -> & Hw5); [exact Hst4|].
  unfold ret. eexists. split; [done|].
  pose proof (effects_trans _ _ _ _ _ _ _ _ _ _ _ Hw14 Hw5) as Hw15.
  assert (add_calls w4 = add_calls w) as Hadds4
    by (destruct Hw14 as (_ & _ & -> & _); by rewrite app_nil_r).
  rewrite Hadds4 in Hw15. unfold batch_records in Hw15. simpl in Hw15.
  fold (interaction_title env w) in Hw15.
  change (interaction_title env w +:+ "_chunk_1",
          {| rec_embedding := v;
             rec_document := interaction_text env user_input ai_response w;
             rec_metadata := interaction_metadata (interaction_title env w)
                               "LiveInteraction" (interaction_timestamp env w) |})
    with record in Hw15.
  fold record in Hok. rewrite Hok in Hw15.
  destruct Hw15 as (-> & -> & -> & _). by split_and!.
Qed.
Lemma ingest_interaction_text_one_record_witness :
  ∃ w' r,
    ingest_interaction_text sample_env "hi" "hello" sample_world = (Returned PyNone, w')
    ∧ length (embedding_calls w') = 1%nat
    ∧ length (add_calls w') = 1%nat
    ∧ collection w' = Some {[ "Interaction_20250601_093001_chunk_1" := r ]}
    ∧ rec_metadata r !! "content_type" = Some (MetaStr "LiveInteraction")
    ∧ rec_metadata r !! "chunk_sequence_id" = Some (MetaInt 1).
Proof.
  destruct (ingest_interaction_text_one_record sample_env "hi" "hello" sample_world ∅
              [PrimFloat.zero; PrimFloat.one] eq_refl eq_refl eq_refl)
    as (w' & Hrun & Hcalls & Hadds & Hcoll & Htype & Hseq).
  exists w', (interaction_record sample_env "hi" "hello" sample_world
                [PrimFloat.zero; PrimFloat.one]).2.
  split_and!; [done| | | |done..].
  - by rewrite Hcalls.
  - by rewrite Hadds.
  - rewrite Hcoll. reflexivity.
Defined.

(** C9 fails as stated: without an API key the embedding fails, and
    logging [("hi", "hello")] calls the provider once, writes nothing and
    stores no record. *)
Lemma ingest_interaction_text_counterexample :
  let run := ingest_interaction_text offline_env "hi" "hello" sample_world in
  run.1 = Returned PyNone
  ∧ length (embedding_calls run.2) = 1%nat
  ∧ add_calls run.2 = []
  ∧ collection run.2 = Some ∅.
Proof. vm_compute. by split_and!. Qed.
End PipelineClaims.

(** * Further properties *)

(** ** The chunker: windows, lengths and overlaps *)

Module ChunkerExtras.
Import ChunkerFacts.

Section Windows.
Context {A : Type}.
Implicit Types (text : list A).

(** A slice that starts inside the text and is [size >= 0] long at most. *)
Lemma py_slice_window text (s size : Z) :
  0 <= s < Z.of_nat (length text) → 0 <= size →
  py_slice text s (Z.min (s + size) (Z.of_nat (length text)))
  = take (Z.to_nat size) (drop (Z.to_nat s) text).
Proof.
  intros Hs Hsize. rewrite py_slice_in_range by lia.
  destruct (Z.le_gt_cases (s + size) (Z.of_nat (length text))).
  - rewrite Z.min_l by lia. f_equal. lia.
  - rewrite Z.min_r by lia. rewrite !take_ge; [done|rewrite length_drop; lia..].
Qed.

(** What the loop appends from a start offset [s], with a positive stride
    and a size that is not negative: the [k]-th chunk is the window of
    [size] elements at [s + k * stride], which starts inside the text; every
    chunk but the last ends before the end of the text, and the last one
    reaches it when the overlap is not negative. *)
Lemma chunk_loop_windows fuel text size overlap : ∀ s cs out,
  0 <= size → overlap < size → 0 <= s →
  chunk_loop fuel text size overlap s [] = Some (cs, out) →
  ∀ (k : nat) c, cs !! k = Some c →
    c = take (Z.to_nat size)
          (drop (Z.to_nat (s + Z.of_nat k * (size - overlap))) text)
    ∧ s + Z.of_nat k * (size - overlap) < Z.of_nat (length text)
    ∧ ((S k < length cs)%nat →
       s + Z.of_nat k * (size - overlap) + size < Z.of_nat (length text))
    ∧ (0 <= overlap → S k = length cs →
       Z.of_nat (length text) <= s + Z.of_nat k * (size - overlap) + size).
Proof.
  induction fuel as [|fuel IH]; intros s cs out Hsize Hov Hs Hrun k c Hk; [done|].
  rewrite chunk_loop_step in Hrun. cbv zeta in Hrun.
  destruct (Z.ltb_spec s (Z.of_nat (length text))); [|by simplify_eq].
  destruct (Z.leb_spec (size - overlap) 0); [lia|].
  destruct (Z.eqb_spec (Z.min (s + size) (Z.of_nat (length text)))
              (Z.of_nat (length text))) as [He|He].
  - simplify_eq. destruct k as [|k]; [|done]. simplify_eq/=.
    rewrite py_slice_window by lia.
    replace (s + Z.of_nat 0 * (size - overlap)) with s by lia.
    split_and!; [done|lia|lia|lia].
  - destruct (chunk_loop fuel text size overlap (s + (size - overlap)) [])
      as [[rest out']|] eqn:Hrest; [|done].
    simplify_eq/=. destruct k as [|k]; simplify_eq/=.
    + rewrite py_slice_window by lia.
      replace (s + Z.of_nat 0 * (size - overlap)) with s by lia.
      split_and!; [done|lia|lia|].
      intros Hpos Hlast. destruct rest as [|r rest]; [|done].
      destruct fuel as [|fuel]; [done|].
      rewrite chunk_loop_step in Hrest. cbv zeta in Hrest.
      destruct (Z.ltb_spec (s + (size - overlap)) (Z.of_nat (length text)));
        [|lia].
      destruct (_ =? _); [done|]. destruct (_ <=? _); [done|].
      by destruct (chunk_loop fuel _ _ _ _ _) as [[??]|].
    + destruct (IH (s + (size - overlap)) rest _ Hsize Hov ltac:(lia) Hrest k c Hk)
        as (Hc & Hin & Hmid & Hlast).
      replace (s + Z.of_nat (S k) * (size - overlap))
        with (s + (size - overlap) + Z.of_nat k * (size - overlap)) by lia.
      split_and!; [done|done|intros; apply Hmid; lia|intros; apply Hlast; lia].
Qed.
End Windows.

(** X1. For a size that is not negative and a smaller overlap, the [k]-th
    chunk is the window of [chunk_size] elements that starts at offset
    [k * (chunk_size - chunk_overlap)], and that offset lies inside the
    text. *)
Theorem chunk_text_window {A} (text : list A) (size overlap : Z) (k : nat) c :
  0 <= size → overlap < size →
  chunk_text text size overlap !! k = Some c →
  c = take (Z.to_nat size) (drop (Z.to_nat (Z.of_nat k * (size - overlap))) text)
  ∧ Z.of_nat k * (size - overlap) < Z.of_nat (length text).
Proof.
  intros Hsize Hov Hk. destruct (decide (text = [])) as [->|Hne]; [done|].
  destruct (chunk_loop_windows _ text size overlap 0 _ _ Hsize Hov ltac:(lia)
              (chunk_text_loop text size overlap Hne) k c Hk) as (Hc & Hin & _).
  by rewrite Z.add_0_l in Hc, Hin.
Qed.

Lemma chunk_text_window_witness :
  String.list_ascii_of_string "defg"
  = take 4 (drop 3 (String.list_ascii_of_string "abcdefghij"))
  ∧ 1 * (4 - 1) < 10.
Proof.
  apply (chunk_text_window (String.list_ascii_of_string "abcdefghij") 4 1 1
           (String.list_ascii_of_string "defg")); [lia|lia|reflexivity].
Defined.

(** X2. For [chunk_size > chunk_overlap >= 0], every chunk but the last
    has exactly [chunk_size] elements, and the last chunk has between 1 and
    [chunk_size] elements and is a suffix of the text. *)
Theorem chunk_text_lengths {A} (text : list A) (size overlap : Z) (k : nat) c :
  0 <= overlap < size →
  chunk_text text size overlap !! k = Some c →
  ((S k < length (chunk_text text size overlap))%nat →
   Z.of_nat (length c) = size)
  ∧ (S k = length (chunk_text text size overlap) →
     0 < Z.of_nat (length c) <= size
     ∧ c = drop (Z.to_nat (Z.of_nat k * (size - overlap))) text).
Proof.
  intros Hov Hk. destruct (decide (text = [])) as [->|Hne]; [done|].
  destruct (chunk_loop_windows _ text size overlap 0 _ _ ltac:(lia) ltac:(lia)
              ltac:(lia) (chunk_text_loop text size overlap Hne) k c Hk)
    as (Hc & Hin & Hmid & Hlast).
  rewrite Z.add_0_l in Hc, Hin, Hmid, Hlast.
  assert (0 <= Z.of_nat k * (size - overlap)) as Hoff by nia.
  revert Hc Hin Hmid Hlast Hoff. generalize (Z.of_nat k * (size - overlap)).
  intros off Hc Hin Hmid Hlast Hoff.
  split.
  - intros Hk'. specialize (Hmid Hk'). rewrite Hc, length_take, length_drop. lia.
  - intros Hk'. specialize (Hlast ltac:(lia) Hk'). split.
    + rewrite Hc, length_take, length_drop. lia.
    + rewrite Hc. apply take_ge. rewrite length_drop. lia.
Qed.

Lemma chunk_text_lengths_witness :
  ((2 < 3)%nat → Z.of_nat (length (String.list_ascii_of_string "defg")) = 4)
  ∧ (2%nat = 3%nat →
     0 < Z.of_nat (length (String.list_ascii_of_string "defg")) <= 4
     ∧ String.list_ascii_of_string "defg"
       = drop 3 (String.list_ascii_of_string "abcdefghij")).
Proof.
  apply (chunk_text_lengths (String.list_ascii_of_string "abcdefghij") 4 1 1
           (String.list_ascii_of_string "defg")); [lia|reflexivity].
Defined.

(** X3. For [chunk_size > chunk_overlap >= 0], two consecutive chunks
    share exactly the overlap: the last [chunk_overlap] elements of a chunk
    are the first [chunk_overlap] elements of the next one. *)
Theorem chunk_text_overlap_shared {A} (text : list A) (size overlap : Z)
    (k : nat) c1 c2 :
  0 <= overlap < size →
  chunk_text text size overlap !! k = Some c1 →
  chunk_text text size overlap !! S k = Some c2 →
  drop (Z.to_nat (size - overlap)) c1 = take (Z.to_nat overlap) c2
  ∧ Z.of_nat (length (take (Z.to_nat overlap) c2)) = overlap.
Proof.
  intros Hov Hk1 Hk2. destruct (decide (text = [])) as [->|Hne]; [done|].
  pose proof (chunk_text_loop text size overlap Hne) as Hrun.
  destruct (chunk_loop_windows _ text size overlap 0 _ _ ltac:(lia) ltac:(lia)
              ltac:(lia) Hrun k c1 Hk1) as (Hc1 & _ & Hmid & _).
  destruct (chunk_loop_windows _ text size overlap 0 _ _ ltac:(lia) ltac:(lia)
              ltac:(lia) Hrun (S k) c2 Hk2) as (Hc2 & Hin2 & _).
  rewrite Z.add_0_l in Hc1, Hc2, Hin2, Hmid.
  apply lookup_lt_Some in Hk2. specialize (Hmid Hk2).
  replace (Z.of_nat (S k) * (size - overlap))
    with (Z.of_nat k * (size - overlap) + (size - overlap)) in Hc2, Hin2 by lia.
  assert (0 <= Z.of_nat k * (size - overlap)) as Hoff by nia.
  revert Hc1 Hc2 Hin2 Hmid Hoff. generalize (Z.of_nat k * (size - overlap)).
  intros off Hc1 Hc2 Hin2 Hmid Hoff.
  assert (take (Z.to_nat overlap) c2
          = take (Z.to_nat overlap)
              (drop (Z.to_nat (off + (size - overlap))) text)) as Hc2'.
  { rewrite Hc2, take_take. f_equal. lia. }
  split.
  - rewrite Hc2', Hc1.
    replace (Z.to_nat (off + (size - overlap)))
      with (Z.to_nat off + Z.to_nat (size - overlap))%nat by lia.
    rewrite <-drop_drop.
    rewrite (take_drop_commute (drop (Z.to_nat off) text) (Z.to_nat overlap)
               (Z.to_nat (size - overlap))).
    do 2 f_equal. lia.
  - rewrite Hc2', length_take, length_drop. lia.
Qed.

Lemma chunk_text_overlap_shared_witness :
  drop 3 (String.list_ascii_of_string "abcd")
  = take 1 (String.list_ascii_of_string "defg")
  ∧ Z.of_nat (length (take 1 (String.list_ascii_of_string "defg"))) = 1.
Proof.
  apply (chunk_text_overlap_shared (String.list_ascii_of_string "abcdefghij") 4 1 0
           (String.list_ascii_of_string "abcd") (String.list_ascii_of_string "defg"));
    [lia|reflexivity|reflexivity].
Defined.

(** X4. On a text that is not empty, [chunk_text] prints its warning
    exactly when [chunk_size <= chunk_overlap] and the text is longer than
    [chunk_size]; a chunker with [chunk_size > chunk_overlap] never prints. *)
Theorem chunk_text_warns_iff {A} (text : list A) (size overlap : Z) :
  chunk_text_printed text size overlap
  = match text with
    | [] => []
    | _ => if (size <=? overlap) && (size <? Z.of_nat (length text))
           then [loop_warning size overlap] else []
    end.
Proof.
  destruct text as [|c text]; [done|].
  destruct (Z.leb_spec size overlap) as [Hle|Hlt];
    [rewrite andb_true_l|rewrite andb_false_l].
  - destruct (ChunkerClaims.chunk_text_one_pass (c :: text) size overlap
                ltac:(done) Hle) as [_ ->].
    destruct (Z.leb_spec (Z.of_nat (length (c :: text))) size),
             (Z.ltb_spec size (Z.of_nat (length (c :: text))));
      try done; exfalso; lia.
  - by apply ChunkerClaims.chunk_text_silent.
Qed.
End ChunkerExtras.

(** ** Retrieval *)

Module RetrievalExtras.
Import RunFacts.

Lemma reads_only_ret {A} (a : A) : reads_only (ret a).
Proof. exists (Returned a). by split. Qed.

Lemma reads_only_bind {A B} (m : M A) (f : A → M B) :
  reads_only m → (∀ a, reads_only (f a)) → reads_only (bind m f).
Proof.
  intros ([a|e] & Hm & He) Hf.
  - destruct (Hf a) as (o & Hfa & Hfe). exists o. split; [|done].
    intros w. unfold bind. by rewrite Hm.
  - exists (Raised e). split; [|by intros ? [= <-]; apply He].
    intros w. unfold bind. by rewrite Hm.
Qed.

Lemma reads_only_index {A} (row : list A) i : reads_only (index row i).
Proof.
  unfold index. destruct (row !! i); [apply reads_only_ret|].
  exists (Raised index_error). split; [done|]. by intros ? [= <-].
Qed.

Lemma reads_only_format_result results ids0 i :
  reads_only (format_result results ids0 i).
Proof.
  unfold format_result.
  repeat first
    [ apply reads_only_bind; [|intros ?]
    | apply reads_only_ret
    | apply reads_only_index
    | match goal with |- reads_only (match ?x with _ => _ end) => destruct x end ].
Qed.

Lemma reads_only_format_results results ids0 indices : ∀ formatted,
  reads_only (format_results results ids0 indices formatted).
Proof.
  induction indices as [|i indices IH]; intros formatted; simpl.
  - apply reads_only_ret.
  - apply reads_only_bind; [apply reads_only_format_result|]. intros r. apply IH.
Qed.

Section WithEnv.
Variable env : Env.

(** One run of retrieval on an initialised collection and a query that is
    not empty: the provider is asked once, nothing else changes, and the
    result is decided by the provider's and the store's answers. *)
Lemma retrieve_run c query filters n_results st w :
  collection w = Some st →
  ∃ o w',
    retrieve_relevant_chunks env (String c query) filters n_results w = (o, w')
    ∧ effects w w' [String c query] [] 0 (Some st)
    ∧ match embedding_answer env (length (embedding_calls w)) (String c query) with
      | None => o = Returned []
      | Some v =>
          match chroma_query env st v n_results filters with
          | Raised e => o = Returned []
          | Returned results =>
              match first_row (qr_ids results) with
              | None => o = Returned []
              | Some ids0 =>
                  ∀ w'',
                    (format_results results ids0 (seq 0 (length ids0)) [] w'').1 = o
              end
          end
      end.
Proof.
  intros Hst. unfold retrieve_relevant_chunks, bind at 1, get_collection.
  rewrite Hst. simpl (negb _ || negb _). cbn beta iota.
  unfold bind at 1.
  destruct (get_openai_embedding_run env (String c query) w) as (w1 & -> & Hw1).
  rewrite Hst in Hw1.
  destruct (embedding_answer env _ (String c query)) as [v|].
  2:{ exists (Returned []), w1. by split_and!. }
  assert (collection w1 = Some st) as Hst1 by (destruct Hw1 as [-> _]; done).
  unfold bind at 1, try_except, collection_query. unfold bind at 1. rewrite Hst1.
  destruct (chroma_query env st v n_results filters) as [results|e]; cbn beta iota.
  - unfold ret at 1. cbn beta iota.
    destruct (first_row (qr_ids results)) as [ids0|];
      [|exists (Returned []), w1; by split_and!].
    destruct (reads_only_format_results results ids0 (seq 0 (length ids0)) [])
      as (o & Ho & _).
    exists o, w1. rewrite Ho. split_and!; [done..|]. intros w''. by rewrite Ho.
  - unfold bind. run_print_as w2 Hw2. unfold ret. cbn beta iota.
    exists (Returned []), w2. split_and!; [done| |done].
    rewrite Hst1 in Hw2.
    pose proof (effects_trans _ _ _ _ _ _ _ _ _ _ _ Hw1 Hw2) as H.
    by rewrite app_nil_r in H.
Qed.
End WithEnv.

(** X5. Retrieval only reads: whatever the query, the filters and the
    environment, it leaves the collection, the trace of store writes and
    the clock as they were, and it asks the embedding provider at most once,
    for the query itself. *)
Theorem retrieve_reads_only (env : Env) (query_text : string)
    (filters : option metadata) (n_results : Z) (w : World) :
  let w' := (retrieve_relevant_chunks env query_text filters n_results w).2 in
  collection w' = collection w
  ∧ add_calls w' = add_calls w
  ∧ clock_reads w' = clock_reads w
  ∧ (embedding_calls w' = embedding_calls w
     ∨ embedding_calls w' = embedding_calls w ++ [query_text]).
Proof.
  destruct (collection w) as [st|] eqn:Hst.
  - destruct query_text as [|c query].
    + unfold retrieve_relevant_chunks, bind, get_collection. rewrite Hst.
      simpl. by split_and!; [..|left].
    + destruct (retrieve_run env c query filters n_results st w Hst)
        as (o & w' & -> & (Hc & He & Ha & Ht & _) & _).
      simpl. rewrite Hc, He, Ha, Ht, app_nil_r, Nat.add_0_r.
      by split_and!; [..|right].
  - unfold retrieve_relevant_chunks, bind, get_collection. rewrite Hst.
    simpl. by split_and!; [..|left].
Qed.

(** X6. Retrieval degrades to the empty sequence: on an initialised
    collection and a query that is not empty, it returns [[]] without
    raising when the embedding of the query fails, and also when the
    embedding succeeds but the store's query raises. *)
Theorem retrieve_degrades_to_empty (env : Env) (query_text : string)
    (filters : option metadata) (n_results : Z) (w : World) (st : store) :
  collection w = Some st →
  query_text ≠ "" →
  embedding_answer env (length (embedding_calls w)) query_text = None
  ∨ (∃ v e,
       embedding_answer env (length (embedding_calls w)) query_text = Some v
       ∧ chroma_query env st v n_results filters = Raised e) →
  (retrieve_relevant_chunks env query_text filters n_results w).1 = Returned [].
Proof.
  intros Hst Hq Hfail. destruct query_text as [|c query]; [done|].
  destruct (retrieve_run env c query filters n_results st w Hst)
    as (o & w' & -> & _ & Hres).
  simpl. destruct Hfail as [Hnone|(v & e & Hv & Hraise)].
  - by rewrite Hnone in Hres.
  - by rewrite Hv, Hraise in Hres.
Qed.

Lemma retrieve_degrades_to_empty_witness :
  (retrieve_relevant_chunks failing_query_env "what is truth" None 3 sample_world).1
  = Returned [].
Proof.
  apply (retrieve_degrades_to_empty failing_query_env "what is truth" None 3
           sample_world ∅); [reflexivity|done|].
  right. by eexists _, _.
Defined.

(** X7. The only exception retrieval lets through is the [IndexError] of
    formatting a store answer with a row shorter than its row of ids:
    every other failure of the provider or the store ends in a returned
    list. *)
Theorem retrieve_raises_only_index_error (env : Env) (query_text : string)
    (filters : option metadata) (n_results : Z) (w : World) :
  (∃ chunks,
     (retrieve_relevant_chunks env query_text filters n_results w).1 = Returned chunks)
  ∨ (retrieve_relevant_chunks env query_text filters n_results w).1
    = Raised (IndexError "list index out of range").
Proof.
  destruct (collection w) as [st|] eqn:Hst.
  2:{ left. exists []. unfold retrieve_relevant_chunks, bind, get_collection.
      by rewrite Hst. }
  destruct query_text as [|c query].
  { left. exists []. unfold retrieve_relevant_chunks, bind, get_collection.
    by rewrite Hst. }
  destruct (retrieve_run env c query filters n_results st w Hst)
    as (o' & w' & -> & _ & Hres).
  simpl. destruct (embedding_answer env _ _) as [v|]; [|by eauto].
  destruct (chroma_query env st v n_results filters) as [results|e]; [|by eauto].
  destruct (first_row (qr_ids results)) as [ids0|]; [|by eauto].
  destruct (reads_only_format_results results ids0 (seq 0 (length ids0)) [])
    as (o & Ho & He).
  rewrite <-(Hres w), Ho. simpl. destruct o as [rs|e]; [by eauto|].
  right. by rewrite (He e eq_refl).
Qed.
(** The records of an answer whose four rows are present: one per id, in
    the order of the ids. *)
Lemma format_results_rows results ids0 ds docs metas :
  first_row (qr_distances results) = Some ds →
  first_row (qr_documents results) = Some docs →
  first_row (qr_metadatas results) = Some metas →
  length ds = length ids0 → length docs = length ids0 →
  length metas = length ids0 →
  let records :=
    zip_with (λ idd dm, {| rc_id := idd.1; rc_text_chunk := dm.1;
                           rc_metadata := dm.2;
                           rc_similarity_score :=
                             Some (PrimFloat.sub PrimFloat.one idd.2) |})
      (zip ids0 ds) (zip docs metas) in
  ∀ (n k : nat) formatted w,
    (k + n)%nat = length ids0 →
    format_results results ids0 (seq k n) formatted w
    = (Returned (formatted ++ drop k records), w).
Proof.
  intros Hds Hdocs Hmetas Hlds Hldocs Hlmetas records.
  assert (length records = length ids0) as Hlen
    by (unfold records; rewrite !length_zip_with; lia).
  induction n as [|n IH]; intros k formatted w Hk; simpl.
  { rewrite drop_ge by lia. by rewrite app_nil_r. }
  destruct (lookup_lt_is_Some_2 ids0 k ltac:(lia)) as [id Hid].
  destruct (lookup_lt_is_Some_2 ds k ltac:(lia)) as [d Hd].
  destruct (lookup_lt_is_Some_2 docs k ltac:(lia)) as [doc Hdoc].
  destruct (lookup_lt_is_Some_2 metas k ltac:(lia)) as [m Hm].
  assert (records !! k
          = Some {| rc_id := id; rc_text_chunk := doc; rc_metadata := m;
                    rc_similarity_score := Some (PrimFloat.sub PrimFloat.one d) |})
    as Hrec.
  { unfold records. rewrite lookup_zip_with, !lookup_zip_with. simpl.
    by rewrite Hid, Hd, Hdoc, Hm. }
  unfold bind at 1, format_result. rewrite Hds, Hdocs, Hmetas.
  unfold bind, index, ret. rewrite Hd, Hid, Hdoc, Hm.
  rewrite IH by lia. rewrite (drop_S _ _ _ Hrec), <-app_assoc. done.
Qed.

(** X8. When the embedding of the query succeeds and the store answers
    with rows of ids, distances, documents and metadata of one length,
    retrieval returns one record per id, in the order of the ids, each with
    its document, its metadata and the similarity score [1 - distance]. *)
Theorem retrieve_formats_answer (env : Env) (query_text : string)
    (filters : option metadata) (n_results : Z) (w : World) (st : store)
    (v : vector) (results : QueryResult) ids0 ds docs metas :
  collection w = Some st →
  query_text ≠ "" →
  embedding_answer env (length (embedding_calls w)) query_text = Some v →
  chroma_query env st v n_results filters = Returned results →
  first_row (qr_ids results) = Some ids0 →
  first_row (qr_distances results) = Some ds →
  first_row (qr_documents results) = Some docs →
  first_row (qr_metadatas results) = Some metas →
  length ds = length ids0 → length docs = length ids0 →
  length metas = length ids0 →
  (retrieve_relevant_chunks env query_text filters n_results w).1
  = Returned
      (zip_with (λ idd dm, {| rc_id := idd.1; rc_text_chunk := dm.1;
                              rc_metadata := dm.2;
                              rc_similarity_score :=
                                Some (PrimFloat.sub PrimFloat.one idd.2) |})
         (zip ids0 ds) (zip docs metas)).
Proof.
  intros Hst Hq Hv Hquery Hids Hds Hdocs Hmetas Hlds Hldocs Hlmetas.
  destruct query_text as [|c query]; [done|].
  destruct (retrieve_run env c query filters n_results st w Hst)
    as (o & w' & -> & _ & Hres).
  rewrite Hv, Hquery, Hids in Hres. simpl. rewrite <-(Hres w).
  by rewrite (format_results_rows results ids0 ds docs metas Hds Hdocs Hmetas
                Hlds Hldocs Hlmetas (length ids0) 0 [] w).
Qed.

Lemma retrieve_formats_answer_witness :
  (retrieve_relevant_chunks answering_env "what is truth" None 3 sample_world).1
  = Returned
      [ {| rc_id := "My_Notes_chunk_1"; rc_text_chunk := "first chunk";
           rc_metadata := {["document_title" := MetaStr "My Notes"]};
           rc_similarity_score := Some (PrimFloat.sub PrimFloat.one PrimFloat.zero) |};
        {| rc_id := "My_Notes_chunk_3"; rc_text_chunk := "third chunk";
           rc_metadata := {["document_title" := MetaStr "My Notes"]};
           rc_similarity_score := Some (PrimFloat.sub PrimFloat.one PrimFloat.one) |} ].
Proof.
  exact (retrieve_formats_answer answering_env "what is truth" None 3 sample_world ∅
           [PrimFloat.zero; PrimFloat.one] two_matches
           ["My_Notes_chunk_1"; "My_Notes_chunk_3"] [PrimFloat.zero; PrimFloat.one]
           ["first chunk"; "third chunk"]
           [ {["document_title" := MetaStr "My Notes"]};
             {["document_title" := MetaStr "My Notes"]} ]
           eq_refl ltac:(done) eq_refl eq_refl eq_refl eq_refl eq_refl eq_refl
           eq_refl eq_refl eq_refl).
Defined.
End RetrievalExtras.

(** ** The interaction log *)

Module InteractionExtras.
Import RunFacts StoreFacts.

(** One run of [ingest_interaction_text], on every path. *)
Lemma ingest_interaction_text_run (env : Env) user_input ai_response w :
  ∃ w',
    ingest_interaction_text env user_input ai_response w = (Returned PyNone, w')
    ∧ match collection w with
      | None => effects w w' [] [] 0 None
      | Some st =>
          let text := interaction_text env user_input ai_response w in
          match embedding_answer env (length (embedding_calls w)) text with
          | None => effects w w' [text] [] 2 (Some st)
          | Some v =>
              let record := interaction_record env user_input ai_response w v in
              let ok := bool_decide (chroma_add_raises env (length (add_calls w))
                                       [record] = None) in
              effects w w' [text] [{| add_records := [record]; add_ok := ok |}] 2
                (if ok then Some (<[record.1 := record.2]> st) else Some st)
          end
      end.
Proof.
  unfold ingest_interaction_text, bind at 1, get_collection.
  destruct (collection w) as [st|] eqn:Hst; cbn beta iota zeta.
  2:{ unfold bind. run_print_as w1 Hw1. unfold ret. rewrite Hst in Hw1. eauto. }
  unfold bind at 1. destruct (now_run env w) as (w1 & -> & Hw1).
  unfold bind at 1. destruct (now_run env w1) as (w2 & -> & Hw2).
  pose proof (effects_trans _ _ _ _ _ _ _ _ _ _ _ Hw1 Hw2) as Hw12.
  assert (clock_reads w1 = S (clock_reads w)) as ->
    by (destruct Hw1 as (_ & _ & _ & -> & _); lia).
  unfold bind at 1. run_print_as w3 Hw3.
  assert (collection w1 = Some st) as Hst1 by (destruct Hw1 as [-> _]; by rewrite Hst).
  rewrite Hst1 in Hw12.
  assert (collection w2 = Some st) as Hst2 by (destruct Hw12 as [-> _]; done).
  rewrite Hst2 in Hw3.
  pose proof (effects_trans _ _ _ _ _ _ _ _ _ _ _ Hw12 Hw3) as Hw13.
  unfold bind at 1.
  match goal with
  | |- context [get_openai_embedding env ?text w3] =>
      destruct (get_openai_embedding_run env text w3) as (w4 & -> & Hw4)
  end.
  assert (collection w3 = Some st) as Hst3 by (destruct Hw13 as [-> _]; done).
  rewrite Hst3 in Hw4.
  assert (embedding_calls w3 = embedding_calls w) as Hcalls3
    by (destruct Hw13 as (_ & -> & _); by rewrite app_nil_r).
  rewrite Hcalls3. fold (interaction_timestamp env w).
  fold (interaction_text env user_input ai_response w).
  pose proof (effects_trans _ _ _ _ _ _ _ _ _ _ _ Hw13 Hw4) as Hw14.
  simpl in Hw14.
  destruct (embedding_answer env _ _) as [v|].
  2:{ unfold bind. run_print_as w5 Hw5. unfold ret. eexists. split; [done|].
      assert (collection w4 = Some st) as Hst4 by (destruct Hw14 as [-> _]; done).
      rewrite Hst4 in Hw5.
      pose proof (effects_trans _ _ _ _ _ _ _ _ _ _ _ Hw14 Hw5) as H.
      by rewrite !app_nil_r in H. }
  assert (collection w4 = Some st) as Hst4 by (destruct Hw14 as [-> _]; done).
  unfold bind at 1.
  edestruct guarded_add_run as (w5 & -> & Hw5); [exact Hst4|].
  unfold ret. eexists. split; [done|].
  pose proof (effects_trans _ _ _ _ _ _ _ _ _ _ _ Hw14 Hw5) as Hw15.
  assert (add_calls w4 = add_calls w) as Hadds4
    by (destruct Hw14 as (_ & _ & -> & _); by rewrite app_nil_r).
  rewrite Hadds4 in Hw15. unfold batch_records in Hw15. simpl in Hw15.
  exact Hw15.
Qed.

(** X9. Logging an interaction returns [None] and never raises. On an
    initialised collection it reads the clock twice, asks the embedding
    provider exactly once, for the formatted interaction, and calls
    [collection.add] at most once, with a single record. *)
Theorem ingest_interaction_text_bounds (env : Env)
    (user_input ai_response : string) (w : World) (st : store) :
  collection w = Some st →
  ∃ w',
    ingest_interaction_text env user_input ai_response w = (Returned PyNone, w')
    ∧ clock_reads w' = (clock_reads w + 2)%nat
    ∧ embedding_calls w'
      = embedding_calls w ++ [interaction_text env user_input ai_response w]
    ∧ (add_calls w' = add_calls w
       ∨ ∃ record ok,
           add_calls w'
           = add_calls w ++ [{| add_records := [record]; add_ok := ok |}]).
Proof.
  intros Hst.
  destruct (ingest_interaction_text_run env user_input ai_response w)
    as (w' & Hrun & Heff).
  exists w'. split; [done|]. rewrite Hst in Heff. cbn zeta in Heff.
  destruct (embedding_answer env _ _) as [v|];
    destruct Heff as (_ & He & Ha & Ht & _); split_and!; try done.
  - right. by eexists _, _.
  - left. by rewrite app_nil_r in Ha.
Qed.

Lemma ingest_interaction_text_bounds_witness :
  ∃ w',
    ingest_interaction_text offline_env "hi" "hello" sample_world
    = (Returned PyNone, w')
    ∧ clock_reads w' = 2%nat
    ∧ length (embedding_calls w') = 1%nat.
Proof.
  destruct (ingest_interaction_text_bounds offline_env "hi" "hello" sample_world ∅
              eq_refl) as (w' & Hrun & Hclock & Hcalls & _).
  exists w'. split_and!; [done|done|by rewrite Hcalls].
Defined.

(** X10. When the embedding of the formatted interaction fails, logging
    writes nothing: [collection.add] is not called and the collection is
    as it was. *)
Theorem ingest_interaction_text_embedding_failure (env : Env)
    (user_input ai_response : string) (w : World) (st : store) :
  collection w = Some st →
  embedding_answer env (length (embedding_calls w))
    (interaction_text env user_input ai_response w) = None →
  ∃ w',
    ingest_interaction_text env user_input ai_response w = (Returned PyNone, w')
    ∧ add_calls w' = add_calls w
    ∧ collection w' = Some st.
Proof.
  intros Hst Hfail.
  destruct (ingest_interaction_text_run env user_input ai_response w)
    as (w' & Hrun & Heff).
  exists w'. split; [done|]. rewrite Hst in Heff. cbn zeta in Heff.
  rewrite Hfail in Heff. destruct Heff as (Hc & _ & Ha & _).
  by rewrite app_nil_r in Ha.
Qed.

Lemma ingest_interaction_text_embedding_failure_witness :
  ∃ w',
    ingest_interaction_text offline_env "hi" "hello" sample_world
    = (Returned PyNone, w')
    ∧ add_calls w' = []
    ∧ collection w' = Some ∅.
Proof.
  exact (ingest_interaction_text_embedding_failure offline_env "hi" "hello"
           sample_world ∅ eq_refl eq_refl).
Defined.
(** X19. Two interactions logged within one second collide: when the two
    clock readings that give the titles fall in the same second, both
    records get the same id, whatever the texts; with both embeddings
    successful and both writes accepted, the store then holds the second
    interaction under that id and the first one is gone. *)
Theorem interactions_in_one_second_collide (env : Env)
    (user1 reply1 user2 reply2 : string) (w : World) (st : store) (v1 v2 : vector) :
  collection w = Some st →
  (∀ n records, chroma_add_raises env n records = None) →
  let w1 := (ingest_interaction_text env user1 reply1 w).2 in
  let record1 := interaction_record env user1 reply1 w v1 in
  let record2 := interaction_record env user2 reply2 w1 v2 in
  strftime_compact (datetime_now env (S (clock_reads w)))
  = strftime_compact (datetime_now env (S (clock_reads w1))) →
  embedding_answer env (length (embedding_calls w))
    (interaction_text env user1 reply1 w) = Some v1 →
  embedding_answer env (length (embedding_calls w1))
    (interaction_text env user2 reply2 w1) = Some v2 →
  let w2 := (ingest_interaction_text env user2 reply2 w1).2 in
  record1.1 = record2.1
  ∧ collection w1 = Some (<[record1.1 := record1.2]> st)
  ∧ collection w2 = Some (<[record1.1 := record2.2]> st).
Proof.
  intros Hst Hok w1 record1 record2 Hsecond Hv1 Hv2 w2.
  assert (record1.1 = record2.1) as Hid.
  { unfold record1, record2, interaction_record, interaction_title. simpl.
    by rewrite Hsecond. }
  destruct (ingest_interaction_text_run env user1 reply1 w) as (w1' & Hrun1 & Heff1).
  rewrite Hst in Heff1. cbn zeta in Heff1. rewrite Hv1, Hok in Heff1.
  simpl in Heff1.
  assert (w1 = w1') as Hw1 by (unfold w1; by rewrite Hrun1).
  assert (collection w1 = Some (<[record1.1 := record1.2]> st)) as Hc1.
  { rewrite Hw1. by destruct Heff1 as [-> _]. }
  destruct (ingest_interaction_text_run env user2 reply2 w1) as (w2' & Hrun2 & Heff2).
  rewrite Hc1 in Heff2. cbn zeta in Heff2. rewrite Hv2, Hok in Heff2.
  simpl in Heff2.
  assert (w2 = w2') as Hw2 by (unfold w2; by rewrite Hrun2).
  split_and!; [done|done|].
  rewrite Hw2. destruct Heff2 as [-> _].
  change (Some (<[record2.1 := record2.2]> (<[record1.1 := record1.2]> st))
          = Some (<[record1.1 := record2.2]> st)).
  rewrite <-Hid. by rewrite insert_insert_eq.
Qed.

Lemma interactions_in_one_second_collide_witness :
  ∃ r,
    collection (ingest_interaction_text frozen_clock_env "and then" "so it goes"
                  (ingest_interaction_text frozen_clock_env "hi" "hello"
                     sample_world).2).2
    = Some {[ "Interaction_20250601_093007_chunk_1" := r ]}
    ∧ rec_document r
      = "Interaction at 2025-06-01 09:30:07:" +:+ nl +:+ "User: and then" +:+ nl
        +:+ "Aletheia: so it goes".
Proof.
  destruct (interactions_in_one_second_collide frozen_clock_env "hi" "hello"
              "and then" "so it goes" sample_world ∅ [PrimFloat.one] [PrimFloat.one]
              eq_refl (λ _ _, eq_refl) eq_refl eq_refl eq_refl)
    as (_ & _ & Hc2).
  eexists. split; [rewrite Hc2; reflexivity|reflexivity].
Defined.
End InteractionExtras.

(** ** Ingestion *)

Module IngestExtras.
Import RunFacts StoreFacts.

(** X11. While the collection is not initialised, the three entry points
    do nothing but print: [ingest_document] and [ingest_interaction_text]
    return [None] and retrieval returns the empty sequence, without a call
    of the embedding provider, of the store or of the clock. *)
Theorem uninitialised_collection_is_inert (env : Env)
    (file_path document_title content_type query_text user_input ai_response : string)
    (filters : option metadata) (n_results : Z) (w : World) :
  collection w = None →
  (∃ w', ingest_document env file_path document_title content_type w
         = (Returned PyNone, w')
         ∧ effects w w' [] [] 0 None)
  ∧ retrieve_relevant_chunks env query_text filters n_results w = (Returned [], w)
  ∧ (∃ w', ingest_interaction_text env user_input ai_response w
           = (Returned PyNone, w')
           ∧ effects w w' [] [] 0 None).
Proof.
  intros Hnone. split_and!.
  - destruct (ingest_document_run env file_path document_title content_type w)
      as (w' & Hrun & Heff).
    exists w'. split; [done|]. cbn zeta in Heff.
    unfold planned_records, planned_chunks in Heff. by rewrite Hnone in Heff.
  - unfold retrieve_relevant_chunks, bind, get_collection. by rewrite Hnone.
  - destruct (InteractionExtras.ingest_interaction_text_run env user_input
                ai_response w) as (w' & Hrun & Heff).
    exists w'. by rewrite Hnone in Heff.
Qed.

Lemma uninitialised_collection_is_inert_witness :
  retrieve_relevant_chunks sample_env "what is truth" None 3
    {| collection := None; embedding_calls := []; add_calls := [];
       clock_reads := 0; stdout := [] |}
  = (Returned [],
     {| collection := None; embedding_calls := []; add_calls := [];
        clock_reads := 0; stdout := [] |}).
Proof.
  apply (uninitialised_collection_is_inert sample_env "notes.txt" "My Notes"
           "ReferenceMaterial" "what is truth" "hi" "hello" None 3
           {| collection := None; embedding_calls := []; add_calls := [];
              clock_reads := 0; stdout := [] |} eq_refl).
Defined.

(** No chunk is embedded exactly when no record is planned. *)
Lemma embedded_records_nil (env : Env) fn title ct chunks : ∀ call i,
  (∀ (j : nat) chunk, chunks !! j = Some chunk →
     embedding_answer env (call + j) chunk = None) →
  embedded_records env fn title ct call i chunks = [].
Proof.
  induction chunks as [|c rest IH]; intros call i Hnone; simpl; [done|].
  pose proof (Hnone 0%nat c eq_refl) as H0. rewrite Nat.add_0_r in H0. rewrite H0.
  apply IH. intros j chunk Hj. specialize (Hnone (S j) chunk Hj).
  by replace (call + S j)%nat with (S call + j)%nat in Hnone by lia.
Qed.

(** X12. When the embedding provider fails for every chunk of a document,
    ingestion stores nothing: the provider was asked for every chunk,
    [collection.add] is not called, the collection is as it was, and the
    call returns [None] without raising. *)
Theorem ingest_document_all_embeddings_fail (env : Env)
    (file_path document_title content_type : string) (w : World) (st : store) :
  collection w = Some st →
  (∀ (j : nat) chunk, document_chunks env file_path !! j = Some chunk →
     embedding_answer env (length (embedding_calls w) + j) chunk = None) →
  ∃ w',
    ingest_document env file_path document_title content_type w = (Returned PyNone, w')
    ∧ embedding_calls w' = embedding_calls w ++ document_chunks env file_path
    ∧ add_calls w' = add_calls w
    ∧ collection w' = Some st.
Proof.
  intros Hst Hfail.
  destruct (ingest_document_run env file_path document_title content_type w)
    as (w' & Hrun & Heff).
  exists w'. split; [done|]. cbn zeta in Heff.
  unfold planned_records, planned_chunks in Heff. rewrite Hst in Heff.
  rewrite embedded_records_nil in Heff by done. simpl in Heff.
  destruct Heff as (-> & -> & -> & _). by rewrite app_nil_r.
Qed.

Lemma ingest_document_all_embeddings_fail_witness :
  ∃ w',
    ingest_document offline_env "notes.txt" "My Notes" "ReferenceMaterial" sample_world
    = (Returned PyNone, w')
    ∧ length (embedding_calls w') = 3%nat
    ∧ add_calls w' = []
    ∧ collection w' = Some ∅.
Proof.
  destruct (ingest_document_all_embeddings_fail offline_env "notes.txt" "My Notes"
              "ReferenceMaterial" sample_world ∅ eq_refl (λ _ _ _, eq_refl))
    as (w' & Hrun & Hcalls & Hadds & Hcoll).
  exists w'. split_and!; [done| |done..].
  rewrite Hcalls. by vm_compute.
Defined.

(** X13. A run of [ingest_document] calls [collection.add] at most once,
    and not at all when no chunk was embedded; the one call carries the
    records of all the embedded chunks, and their ids are pairwise
    distinct. *)
Theorem ingest_document_single_batch (env : Env)
    (file_path document_title content_type : string) (w : World) :
  ∃ w' calls,
    ingest_document env file_path document_title content_type w = (Returned PyNone, w')
    ∧ add_calls w' = add_calls w ++ calls
    ∧ (length calls <= 1)%nat
    ∧ (calls = [] ↔ planned_records env file_path document_title content_type w = [])
    ∧ Forall (λ call,
                add_records call
                = planned_records env file_path document_title content_type w
                ∧ NoDup (add_records call).*1) calls.
Proof.
  destruct (ingest_document_run env file_path document_title content_type w)
    as (w' & Hrun & Heff).
  cbn zeta in Heff. destruct Heff as (_ & _ & Hadds & _).
  pose proof (embedded_records_NoDup env (os_path_basename env file_path)
                document_title content_type (planned_chunks env file_path w)
                (length (embedding_calls w)) 0) as Hnd.
  fold (planned_records env file_path document_title content_type w) in Hnd.
  exists w', (planned_add_calls env (length (add_calls w))
                (planned_records env file_path document_title content_type w)).
  unfold planned_add_calls in *.
  destruct (planned_records _ _ _ _ _) as [|r rs].
  - split_and!; [done|done|simpl; lia|done|constructor].
  - split_and!; [done|done|simpl; lia|done|].
    apply Forall_singleton. by split.
Qed.
(** X14. Sanitising a title keeps its length, leaves only alphanumeric
    characters and underscores, and is idempotent: a title that is already
    sanitised is its own sanitised form. *)
Theorem sane_title_facts (env : Env) (document_title : string) :
  String.length (sane_title env document_title) = String.length document_title
  ∧ sane_title env (sane_title env document_title) = sane_title env document_title
  ∧ ∀ (n : nat) c,
      String.get n (sane_title env document_title) = Some c →
      c = "_"%char ∨ str_isalnum env c = true.
Proof.
  induction document_title as [|c title (IHlen & IHidem & IHchars)]; [done|].
  simpl. split_and!.
  - by rewrite IHlen.
  - rewrite IHidem. f_equal.
    destruct (str_isalnum env c) eqn:Hc; [by rewrite Hc|].
    by destruct (str_isalnum env "_").
  - intros [|n] c' Hget; simpl in Hget; [|by eapply IHchars].
    destruct (str_isalnum env c) eqn:Hc; simplify_eq; auto.
Qed.

(** X15. Two titles with the same sanitised form share their ids: on an
    initialised collection whose writes are accepted, after a document has
    been ingested under a second title that sanitises like a first one, the
    store holds the second document's records under the first title's ids,
    for every chunk of the second document that was embedded. *)
Theorem colliding_titles_overwrite (env : Env)
    (path1 path2 title1 title2 content_type : string) (w : World) (st : store) :
  collection w = Some st →
  (∀ n records, chroma_add_raises env n records = None) →
  sane_title env title1 = sane_title env title2 →
  ∃ w1 w2 st2,
    ingest_document env path1 title1 content_type w = (Returned PyNone, w1)
    ∧ ingest_document env path2 title2 content_type w1 = (Returned PyNone, w2)
    ∧ collection w2 = Some st2
    ∧ ∀ (j : nat) chunk v,
        document_chunks env path2 !! j = Some chunk →
        embedding_answer env (length (embedding_calls w1) + j) chunk = Some v →
        st2 !! chunk_id env title1 (Z.of_nat j + 1)
        = Some {| rec_embedding := v; rec_document := chunk;
                  rec_metadata :=
                    chunk_metadata (os_path_basename env path2) title2
                      content_type (Z.of_nat j + 1) chunk |}.
Proof.
  intros Hst Hok Hsame.
  destruct (PipelineClaims.ingest_document_accepted env path1 title1 content_type
              w st Hst (Hok _)) as (w1 & Hrun1 & _ & _ & Hcoll1).
  destruct (PipelineClaims.ingest_document_accepted env path2 title2 content_type
              w1 _ Hcoll1 (Hok _)) as (w2 & Hrun2 & _ & _ & Hcoll2).
  eexists w1, w2, _. split_and!; [done..|].
  intros j chunk v Hj Hv.
  assert (chunk_id env title1 (Z.of_nat j + 1) = chunk_id env title2 (Z.of_nat j + 1))
    as -> by (unfold chunk_id; by rewrite Hsame).
  apply upsert_lookup_in; [apply embedded_records_NoDup|].
  apply elem_of_embedded_records. by exists j, chunk, v.
Qed.

Lemma colliding_titles_overwrite_witness :
  ∃ w1 w2 st2,
    ingest_document sample_env "notes.txt" "My Notes" "ReferenceMaterial" sample_world
    = (Returned PyNone, w1)
    ∧ ingest_document sample_env "notes.txt" "My-Notes" "ReferenceMaterial" w1
      = (Returned PyNone, w2)
    ∧ collection w2 = Some st2
    ∧ ∃ r, st2 !! "My_Notes_chunk_1" = Some r
           ∧ rec_metadata r !! "document_title" = Some (MetaStr "My-Notes").
Proof.
  destruct (colliding_titles_overwrite sample_env "notes.txt" "notes.txt" "My Notes"
              "My-Notes" "ReferenceMaterial" sample_world ∅ eq_refl (λ _ _, eq_refl)
              eq_refl)
    as (w1 & w2 & st2 & Hrun1 & Hrun2 & Hcoll & Hchunks).
  exists w1, w2, st2. split_and!; [done..|].
  pose proof (PipelineClaims.ingest_document_accepted sample_env "notes.txt" "My Notes"
                "ReferenceMaterial" sample_world ∅ eq_refl (λ _, eq_refl))
    as (w1' & Hrun1' & Hcalls1 & _).
  rewrite Hrun1 in Hrun1'. injection Hrun1' as <-.
  eexists. split.
  - apply (Hchunks 0%nat _ [PrimFloat.zero; PrimFloat.one] eq_refl).
    rewrite Hcalls1. reflexivity.
  - reflexivity.
Defined.
(** [text[:n]] on a string is the substring of the first [n] characters. *)
Lemma take_substring (n : nat) (s : string) :
  String.string_of_list_ascii (take n (String.list_ascii_of_string s))
  = String.substring 0 n s.
Proof.
  revert n. induction s as [|c s IH]; intros [|n]; simpl; try done.
  by rewrite IH.
Qed.

Lemma str_prefix_substring (s : string) (n : nat) :
  str_prefix s (Z.of_nat n) = String.substring 0 n s.
Proof.
  unfold str_prefix, py_prefix.
  rewrite ChunkerFacts.py_slice_prefix by lia.
  rewrite Nat2Z.id. apply take_substring.
Qed.

(** X16. Every record that a run of [ingest_document] hands to the store
    holds one chunk of the document as its text, and metadata with the base
    name of the file, the title as given (not sanitised), the content type,
    and a preview made of the first 200 characters of the chunk followed by
    three dots, also when the chunk is shorter than 200 characters. *)
Theorem stored_record_metadata (env : Env)
    (file_path document_title content_type : string) (w : World) :
  Forall
    (λ call,
       Forall
         (λ idr,
            rec_document idr.2 ∈ document_chunks env file_path
            ∧ rec_metadata idr.2 !! "source_file_name"
              = Some (MetaStr (os_path_basename env file_path))
            ∧ rec_metadata idr.2 !! "document_title" = Some (MetaStr document_title)
            ∧ rec_metadata idr.2 !! "content_type" = Some (MetaStr content_type)
            ∧ rec_metadata idr.2 !! "original_text_preview"
              = Some (MetaStr (String.substring 0 200 (rec_document idr.2) +:+ "...")))
         (add_records call))
    (drop (length (add_calls w))
       (add_calls (ingest_document env file_path document_title content_type w).2)).
Proof.
  destruct (ingest_document_run env file_path document_title content_type w)
    as (w' & -> & Heff).
  cbn zeta in Heff. simpl. destruct Heff as (_ & _ & -> & _).
  rewrite drop_app_length. unfold planned_add_calls.
  destruct (planned_records _ _ _ _ _) as [|r rs] eqn:Hrecs; [constructor|].
  rewrite <-Hrecs. clear r rs Hrecs. apply Forall_singleton. simpl.
  apply Forall_forall. intros idr Hin. unfold planned_records in Hin.
  apply elem_of_embedded_records in Hin as (j & chunk & v & Hj & _ & ->).
  simpl. split_and!; try done.
  - unfold planned_chunks in Hj. destruct (collection w); [|done].
    by eapply list_elem_of_lookup_2.
  - unfold chunk_metadata. rewrite lookup_insert_eq.
    change 200 with (Z.of_nat 200). by rewrite str_prefix_substring.
Qed.

(** X17. The document loaders never raise: whatever [open], [read] or
    the document parser raise, the loader returns [None] after printing,
    and otherwise it returns the text, for a rich document the paragraphs
    joined by newlines. Nothing but the printed lines changes. *)
Theorem loaders_never_raise (env : Env) (file_path : string) (w : World) :
  (∃ w', load_text_file env file_path w
         = (Returned (match open_read env file_path with
                      | Returned content => Some content
                      | Raised _ => None
                      end), w')
         ∧ effects w w' [] [] 0 (collection w))
  ∧ (∃ w', load_docx_file env file_path w
           = (Returned (match docx_paragraphs env file_path with
                        | Returned paragraphs => Some (String.concat nl paragraphs)
                        | Raised _ => None
                        end), w')
           ∧ effects w w' [] [] 0 (collection w)).
Proof. split; [apply load_text_file_run|apply load_docx_file_run]. Qed.

(** X18. [get_openai_embedding] never raises and is recorded as one
    call: it returns [None] when no API key is set, whatever the service
    would answer, and when the service raises; it returns the vector when
    the service returns one. *)
Theorem get_openai_embedding_soft_fails (env : Env) (text_chunk : string)
    (w : World) :
  ∃ w', get_openai_embedding env text_chunk w
        = (Returned
             (if openai_api_key env then
                match openai_embeddings_create env (length (embedding_calls w))
                        text_chunk with
                | Returned embedding => Some embedding
                | Raised _ => None
                end
              else None), w')
        ∧ effects w w' [text_chunk] [] 0 (collection w).
Proof.
  destruct (get_openai_embedding_run env text_chunk w) as (w' & Hrun & Heff).
  exists w'. split; [|done]. rewrite Hrun. unfold embedding_answer.
  by destruct (openai_api_key env).
Qed.
End IngestExtras.

(** ** Batch ingestion *)

Module IngestAllExtras.
Import RunFacts StoreFacts.

Section WithEnv.
Variable host : HostEnv.
Variable env : Env.

Lemma apply_add_calls_None calls : apply_add_calls None calls = None.
Proof. induction calls as [|c calls IH]; simpl; [done|]. by destruct (add_ok c). Qed.

Lemma apply_add_calls_Some st calls : is_Some (apply_add_calls (Some st) calls).
Proof.
  revert st. induction calls as [|c calls IH]; intros st; simpl; [by eexists|].
  destruct (add_ok c); simpl; apply IH.
Qed.

Lemma planned_add_calls_length n records :
  (length (planned_add_calls env n records) ≤ 1)%nat.
Proof. unfold planned_add_calls. destruct records; simpl; lia. Qed.

(** One run of the loop over the manifest. *)
Lemma ingest_files_run items : ∀ ingested_count failed_count w,
  ∃ w',
    ingest_files host env items ingested_count failed_count w
    = (Returned ((ingested_count + length (existing_files host items))%nat,
                 (failed_count + (length items
                                  - length (existing_files host items)))%nat), w')
    ∧ embedding_calls w'
      = embedding_calls w
        ++ (if collection w is Some _ then manifest_chunks host env items else [])
    ∧ (is_Some (collection w) ↔ is_Some (collection w'))
    ∧ (collection w = None → add_calls w' = add_calls w)
    ∧ (length (add_calls w')
       ≤ length (add_calls w) + length (existing_files host items))%nat
    ∧ clock_reads w' = clock_reads w
    ∧ ∃ lines, stdout w' = stdout w ++ lines.
Proof.
  induction items as [|[filename [title content_type]] rest IH];
    intros i f w.
  { simpl. exists w. unfold ret, manifest_chunks. simpl.
    rewrite !Nat.add_0_r. split_and!; try done; try lia.
    - by destruct (collection w); rewrite app_nil_r.
    - exists []. by rewrite app_nil_r. }
  pose proof (length_filter (λ item, os_path_exists host
                (manifest_path host item.1 item.2.2) = true) rest) as Hle.
  fold (existing_files host rest) in Hle.
  unfold manifest_chunks. unfold existing_files. rewrite filter_cons.
  fold (existing_files host rest). fold (manifest_chunks host env rest).
  cbn [ingest_files fst snd].
  unfold bind at 1. run_print_as w1 Hw1.
  destruct (effects_silent _ _ Hw1) as (Hc1 & He1 & Ha1).
  assert (clock_reads w1 = clock_reads w) as Ht1
    by (destruct Hw1 as (_ & _ & _ & -> & _); lia).
  destruct (decide (os_path_exists host (manifest_path host filename content_type)
                    = true)) as [Hex|Hex].
  - rewrite Hex. unfold bind at 1. run_print_as w2 Hw2.
    destruct (effects_silent _ _ Hw2) as (Hc2 & He2 & Ha2).
    assert (clock_reads w2 = clock_reads w1) as Ht2
      by (destruct Hw2 as (_ & _ & _ & -> & _); lia).
    unfold bind at 1, try_except, bind at 1.
    destruct (ingest_document_run env (manifest_path host filename content_type)
                title content_type w2) as (w3 & -> & Hw3).
    cbn zeta in Hw3. unfold ret at 1. cbn beta iota.
    destruct Hw3 as (Hc3 & He3 & Ha3 & Ht3 & (l3 & Hl3)).
    destruct Hw1 as (_ & _ & _ & _ & (l1 & Hl1)).
    destruct Hw2 as (_ & _ & _ & _ & (l2 & Hl2)).
    destruct (IH (S i) f w3) as (w' & -> & He & Hc & Hn & Ha & Ht & (l & Hl)).
    exists w'. split; [do 2 f_equal; apply (f_equal2 pair); simpl; lia|].
    assert (is_Some (collection w) ↔ is_Some (collection w3)) as Hsome.
    { rewrite Hc3, Hc2, Hc1. destruct (collection w) as [st|].
      - split; [intros _; apply apply_add_calls_Some|by eexists].
      - rewrite apply_add_calls_None. done. }
    split_and!.
    + rewrite He, He3, He2, He1. unfold planned_chunks. rewrite Hc2, Hc1.
      destruct (collection w) as [st|] eqn:Hst.
      * destruct (proj1 Hsome) as [st3 ->]; [by eexists|].
        simpl. by rewrite <-app_assoc.
      * destruct (collection w3) as [st3|] eqn:Hst3.
        { destruct (proj2 Hsome) as [? ?]; [by eexists|done]. }
        by rewrite !app_nil_r.
    + by rewrite Hsome.
    + intros Hnone. rewrite Hn.
      * rewrite Ha3, Ha2, Ha1. unfold planned_records, planned_chunks.
        rewrite Hc2, Hc1, Hnone. simpl. by rewrite app_nil_r.
      * destruct (collection w3) eqn:Hst3; [|done].
        destruct (proj2 Hsome) as [? ?]; [by eexists|congruence].
    + etrans; [exact Ha|]. rewrite Ha3, length_app, Ha2, Ha1. simpl.
      pose proof (planned_add_calls_length (length (add_calls w2))
                    (planned_records env
                       (manifest_path host filename content_type) title
                       content_type w2)) as Hlen.
      rewrite Ha2, Ha1 in Hlen. lia.
    + rewrite Ht, Ht3, Ht2, Ht1. lia.
    + exists (l1 ++ l2 ++ l3 ++ l). rewrite Hl, Hl3, Hl2, Hl1.
      by rewrite <-!app_assoc.
  - apply not_true_is_false in Hex as Hex'. rewrite Hex'.
    unfold bind at 1. run_print_as w2 Hw2.
    destruct (effects_silent _ _ Hw2) as (Hc2 & He2 & Ha2).
    assert (clock_reads w2 = clock_reads w1) as Ht2
      by (destruct Hw2 as (_ & _ & _ & -> & _); lia).
    destruct Hw1 as (_ & _ & _ & _ & (l1 & Hl1)).
    destruct Hw2 as (_ & _ & _ & _ & (l2 & Hl2)).
    destruct (IH i (S f) w2) as (w' & -> & He & Hc & Hn & Ha & Ht & (l & Hl)).
    exists w'. split; [do 2 f_equal; apply (f_equal2 pair); simpl; lia|].
    rewrite Hc2, Hc1 in He, Hc, Hn. rewrite He2, He1 in He.
    rewrite Ha2, Ha1 in Hn, Ha. rewrite Ht2, Ht1 in Ht.
    split_and!; try done.
    exists (l1 ++ l2 ++ l). rewrite Hl, Hl2, Hl1. by rewrite <-!app_assoc.
Qed.

(** One run of [run_ingestion] over a manifest that is not empty. *)
Lemma run_ingestion_over_run file_map w :
  file_map ≠ [] →
  ∃ w' lines,
    run_ingestion_over host env file_map w = (Returned PyNone, w')
    ∧ stdout w'
      = stdout w ++ lines
        ++ [nl +:+ "--- Full Knowledge Ingestion Finished ---";
            processed_line (length (existing_files host file_map));
            failed_line (length file_map - length (existing_files host file_map))]
    ∧ embedding_calls w'
      = embedding_calls w
        ++ (if collection w is Some _ then manifest_chunks host env file_map else [])
    ∧ (is_Some (collection w) ↔ is_Some (collection w'))
    ∧ (collection w = None → add_calls w' = add_calls w)
    ∧ (length (add_calls w')
       ≤ length (add_calls w) + length (existing_files host file_map))%nat
    ∧ clock_reads w' = clock_reads w.
Proof.
  intros Hne. unfold run_ingestion_over.
  unfold bind at 1. unfold print at 1. cbn beta iota.
  unfold bind at 1. unfold print at 1. cbn beta iota.
  destruct file_map as [|item rest] eqn:Hmap; [done|]. rewrite <-Hmap. clear Hne.
  unfold bind at 1.
  match goal with
  | |- context [ingest_files host env file_map 0 0 ?w0] =>
      destruct (ingest_files_run file_map 0 0 w0)
        as (w1 & -> & He & Hc & Hn & Ha & Ht & (l & Hl))
  end.
  simpl in He, Hc, Hn, Ha, Ht, Hl. cbn beta iota. unfold bind, print, ret. simpl.
  eexists _, (_ :: _ :: l). split; [done|]. simpl.
  split_and!; try done.
  rewrite Hl. by rewrite <-!app_assoc.
Qed.
End WithEnv.

(** X20. Over a manifest that is not empty, [run_ingestion] returns [None]
    without raising and ends with its three summary lines: it reports as
    processed exactly the files that exist, whatever [ingest_document] did
    with them, and as skipped or failed exactly the files that do not
    exist. The two counts add up to the size of the manifest, and the
    [except] branch of the loop is never taken. *)
Theorem run_ingestion_report (host : HostEnv) (env : Env)
    (file_map : list (string * (string * string))) (w : World) :
  file_map ≠ [] →
  let processed := length (existing_files host file_map) in
  let failed := (length file_map - processed)%nat in
  (processed + failed = length file_map)%nat
  ∧ ∃ w' lines,
      run_ingestion_over host env file_map w = (Returned PyNone, w')
      ∧ stdout w'
        = stdout w ++ lines
          ++ [nl +:+ "--- Full Knowledge Ingestion Finished ---";
              processed_line processed; failed_line failed].
Proof.
  intros Hne processed failed. split.
  - pose proof (length_filter (λ item, os_path_exists host
                  (manifest_path host item.1 item.2.2) = true) file_map) as Hle.
    fold (existing_files host file_map) in Hle. unfold failed, processed. lia.
  - destruct (run_ingestion_over_run host env file_map w Hne)
      as (w' & lines & Hrun & Hout & _).
    by exists w', lines.
Qed.

Lemma run_ingestion_report_witness :
  ∃ w' lines,
    run_ingestion sample_host sample_env sample_world = (Returned PyNone, w')
    ∧ stdout w'
      = lines ++ [nl +:+ "--- Full Knowledge Ingestion Finished ---";
                  "Successfully processed (or attempted): 2 files.";
                  "Skipped or Failed: 15 files."].
Proof.
  exact (proj2 (run_ingestion_report sample_host sample_env FILE_MAP sample_world
                  ltac:(done))).
Defined.

(** X21. What a run of [run_ingestion] asks of its collaborators: on an
    initialised collection the embedding provider is asked for the chunks
    of the files that exist, file after file in the order of the manifest,
    and nothing else; [collection.add] is called at most once per existing
    file; the collection stays initialised. While the collection is not
    initialised, neither the provider nor the store is called. The clock
    is never read. *)
Theorem run_ingestion_effects (host : HostEnv) (env : Env) (w : World) :
  ∃ w',
    run_ingestion host env w = (Returned PyNone, w')
    ∧ embedding_calls w'
      = embedding_calls w
        ++ (if collection w is Some _ then manifest_chunks host env FILE_MAP else [])
    ∧ (length (add_calls w')
       ≤ length (add_calls w) + length (existing_files host FILE_MAP))%nat
    ∧ (is_Some (collection w) ↔ is_Some (collection w'))
    ∧ (collection w = None → add_calls w' = add_calls w)
    ∧ clock_reads w' = clock_reads w.
Proof.
  destruct (run_ingestion_over_run host env FILE_MAP w ltac:(done))
    as (w' & lines & Hrun & _ & He & Hc & Hn & Ha & Ht).
  by exists w'.
Qed.
End IngestAllExtras.

(** ** The chat loop *)

Module PyStrFacts.
Import PyStr.

Section WithSpace.
Variable str_isspace : ascii → bool.

Lemma startswith_app s p : startswith s p = true ↔ ∃ t, s = p +:+ t.
Proof.
  revert s. induction p as [|a p IH]; intros s; simpl.
  - split; [by exists s|done].
  - destruct s as [|c s]; simpl.
    + split; [done|]. by intros [t ?].
    + rewrite andb_true_iff, bool_decide_eq_true, IH. split.
      * intros [-> [t ->]]. by exists t.
      * intros [t [= -> ->]]. split; [done|]. by exists t.
Qed.

Lemma startswith_no_space s p :
  startswith s p = true → no_space str_isspace s → no_space str_isspace p.
Proof.
  rewrite startswith_app. intros [t ->]. unfold no_space.
  revert t. induction p as [|a p IH]; intros t; simpl; [constructor|].
  intros [Ha Hp]%Forall_cons. constructor; [done|]. by apply (IH t).
Qed.

Lemma word_break_no_space s : no_space str_isspace (word_break str_isspace s).1.
Proof.
  unfold no_space. induction s as [|c s IH]; simpl; [constructor|].
  destruct (str_isspace c) eqn:Hc; simpl; [constructor|]. by constructor.
Qed.

Lemma lstrip_head s c r :
  lstrip str_isspace s = String c r → str_isspace c = false.
Proof.
  induction s as [|a s IH]; simpl; [done|].
  destruct (str_isspace a) eqn:Ha; [done|]. by intros [= -> ->].
Qed.

(** Every item of a split but the one after the last split is a word: it
    is not empty and holds no whitespace. *)
Lemma split_words maxsplit : ∀ s (k : nat) t,
  (k < maxsplit)%nat → split str_isspace s maxsplit !! k = Some t →
  t ≠ "" ∧ no_space str_isspace t.
Proof.
  induction maxsplit as [|n IH]; intros s k t Hk; [lia|]. simpl.
  destruct (lstrip str_isspace s) as [|c r] eqn:Hs; [done|].
  apply lstrip_head in Hs. rewrite Hs. simpl.
  destruct k as [|k]; simpl.
  - intros [= <-]. split; [done|].
    pose proof (word_break_no_space (String c r)) as H. simpl in H.
    by rewrite Hs in H.
  - apply IH. lia.
Qed.

Lemma find_absent s old :
  find s old = -1 →
  startswith s old = false
  ∧ ∀ c s', s = String c s' → find s' old = -1.
Proof.
  destruct s as [|c s]; simpl.
  - destruct (startswith "" old); [done|]. by split.
  - destruct (startswith (String c s) old); [done|]. intros H. split; [done|].
    intros c' s' [= <- <-]. destruct (Z.ltb_spec (find s old) 0) as [Hlt|Hge]; [|lia].
    clear H. revert Hlt. generalize s. clear.
    induction s as [|c s IH]; simpl.
    + by destruct (startswith "" old).
    + destruct (startswith (String c s) old); [lia|].
      by destruct (Z.ltb_spec (find s old) 0); [|lia].
Qed.

(** [replace] leaves a string without an occurrence of [old] as it is. *)
Lemma replace_absent s old new :
  old ≠ "" → find s old = -1 → replace s old new = s.
Proof.
  intros Hold. unfold replace. destruct old as [|a old]; [done|]. clear Hold.
  induction s as [|c s IH]; [done|]. intros Habs.
  apply find_absent in Habs as [Hfalse Hrest].
  cbn [replace_from]. rewrite Hfalse. f_equal. apply IH. by eapply Hrest.
Qed.
End WithSpace.
End PyStrFacts.

Module LensExtras.
Import PyStr PyStrFacts RunFacts.

Section WithEnv.
Variable env : Env.
Variable str_isspace : ascii → bool.
Variable LOADED_LENSES : lenses.

(** The inner loop finds the first key that the command starts with. *)
Lemma match_lens_first (d : lenses) command :
  match match_lens (keys d) command with
  | Some key => ∃ i lens, first_match d command i key lens ∧ dict_get d key = Some lens
  | None => ∀ i key lens, d !! i = Some (key, lens) → startswith command key = false
  end.
Proof.
  induction d as [|[k l] d IH]; simpl; [by intros []|].
  destruct (startswith command k) eqn:Hk.
  - exists 0%nat, l. rewrite bool_decide_eq_true_2 by done.
    split; [|done]. split_and!; [done..|]. intros; lia.
  - destruct (match_lens (keys d) command) as [key|].
    + destruct IH as (i & lens & (Hi & Hs & Hfirst) & Hget).
      exists (S i), lens. split.
      * split_and!; [done..|]. intros [|j] key' lens' Hj; simpl.
        -- by intros [= <- <-].
        -- apply Hfirst. lia.
      * rewrite bool_decide_eq_false_2; [done|]. intros ->. congruence.
    + intros [|i] key lens; simpl; [by intros [= <- <-]|]. apply IH.
Qed.

Lemma first_match_unique (d : lenses) command i1 key1 lens1 i2 key2 lens2 :
  first_match d command i1 key1 lens1 → first_match d command i2 key2 lens2 →
  i1 = i2 ∧ key1 = key2 ∧ lens1 = lens2.
Proof.
  intros (H1 & Hs1 & Hf1) (H2 & Hs2 & Hf2).
  destruct (Nat.lt_trichotomy i1 i2) as [Hlt|[->|Hgt]].
  - specialize (Hf2 _ _ _ Hlt H1). congruence.
  - by simplify_eq.
  - specialize (Hf1 _ _ _ Hgt H2). congruence.
Qed.

(** One run of the outer loop: only its first pass matters. *)
Lemma select_lens_run outer user_input_full command choice w :
  ∃ w',
    effects w w' [] [] 0 (collection w)
    ∧ match outer, match_lens (keys LOADED_LENSES) command with
      | _ :: _, Some (String a key) =>
          ∃ i lens,
            first_match LOADED_LENSES command i (String a key) lens
            ∧ select_lens env str_isspace LOADED_LENSES outer user_input_full command
                choice w
              = (Returned (lens_choice env str_isspace user_input_full
                             (String a key) lens), w')
      | _, _ =>
          select_lens env str_isspace LOADED_LENSES outer user_input_full command
            choice w
          = (Returned choice, w) ∧ w' = w
      end.
Proof.
  pose proof (match_lens_first LOADED_LENSES command) as Hfirst.
  induction outer as [|k outer IH]; simpl.
  { exists w. split; [apply effects_refl|]. by destruct (match_lens _ _). }
  destruct (match_lens (keys LOADED_LENSES) command) as [[|a key]|] eqn:Hm; simpl.
  - destruct IH as (w' & _ & IH). exists w. split; [apply effects_refl|].
    by destruct outer; destruct IH as [-> _].
  - destruct Hfirst as (i & lens & Hfm & ->).
    unfold bind. run_print_as w' Hw'. exists w'. split; [done|]. by exists i, lens.
  - destruct IH as (w' & _ & IH). exists w. split; [apply effects_refl|].
    by destruct outer; destruct IH as [-> _].
Qed.
End WithEnv.

(** X22. The lens command. [parse_lens_command] never raises and touches
    nothing but the printed lines. It selects a lens exactly when the input,
    in lower case, starts with ["lens:"], has a second whitespace-separated
    item, and the first key of [LOADED_LENSES], in insertion order, that
    the lower-case second item starts with is not empty: the lens under
    that key is selected, whatever later keys match, and the query is the
    stripped rest of the input after the first occurrence of the key in the
    lower-case input. The outer loop over the keys adds nothing to this.
    When no lens is selected the query is the whole input and nothing is
    printed. Whitespace is what [str.isspace] accepts: the statement holds
    for every such class of characters. *)
Theorem parse_lens_command_selects (env : Env) (str_isspace : ascii → bool)
    (LOADED_LENSES : lenses) (user_input_full : string) (w : World) :
  ∃ choice w',
    parse_lens_command env str_isspace LOADED_LENSES user_input_full w
    = (Returned choice, w')
    ∧ effects w w' [] [] 0 (collection w)
    ∧ match selected_lens_name choice with
      | Some name =>
          ∃ part1 i key lens,
            startswith (str_lower env user_input_full) "lens:" = true
            ∧ split str_isspace user_input_full 2 !! 1%nat = Some part1
            ∧ first_match LOADED_LENSES (str_lower env part1) i key lens
            ∧ key ≠ ""
            ∧ name = lens_name lens
            ∧ lens_archetype choice = lens_prompt_archetype lens
            ∧ user_query choice
              = strip str_isspace (slice_from user_input_full
                         (find (str_lower env user_input_full) key + len key))
      | None =>
          w' = w
          ∧ lens_archetype choice = None
          ∧ user_query choice = user_input_full
          ∧ ∀ part1 i key lens,
              startswith (str_lower env user_input_full) "lens:" = true →
              split str_isspace user_input_full 2 !! 1%nat = Some part1 →
              first_match LOADED_LENSES (str_lower env part1) i key lens →
              key = ""
      end.
Proof.
  unfold parse_lens_command.
  set (choice0 := {| selected_lens_name := None; lens_archetype := None;
                     user_query := user_input_full |}).
  destruct (startswith (str_lower env user_input_full) "lens:") eqn:Hlens.
  2:{ exists choice0, w. split; [done|]. split; [apply effects_refl|]. simpl.
      by split_and!. }
  destruct (split str_isspace user_input_full 2) as [|part0 [|part1 parts]]
    eqn:Hsplit.
  1,2: exists choice0, w; split; [done|]; split; [apply effects_refl|]; simpl;
       by split_and!.
  destruct (select_lens_run env str_isspace LOADED_LENSES (keys LOADED_LENSES)
              user_input_full
              (str_lower env part1) choice0 w) as (w' & Heff & Hrun).
  pose proof (match_lens_first LOADED_LENSES (str_lower env part1)) as Hfirst.
  destruct (keys LOADED_LENSES) as [|k ks] eqn:Hkeys.
  { destruct LOADED_LENSES as [|kl d]; [|done].
    exists choice0, w. destruct Hrun as [-> _]. split; [done|].
    split; [apply effects_refl|]. simpl. split_and!; try done.
    by intros part i key lens _ _ [? _]. }
  rewrite <-Hkeys in *. clear Hkeys.
  destruct (match_lens (keys LOADED_LENSES) (str_lower env part1))
    as [[|a key]|] eqn:Hm.
  - destruct Hrun as [-> ->]. exists choice0, w. split; [done|].
    split; [apply effects_refl|]. simpl. split_and!; try done.
    intros part i key lens _ [= <-] Hfm.
    destruct Hfirst as (i0 & lens0 & Hfm0 & _).
    by destruct (first_match_unique _ _ _ _ _ _ _ _ Hfm Hfm0) as (_ & -> & _).
  - destruct Hrun as (i & lens & Hfm & ->).
    exists (lens_choice env str_isspace user_input_full (String a key) lens), w'.
    split; [done|]. split; [done|]. simpl.
    exists part1, i, (String a key), lens. by split_and!.
  - destruct Hrun as [-> ->]. exists choice0, w. split; [done|].
    split; [apply effects_refl|]. simpl. split_and!; try done.
    intros part i key lens _ [= <-] (Hi & Hs & _).
    specialize (Hfirst _ _ _ Hi). congruence.
Qed.

(** One run of [parse_lens_command]: it returns a choice and only
    prints. *)
Lemma parse_lens_command_run (env : Env) (str_isspace : ascii → bool)
    (LOADED_LENSES : lenses)
    (user_input_full : string) (w : World) :
  ∃ choice w',
    parse_lens_command env str_isspace LOADED_LENSES user_input_full w
    = (Returned choice, w')
    ∧ effects w w' [] [] 0 (collection w)
    ∧ (selected_lens_name choice = None → w' = w)
    ∧ ∀ name, selected_lens_name choice = Some name →
        ∃ part1 i key lens,
          split str_isspace user_input_full 2 !! 1%nat = Some part1
          ∧ first_match LOADED_LENSES (str_lower env part1) i key lens
          ∧ key ≠ "" ∧ name = lens_name lens.
Proof.
  unfold parse_lens_command.
  set (choice0 := {| selected_lens_name := None; lens_archetype := None;
                     user_query := user_input_full |}).
  destruct (startswith (str_lower env user_input_full) "lens:").
  2:{ exists choice0, w. split; [done|]. split; [apply effects_refl|]. done. }
  destruct (split str_isspace user_input_full 2) as [|part0 [|part1 parts]]
    eqn:Hsplit.
  1,2: exists choice0, w; split; [done|]; split; [apply effects_refl|]; done.
  destruct (select_lens_run env str_isspace LOADED_LENSES (keys LOADED_LENSES)
              user_input_full
              (str_lower env part1) choice0 w) as (w' & Heff & Hrun).
  destruct (keys LOADED_LENSES) as [|k ks].
  { destruct Hrun as [-> _]. exists choice0, w. split; [done|].
    split; [apply effects_refl|]. done. }
  destruct (match_lens _ (str_lower env part1)) as [[|a key]|].
  1,3: destruct Hrun as [-> _]; exists choice0, w; split; [done|];
       split; [apply effects_refl|]; done.
  destruct Hrun as (i & lens & Hfm & ->).
  exists (lens_choice env str_isspace user_input_full (String a key) lens), w'.
  split; [done|]. split; [done|]. split; [done|]. simpl. intros name [= <-].
  by exists part1, i, (String a key), lens.
Qed.

(** X23. A lens can only be selected through a key without whitespace:
    the command is the second whitespace-separated item of the input, so
    the key it starts with holds no whitespace, provided that [str.lower]
    does not turn other characters into whitespace. A dictionary in which
    every key holds whitespace, as the keys of lenses with names of several
    words do, never yields a lens: the choice is the one of an input without
    a lens command. Whitespace is what [str.isspace] accepts, whatever that
    class of characters is. *)
Theorem lens_key_with_whitespace_never_selected (env : Env)
    (str_isspace : ascii → bool) (LOADED_LENSES : lenses)
    (user_input_full : string) (w : World) :
  (∀ s, no_space str_isspace s → no_space str_isspace (str_lower env s)) →
  ∃ choice w',
    parse_lens_command env str_isspace LOADED_LENSES user_input_full w
    = (Returned choice, w')
    ∧ (∀ name, selected_lens_name choice = Some name →
         ∃ i key lens,
           LOADED_LENSES !! i = Some (key, lens) ∧ name = lens_name lens
           ∧ key ≠ "" ∧ no_space str_isspace key)
    ∧ (Forall (λ item, ¬ no_space str_isspace item.1) LOADED_LENSES →
       selected_lens_name choice = None ∧ w' = w).
Proof.
  intros Hlower.
  destruct (parse_lens_command_run env str_isspace LOADED_LENSES user_input_full w)
    as (choice & w' & Hrun & _ & Hnone & Hsel).
  assert (∀ name, selected_lens_name choice = Some name →
            ∃ i key lens,
              LOADED_LENSES !! i = Some (key, lens) ∧ name = lens_name lens
              ∧ key ≠ "" ∧ no_space str_isspace key) as Hkey.
  { intros name Hname.
    destruct (Hsel name Hname) as (part1 & i & key & lens & Hpart & Hfm & Hne & ->).
    destruct Hfm as (Hi & Hstarts & _).
    exists i, key, lens. split_and!; try done.
    apply (startswith_no_space _ _ _ Hstarts), Hlower.
    by apply (split_words str_isspace 2 user_input_full 1 part1); [lia|]. }
  exists choice, w'. split; [done|]. split; [done|].
  intros Hall. destruct (selected_lens_name choice) as [name|] eqn:Hname.
  - destruct (Hkey name eq_refl) as (i & key & lens & Hi & _ & _ & Hns).
    rewrite Forall_lookup in Hall. by destruct (Hall _ _ Hi).
  - split; [done|]. by apply Hnone.
Qed.

(** With no-break spaces for separators the command is split as with
    blanks. *)
Example lens_command_no_break_space :
  (parse_lens_command chat_env latin1_isspace sample_lenses no_break_input
     sample_world).1
  = Returned {| selected_lens_name := Some "Socratic";
                lens_archetype := Some "Ask questions only.";
                user_query := "what is virtue" |}.
Proof. by vm_compute. Qed.

Lemma ascii_lower_no_space c :
  latin1_isspace c = false → latin1_isspace (ascii_lower c) = false.
Proof. by destruct c as [[] [] [] [] [] [] [] []]. Qed.

Lemma lower_no_space s :
  no_space latin1_isspace s → no_space latin1_isspace (lower s).
Proof.
  unfold no_space. induction s as [|c s IH]; simpl; [done|].
  intros [Hc Hs]%Forall_cons. constructor; [by apply ascii_lower_no_space|].
  by apply IH.
Qed.

Lemma lens_key_with_whitespace_never_selected_witness :
  ∃ choice w',
    parse_lens_command chat_env latin1_isspace banner_lenses banner_input
      sample_world
    = (Returned choice, w')
    ∧ selected_lens_name choice = None ∧ w' = sample_world.
Proof.
  destruct (lens_key_with_whitespace_never_selected chat_env latin1_isspace
              banner_lenses
              banner_input sample_world lower_no_space)
    as (choice & w' & Hrun & _ & Hnone).
  exists choice, w'. split; [exact Hrun|]. apply Hnone.
  repeat constructor. simpl. unfold no_space. rewrite Forall_lookup.
  intros H. by specialize (H 10%nat " "%char eq_refl).
Defined.
End LensExtras.

Module PromptExtras.
Import PyStr PyStrFacts RunFacts.

(** One run of [get_llm_completion]. *)
Lemma get_llm_completion_run (env : Env) (chat : ChatEnv) prompt system_prompt w :
  ∃ w',
    get_llm_completion env chat prompt system_prompt w
    = (Returned (completion_answer env chat prompt system_prompt), w')
    ∧ effects w w' [] [] 0 (collection w).
Proof.
  unfold get_llm_completion, completion_answer.
  destruct (openai_api_key env); simpl.
  - unfold try_except, lift.
    destruct (openai_chat_completions_create chat _) as [content|e].
    + exists w. split; [done|]. apply effects_refl.
    + unfold bind. run_print_as w' Hw'. exists w'. by split.
  - unfold bind. run_print_as w' Hw'. exists w'. by split.
Qed.

(** X24. [get_llm_completion] never raises and changes nothing but the
    printed lines. It returns [None] when no API key is set, without
    consulting the service, and when the request raises; otherwise it
    returns the content the service answered to the messages: the system
    message first, only for a system prompt that is neither [None] nor
    empty, then the user message with the prompt. *)
Theorem get_llm_completion_soft_fails (env : Env) (chat : ChatEnv)
    (prompt : string) (system_prompt : option string) (w : World) :
  ∃ result w',
    get_llm_completion env chat prompt system_prompt w = (Returned result, w')
    ∧ collection w' = collection w
    ∧ embedding_calls w' = embedding_calls w
    ∧ add_calls w' = add_calls w
    ∧ clock_reads w' = clock_reads w
    ∧ (openai_api_key env = false → result = None)
    ∧ (openai_api_key env = true →
       match openai_chat_completions_create chat
               (match system_prompt with
                | Some (String c s) => [("system", String c s); ("user", prompt)]
                | _ => [("user", prompt)]
                end) with
       | Returned content => result = content
       | Raised _ => result = None
       end).
Proof.
  destruct (get_llm_completion_run env chat prompt system_prompt w)
    as (w' & Hrun & Heff).
  destruct (effects_silent _ _ Heff) as (Hc & He & Ha).
  exists (completion_answer env chat prompt system_prompt), w'.
  split; [done|]. split_and!; try done.
  - destruct Heff as (_ & _ & _ & -> & _). lia.
  - unfold completion_answer. by intros ->.
  - unfold completion_answer, messages. intros ->. simpl.
    destruct system_prompt as [[|c s]|]; simpl;
      by destruct (openai_chat_completions_create chat _).
Qed.

(** X25. A lens archetype that holds neither placeholder is sent as it
    is: the prompt is the archetype, whatever the query of the user and
    whatever context was retrieved. *)
Theorem archetype_without_placeholders_drops_query
    (str_isspace : ascii → bool) (choice : LensChoice) (archetype : string)
    (context_chunks : list RetrievedChunk) :
  lens_archetype choice = Some archetype →
  archetype ≠ "" →
  find archetype "{CONTEXT_CHUNKS}" = -1 →
  find archetype "{USER_QUERY}" = -1 →
  full_prompt str_isspace choice context_chunks = archetype.
Proof.
  intros Harch Hne Hctx Hquery. unfold full_prompt. rewrite Harch.
  destruct archetype as [|c archetype]; [done|]. cbn [truthy_str default].
  rewrite (replace_absent _ "{CONTEXT_CHUNKS}") by done.
  by rewrite (replace_absent _ "{USER_QUERY}") by done.
Qed.

Lemma archetype_without_placeholders_drops_query_witness :
  full_prompt latin1_isspace
    {| selected_lens_name := Some "Socratic";
                 lens_archetype := Some "Ask questions only.";
                 user_query := "what is virtue" |} []
  = "Ask questions only.".
Proof.
  apply (archetype_without_placeholders_drops_query latin1_isspace
           {| selected_lens_name := Some "Socratic";
              lens_archetype := Some "Ask questions only.";
              user_query := "what is virtue" |} "Ask questions only." []);
    [reflexivity|done|reflexivity|reflexivity].
Defined.
End PromptExtras.


Module TurnExtras.
Import PyStr PyStrFacts RunFacts.

Section WithEnv.
Variable env : Env.
Variable chat : ChatEnv.
Variable str_isspace : ascii → bool.
Variable LOADED_LENSES : lenses.

(** A step that only asks the provider, followed by any step. *)
Lemma effects_after w1 w2 w3 es embeds adds ticks coll :
  effects w1 w2 es [] 0 (collection w1) →
  effects w2 w3 embeds adds ticks coll →
  effects w1 w3 (es ++ embeds) adds ticks coll.
Proof.
  intros H1 H2.
  exact (effects_trans _ _ _ _ _ _ _ _ _ _ _ H1 H2).
Qed.

Lemma effects_quiet_trans w1 w2 w3 es1 es2 :
  effects w1 w2 es1 [] 0 (collection w1) →
  effects w2 w3 es2 [] 0 (collection w2) →
  effects w1 w3 (es1 ++ es2) [] 0 (collection w1).
Proof.
  intros H1 H2. pose proof (effects_trans _ _ _ _ _ _ _ _ _ _ _ H1 H2) as H.
  destruct H1 as (Hc & _). by rewrite Hc in H.
Qed.

Lemma effects_collection w1 w2 es :
  effects w1 w2 es [] 0 (collection w1) →
  collection w2 = collection w1 ∧ add_calls w2 = add_calls w1
  ∧ clock_reads w2 = clock_reads w1.
Proof. intros (-> & _ & -> & -> & _). rewrite app_nil_r. split_and!; [done..|lia]. Qed.

(** Retrieval on every path: at most one question to the provider. *)
Lemma retrieve_effects query_text filters n_results w :
  ∃ o w' es,
    retrieve_relevant_chunks env query_text filters n_results w = (o, w')
    ∧ effects w w' es [] 0 (collection w)
    ∧ (length es ≤ 1)%nat.
Proof.
  destruct (collection w) as [st|] eqn:Hst.
  - destruct query_text as [|c query].
    + unfold retrieve_relevant_chunks, bind, get_collection. rewrite Hst. simpl.
      eexists _, w, []. split; [done|]. split; [|simpl; lia].
      rewrite <-Hst. apply effects_refl.
    + destruct (RetrievalExtras.retrieve_run env c query filters n_results st w Hst)
        as (o & w' & -> & Heff & _).
      exists o, w', [String c query]. split; [done|]. split; [done|]. simpl. lia.
  - unfold retrieve_relevant_chunks, bind, get_collection. rewrite Hst. simpl.
    eexists _, w, []. split; [done|]. split; [|simpl; lia].
    rewrite <-Hst. apply effects_refl.
Qed.

Lemma interaction_record_clock user_input ai_response w1 w2 v :
  clock_reads w1 = clock_reads w2 →
  interaction_record env user_input ai_response w1 v
  = interaction_record env user_input ai_response w2 v.
Proof.
  intros H. unfold interaction_record, interaction_text, interaction_title,
    interaction_timestamp. by rewrite H.
Qed.

Lemma interaction_text_clock user_input ai_response w1 w2 :
  clock_reads w1 = clock_reads w2 →
  interaction_text env user_input ai_response w1
  = interaction_text env user_input ai_response w2.
Proof.
  intros H. unfold interaction_text, interaction_timestamp. by rewrite H.
Qed.

(** Building the prompt writes nothing and reads no clock; it asks the
    provider at most once. *)
Lemma build_prompt_run user_input_full w :
  ∃ o wp es,
    build_prompt env str_isspace LOADED_LENSES user_input_full w = (o, wp)
    ∧ effects w wp es [] 0 (collection w)
    ∧ (length es ≤ 1)%nat.
Proof.
  unfold build_prompt. unfold bind at 1.
  destruct (LensExtras.parse_lens_command_run env str_isspace LOADED_LENSES
              user_input_full w) as (choice & w1 & -> & Hw1 & _).
  unfold bind at 1. run_print_as w2 Hw2.
  pose proof (effects_quiet_trans _ _ _ _ _ Hw1 Hw2) as Hw12. simpl in Hw12.
  unfold bind at 1.
  destruct (retrieve_effects (user_query choice) None 3 w2)
    as (o & w3 & es & -> & Hw3 & Hes).
  pose proof (effects_quiet_trans _ _ _ _ _ Hw12 Hw3) as Hw13. simpl in Hw13.
  destruct o as [context_chunks|e]; unfold ret; by eexists _, w3, es.
Qed.

(** A pass that gets as far as the lens command is the building of its
    prompt followed by the completion and the saving. *)
Lemma chat_turn_via_prompt aletheia_system_prompt user_input_full s0 stripped w :
  bool_decide (str_lower env user_input_full = "quit") = false →
  strip str_isspace user_input_full = String s0 stripped →
  chat_turn env chat str_isspace LOADED_LENSES aletheia_system_prompt
    user_input_full w
  = try_except
      (full_prompt <- build_prompt env str_isspace LOADED_LENSES user_input_full ;;
       print "[main.py] Thinking..." ;;;
       ai_response <- get_llm_completion env chat full_prompt
                        (Some aletheia_system_prompt) ;;
       if truthy_str ai_response then
         print ("Aletheia: " +:+ default "" ai_response) ;;;
         print "[main.py] Saving interaction to memory..." ;;;
         ingest_interaction_text env user_input_full (default "" ai_response) ;;;
         ret Continue
       else
         print "Aletheia: I seem to be having trouble processing that right now. Could you rephrase?" ;;;
         ret Continue)
      (λ e,
         print (nl +:+ "[main.py] An unexpected error occurred: " +:+ exn_str e) ;;;
         ret Continue) w.
Proof.
  intros Hquit Hstrip. unfold chat_turn, build_prompt. rewrite Hquit, Hstrip.
  cbn [truthy_str negb]. unfold try_except, bind.
  destruct (parse_lens_command env str_isspace LOADED_LENSES user_input_full w)
    as [[choice|e] w1]; [|reflexivity].
  unfold print at 1 7. cbn beta iota.
  match goal with
  | |- context [retrieve_relevant_chunks env ?q ?f ?n ?w2] =>
      destruct (retrieve_relevant_chunks env q f n w2) as [[context_chunks|e] w3]
  end; reflexivity.
Qed.

(** One pass of the loop body, on every path: the calls it hands to the
    store are decided by the prompt it builds, by the answer of the
    completion service to that prompt and by the embedding of the
    interaction. *)
Lemma chat_turn_run aletheia_system_prompt user_input_full w :
  ∃ t w' embeds adds ticks,
    chat_turn env chat str_isspace LOADED_LENSES aletheia_system_prompt
      user_input_full w = (Returned t, w')
    ∧ effects w w' embeds adds ticks (apply_add_calls (collection w) adds)
    ∧ (t = Break ↔ str_lower env user_input_full = "quit")
    ∧ (str_lower env user_input_full = "quit"
       ∨ strip str_isspace user_input_full = "" →
       embeds = [] ∧ adds = [] ∧ ticks = 0%nat)
    ∧ (length embeds ≤ 2)%nat ∧ (ticks ≤ 2)%nat ∧ (length adds ≤ 1)%nat
    ∧ match build_prompt env str_isspace LOADED_LENSES user_input_full w with
      | (Returned prompt, wp) =>
          match completion_answer env chat prompt (Some aletheia_system_prompt) with
          | Some (String c r) =>
              (str_lower env user_input_full = "quit"
               ∨ strip str_isspace user_input_full = ""
               ∨ collection w = None
               ∨ embedding_answer env (length (embedding_calls wp))
                   (interaction_text env user_input_full (String c r) w) = None →
               adds = [])
              ∧ ∀ v,
                  str_lower env user_input_full ≠ "quit" →
                  strip str_isspace user_input_full ≠ "" →
                  is_Some (collection w) →
                  embedding_answer env (length (embedding_calls wp))
                    (interaction_text env user_input_full (String c r) w) = Some v →
                  adds = [interaction_add_call env user_input_full (String c r) w v]
          | _ => adds = []
          end
      | (Raised _, _) => adds = []
      end.
Proof.
  destruct (build_prompt_run user_input_full w) as (o & wp & es & Hbp & Hwp & Hes).
  rewrite Hbp.
  destruct (bool_decide (str_lower env user_input_full = "quit")) eqn:Hquit.
  { apply bool_decide_eq_true in Hquit. unfold chat_turn, try_except.
    rewrite bool_decide_eq_true_2 by done. unfold bind. run_print_as w' Hw'.
    exists Break, w', [], [], 0%nat. split; [done|]. split; [done|].
    split; [done|]. split; [done|]. simpl. split_and!; [lia..|].
    destruct o as [prompt|e]; [|done].
    by destruct (completion_answer _ _ _ _) as [[|c r]|]. }
  destruct (strip str_isspace user_input_full) as [|s0 stripped] eqn:Hstrip.
  { unfold chat_turn, try_except. rewrite Hquit, Hstrip. cbn [truthy_str negb].
    apply bool_decide_eq_false in Hquit.
    exists Continue, w, [], [], 0%nat. split; [done|].
    split; [apply effects_refl|]. split; [done|]. split; [done|]. simpl.
    split_and!; [lia..|].
    destruct o as [prompt|e]; [|done].
    by destruct (completion_answer _ _ _ _) as [[|c r]|]. }
  rewrite (chat_turn_via_prompt _ _ _ _ _ Hquit Hstrip).
  apply bool_decide_eq_false in Hquit.
  unfold try_except. unfold bind at 1. rewrite Hbp.
  destruct (effects_collection _ _ _ Hwp) as (Hcp & Hap & Htp).
  destruct o as [prompt|e].
  2:{ unfold bind. run_print_as w4 Hw4.
      pose proof (effects_quiet_trans _ _ _ _ _ Hwp Hw4) as Hw14.
      rewrite app_nil_r in Hw14.
      exists Continue, w4, es, [], 0%nat. split; [done|]. split; [done|].
      split; [done|]. split; [by intros [?|?]|].
      simpl. split_and!; [lia..|done]. }
  unfold bind at 1. run_print_as w4 Hw4.
  pose proof (effects_quiet_trans _ _ _ _ _ Hwp Hw4) as Hw14.
  rewrite app_nil_r in Hw14. clear Hw4.
  unfold bind at 1.
  destruct (PromptExtras.get_llm_completion_run env chat prompt
              (Some aletheia_system_prompt) w4) as (w5 & -> & Hw5).
  pose proof (effects_quiet_trans _ _ _ _ _ Hw14 Hw5) as Hw15.
  rewrite app_nil_r in Hw15. clear Hw14 Hw5.
  destruct (completion_answer env chat prompt (Some aletheia_system_prompt))
    as [[|c r]|] eqn:Hans; cbn [truthy_str default from_option id].
  1,3: unfold bind; run_print_as w6 Hw6;
       pose proof (effects_quiet_trans _ _ _ _ _ Hw15 Hw6) as Hw16;
       rewrite app_nil_r in Hw16;
       exists Continue, w6, es, [], 0%nat; (split; [done|]); (split; [done|]);
       (split; [done|]); (split; [by intros [?|?]|]);
       simpl; split_and!; [lia..|done].
  unfold bind at 1. run_print_as w6 Hw6.
  pose proof (effects_quiet_trans _ _ _ _ _ Hw15 Hw6) as Hw16.
  rewrite app_nil_r in Hw16. clear Hw15 Hw6.
  unfold bind at 1. run_print_as w7 Hw7.
  pose proof (effects_quiet_trans _ _ _ _ _ Hw16 Hw7) as Hw17.
  rewrite app_nil_r in Hw17. clear Hw16 Hw7.
  destruct (effects_collection _ _ _ Hw17) as (Hc7 & Ha7 & Ht7).
  assert (embedding_calls w7 = embedding_calls wp) as He7.
  { destruct Hw17 as (_ & -> & _). by destruct Hwp as (_ & -> & _). }
  unfold bind at 1.
  destruct (InteractionExtras.ingest_interaction_text_run env user_input_full
              (String c r) w7) as (w8 & -> & Hw8).
  unfold ret. rewrite Ha7, He7 in Hw8.
  rewrite (interaction_text_clock user_input_full (String c r) w7 w Ht7) in Hw8.
  destruct (collection w7) as [st|] eqn:Hst.
  2:{ pose proof (effects_after _ _ _ _ _ _ _ _ Hw17 Hw8) as Hw18.
      rewrite app_nil_r in Hw18.
      exists Continue, w8, es, [], 0%nat. split; [done|].
      split; [simpl; by rewrite <-Hc7|].
      split; [done|]. split; [by intros [?|?]|].
      split_and!; [lia|lia|simpl; lia|done|].
      intros v _ _ [st Hst']. congruence. }
  cbn zeta in Hw8.
  destruct (embedding_answer env (length (embedding_calls wp))
              (interaction_text env user_input_full (String c r) w)) as [v|].
  - rewrite !(interaction_record_clock user_input_full (String c r) w7 w v Ht7)
      in Hw8.
    pose proof (effects_after _ _ _ _ _ _ _ _ Hw17 Hw8) as Hw18.
    exists Continue, w8,
      (es ++ [interaction_text env user_input_full (String c r) w]),
      [interaction_add_call env user_input_full (String c r) w v], 2%nat.
    split; [done|]. split.
    { rewrite <-Hc7. unfold interaction_add_call. simpl.
      destruct (bool_decide _); exact Hw18. }
    split; [done|]. split; [by intros [?|?]|].
    split_and!; [rewrite length_app; simpl; lia|lia|simpl; lia| |].
    + intros [?|[?|[?|?]]]; congruence.
    + by intros v' _ _ _ [= <-].
  - pose proof (effects_after _ _ _ _ _ _ _ _ Hw17 Hw8) as Hw18.
    eexists Continue, w8, _, [], 2%nat. split; [done|].
    split; [simpl; rewrite <-Hc7; exact Hw18|].
    split; [done|]. split; [by intros [?|?]|].
    split_and!; [rewrite length_app; simpl; lia|lia|simpl; lia|done|done].
Qed.
End WithEnv.

(** X26. One pass of the chat loop never raises: whatever the lens
    dictionary, the provider, the store and the completion service do, it
    ends the loop exactly when the input in lower case is ["quit"] and
    otherwise goes on to the next input. For ["quit"] and for a blank input
    it touches nothing but the printed lines. In every case it asks the
    embedding provider at most twice, reads the clock at most twice and
    calls [collection.add] at most once. *)
Theorem chat_turn_never_raises (env : Env) (chat : ChatEnv)
    (str_isspace : ascii → bool) (LOADED_LENSES : lenses)
    (aletheia_system_prompt user_input_full : string) (w : World) :
  ∃ t w',
    chat_turn env chat str_isspace LOADED_LENSES aletheia_system_prompt
      user_input_full w = (Returned t, w')
    ∧ (t = Break ↔ str_lower env user_input_full = "quit")
    ∧ (str_lower env user_input_full = "quit"
       ∨ strip str_isspace user_input_full = "" →
       collection w' = collection w
       ∧ embedding_calls w' = embedding_calls w
       ∧ add_calls w' = add_calls w
       ∧ clock_reads w' = clock_reads w)
    ∧ (length (embedding_calls w') ≤ length (embedding_calls w) + 2)%nat
    ∧ (clock_reads w' ≤ clock_reads w + 2)%nat
    ∧ (length (add_calls w') ≤ length (add_calls w) + 1)%nat.
Proof.
  destruct (chat_turn_run env chat str_isspace LOADED_LENSES aletheia_system_prompt
              user_input_full w)
    as (t & w' & embeds & adds & ticks & Hrun & Heff & Hbreak & Hinert & He & Ht
        & Hadds & _).
  exists t, w'. split; [done|]. split; [done|].
  destruct Heff as (Hc & Hemb & Ha & Hclock & _).
  split_and!.
  - intros Hskip. destruct (Hinert Hskip) as (-> & -> & ->).
    rewrite Hc, Hemb, Ha, Hclock, !app_nil_r. simpl. split_and!; [done..|lia].
  - rewrite Hemb, length_app. lia.
  - lia.
  - rewrite Ha, length_app. lia.
Qed.

(** X27. What a pass of the chat loop stores. With the prompt that the
    pass builds from the input, the lens and the retrieved context:
    when the building of the prompt raises, or the completion service
    answers that prompt with nothing, with the empty text, or fails, the
    pass calls [collection.add] not at all and leaves the collection as it
    was; so it does for ["quit"], for a blank input, on a collection that is
    not initialised, and when the embedding of the interaction fails.
    Otherwise it calls [collection.add] exactly once, with the single
    interaction record of the input as the user typed it, lens command
    included, and of the text of the completion. *)
Theorem chat_turn_saves_full_input (env : Env) (chat : ChatEnv)
    (str_isspace : ascii → bool) (LOADED_LENSES : lenses)
    (aletheia_system_prompt user_input_full : string) (w : World) :
  ∃ t w',
    chat_turn env chat str_isspace LOADED_LENSES aletheia_system_prompt
      user_input_full w = (Returned t, w')
    ∧ match build_prompt env str_isspace LOADED_LENSES user_input_full w with
      | (Returned prompt, wp) =>
          match completion_answer env chat prompt (Some aletheia_system_prompt) with
          | Some (String c r) =>
              let ai_response := String c r in
              let text := interaction_text env user_input_full ai_response w in
              (str_lower env user_input_full = "quit"
               ∨ strip str_isspace user_input_full = ""
               ∨ collection w = None
               ∨ embedding_answer env (length (embedding_calls wp)) text = None →
               store_untouched w w')
              ∧ ∀ v,
                  str_lower env user_input_full ≠ "quit" →
                  strip str_isspace user_input_full ≠ "" →
                  is_Some (collection w) →
                  embedding_answer env (length (embedding_calls wp)) text = Some v →
                  add_calls w'
                  = add_calls w
                    ++ [interaction_add_call env user_input_full ai_response w v]
                  ∧ rec_document
                      (interaction_record env user_input_full ai_response w v).2
                    = "Interaction at " +:+ interaction_timestamp env w +:+ ":"
                      +:+ nl +:+ "User: " +:+ user_input_full +:+ nl
                      +:+ "Aletheia: " +:+ ai_response
          | _ => store_untouched w w'
          end
      | (Raised _, _) => store_untouched w w'
      end.
Proof.
  destruct (chat_turn_run env chat str_isspace LOADED_LENSES aletheia_system_prompt
              user_input_full w)
    as (t & w' & embeds & adds & ticks & Hrun & Heff & _ & _ & _ & _ & _ & Hadds).
  exists t, w'. split; [done|].
  destruct Heff as (Hc & _ & Ha & _).
  assert (adds = [] → store_untouched w w') as Hnone.
  { intros ->. unfold store_untouched. by rewrite Ha, Hc, app_nil_r. }
  destruct (build_prompt env str_isspace LOADED_LENSES user_input_full w)
    as [[prompt|e] wp]; [|by apply Hnone].
  destruct (completion_answer env chat prompt (Some aletheia_system_prompt))
    as [[|c r]|]; [by apply Hnone| |by apply Hnone].
  destruct Hadds as [Hskip Hsave]. cbn zeta. split.
  - intros H. by apply Hnone, Hskip.
  - intros v Hq Hs Hsome Hv. split; [|done].
    by rewrite Ha, (Hsave v Hq Hs Hsome Hv).
Qed.
End TurnExtras.
